(** * A shallow embedding of the 2D physics sandbox (python-sandbox2.py)

    The development follows the layout of the Python source:

    - [Py]: the fragment of Python's run-time behaviour the program relies
      on (exceptions, true division, [min]/[max], list indexing, attribute
      lookup on [self]).
    - [Pygame], [Pymunk]: the parts of the two libraries the program uses.
    - [Geometry]: the two hit-test functions at the end of the file,
      [point_in_shape] and [point_in_polygon], on exact numbers.
    - [PyNumber], [Numeric]: Python's [int] and [float], and
      [point_in_polygon] on them.
    - [Sandbox]: the state of the [PhysicsSandbox] object and its methods,
      up to [handle_events].
    - [Circuit]: the DC circuit solver of the design document, which the
      source does not contain.
    - [Frame], [Polygon], [EvenOdd]: the notions the results are stated
      with.

    The results follow the definitions, grouped by the part of the program
    they are about.

    Numbers.  Where rounding decides nothing, Python's [int]s and
    [float]s are modelled by exact rationals ([Q]); equality of numbers is
    [Qeq] ([==]), a decimal literal stands for the rational it spells and
    [math.pi] for the exact value of the double.  Pixel coordinates and
    sizes, which the program keeps as [int]s, are integers ([Z]).

    [point_in_polygon] divides by a difference and compares with a
    quotient, so what it raises and what it answers near an edge depend
    on rounding.  The results on that are stated on
    [Numeric.point_in_polygon], whose numbers are [int]s of any size and
    binary64 [float]s: round to nearest even, signed zeros, infinities,
    NaN, exact comparison of an [int] with a [float], [OverflowError] and
    [ZeroDivisionError] as Python raises them. *)

From Stdlib Require Import QArith Qminmax Qfield Lqa SpecFloat.
From stdpp Require Import gmap strings list.

#[local] Open Scope Q_scope.

(* ===================================================================== *)
(** * Python run-time fragment *)
(* ===================================================================== *)

Module Py.

(** The exceptions the modelled code can raise. *)
Inductive PyError : Type :=
| AttributeError (name : string)
| UnboundLocalError (name : string)
| KeyError (key : string)
| ZeroDivisionError
| OverflowError
| IndexError
| SystemExit.

(** A computation either returns a value or raises. *)
Inductive result (A : Type) : Type :=
| Ok (a : A)
| Raise (e : PyError).
Arguments Ok {A} a.
Arguments Raise {A} e.

Definition bind {A B} (k : A -> result B) (m : result A) : result B :=
  match m with
  | Ok a => k a
  | Raise e => Raise e
  end.

#[export] Instance result_ret : MRet result := @Ok.
#[export] Instance result_bind : MBind result := @bind.

(** [for x in xs: acc = body acc x], stopping at the first exception. *)
Fixpoint for_each {A S} (body : S -> A -> result S) (xs : list A) (s : S)
  : result S :=
  match xs with
  | [] => Ok s
  | x :: rest => s' ← body s x; for_each body rest s'
  end.

(** Comparisons on numbers, as booleans. *)
Definition lt_b (a b : Q) : bool := negb (Qle_bool b a).
Definition le_b (a b : Q) : bool := Qle_bool a b.
Definition eq_b (a b : Q) : bool := Qeq_bool a b.

(** [min(a, b)] and [max(a, b)]: the first argument is kept unless the
    second is strictly smaller (resp. strictly larger). *)
Definition py_min (a b : Q) : Q := if lt_b b a then b else a.
Definition py_max (a b : Q) : Q := if lt_b a b then b else a.

(** [a / b] on exact numbers: it raises [ZeroDivisionError] on a zero
    divisor and nothing else.  The division of [int]s and [float]s is
    [PyNumber.truediv]. *)
Definition truediv (a b : Q) : result Q :=
  if eq_b b 0 then Raise ZeroDivisionError else Ok (a / b).

(** [a % n] on naturals raises on [n = 0]. *)
Definition mod_nat (a n : nat) : result nat :=
  match n with
  | O => Raise ZeroDivisionError
  | S _ => Ok (a mod n)%nat
  end.

(** [l[i]] for a non-negative index. *)
Definition index {A} (l : list A) (i : nat) : result A :=
  match l !! i with
  | Some a => Ok a
  | None => Raise IndexError
  end.

(** [d[key]] on a dictionary with string keys. *)
Definition getitem {V} (d : gmap string V) (key : string) : result V :=
  match d !! key with
  | Some v => Ok v
  | None => Raise (KeyError key)
  end.

(** [self.name] where [name] is expected to be a method: the lookup
    consults the attributes of the instance and of its class, given here
    by their names; module-level names are not consulted. *)
Definition self_getattr (attrs : list string) (name : string) : result unit :=
  if bool_decide (name ∈ attrs) then Ok () else Raise (AttributeError name).

(** Reading a local variable that may not have been assigned yet. *)
Definition read_local {A} (name : string) (v : option A) : result A :=
  match v with
  | Some a => Ok a
  | None => Raise (UnboundLocalError name)
  end.

End Py.

Import Py.

(** Points and vertices are pairs of numbers. *)
Definition Point : Type := Q * Q.

(** Screen positions delivered by the window system are pairs of integers. *)
Definition Pixel : Type := (Z * Z)%type.

Definition to_point (p : Pixel) : Point := (inject_Z (fst p), inject_Z (snd p)).

(* ===================================================================== *)
(** * The external libraries, as far as the program uses them *)
(* ===================================================================== *)

(** [pygame.Rect]: integer position and size. *)
Module Pygame.

Record Rect : Type := mkRect { rx : Z; ry : Z; rw : Z; rh : Z }.

(** [Rect.collidepoint]: the left and top edges are inside, the right and
    bottom edges are not. *)
Definition collidepoint (r : Rect) (p : Pixel) : bool :=
  let '(px, py) := p in
  (rx r <=? px)%Z && (px <? rx r + rw r)%Z &&
  (ry r <=? py)%Z && (py <? ry r + rh r)%Z.

End Pygame.

(** [pymunk]: bodies, shapes, constraints and the space that holds them.
    Bodies and shapes are mutable objects shared between the space and the
    program's own lists, so they live in a store and are named by their
    address. *)
Module Pymunk.

Definition Color : Type := (Z * Z * Z)%type.

Inductive BodyType : Type := DYNAMIC | STATIC.

Record Body : Type := mkBody {
  body_type : BodyType;
  mass : Q;
  moment : Q;
  position : Point;
  velocity : Point
}.

Inductive Geometry : Type :=
| Circle (radius : Q)
| Poly (vertices : list Point)
| Segment (a b : Point) (radius : Q).

(** [shape_body = None] stands for the static body of the space. *)
Record Shape : Type := mkShape {
  shape_body : option nat;
  geometry : Geometry;
  friction : Q;
  elasticity : Q;
  color : option Color;
  temperature : option Q
}.

Inductive Constraint : Type :=
| PinJoint (a b : nat) (anchor_a anchor_b : Point)
| DampedSpring (a b : nat) (anchor_a anchor_b : Point)
    (rest_length stiffness damping : Q).

Record Space : Type := mkSpace {
  gravity : Point;
  bodies : list nat;
  shapes : list nat;
  constraints : list Constraint
}.

#[export] Instance Body_inhabited : Inhabited Body :=
  populate (mkBody STATIC 0 0 (0, 0) (0, 0)).
#[export] Instance Shape_inhabited : Inhabited Shape :=
  populate (mkShape None (Circle 0) 0 0 None None).

(** [pymunk.moment_for_circle(mass, inner_radius, outer_radius)]. *)
Definition moment_for_circle (m inner outer : Q) : Q :=
  m * ((inner * inner + outer * outer) / 2).

(** [pymunk.moment_for_box(mass, size)]. *)
Definition moment_for_box (m : Q) (size : Q * Q) : Q :=
  m * ((fst size * fst size + snd size * snd size) / 12).

(** The vertices of [Poly.create_box(body, size)], in body-local
    coordinates. *)
Definition box_vertices (size : Q * Q) : list Point :=
  let hw := fst size / 2 in
  let hh := snd size / 2 in
  [(hw, - hh); (hw, hh); (- hw, hh); (- hw, - hh)].

End Pymunk.

Import Pygame Pymunk.

(* ===================================================================== *)
(** * Hit tests: [point_in_shape] and [point_in_polygon] *)
(* ===================================================================== *)

(** Both functions are defined at module level, after the body of class
    [PhysicsSandbox]: their first parameter [self] is an ordinary argument.
    Where the body looks a method up on [self], the model takes the
    attribute names of that object ([self_attrs]).  The numbers of this
    module are exact; [Numeric] has [point_in_polygon] on Python's [int]
    and [float]. *)
Module Geometry.

(** The local variables of [point_in_polygon] that the loop assigns.
    [xinters] has no value until its first assignment. *)
Record pip_locals : Type := PipLocals {
  inside : bool;
  xinters : option Q
}.

(** One iteration of [for i in range(n)] in [point_in_polygon]. *)
Definition pip_iteration (point : Point) (vertices : list Point) (n : nat)
    (loc : pip_locals) (i : nat) : result pip_locals :=
  let '(x, y) := point in
  '(x1, y1) ← index vertices i;
  j ← mod_nat (i + 1) n;
  '(x2, y2) ← index vertices j;
  if lt_b (py_min y1 y2) y then
    if le_b y (py_max y1 y2) then
      if le_b x (py_max x1 x2) then
        loc1 ← (if negb (eq_b y1 y2) then
                   q ← truediv ((y - y1) * (x2 - x1)) (y2 - y1);
                   Ok (PipLocals (inside loc) (Some (q + x1)))
                 else Ok loc);
        cond ← (if eq_b y1 y2 then Ok true
                 else xi ← read_local "xinters" (xinters loc1);
                      Ok (le_b x xi));
        if cond : bool then Ok (PipLocals (negb (inside loc1)) (xinters loc1))
        else Ok loc1
      else Ok loc
    else Ok loc
  else Ok loc.

(** [point_in_polygon(self, point, vertices)]; [self] is not used by the
    body. *)
Definition point_in_polygon (point : Point) (vertices : list Point)
  : result bool :=
  let n := length vertices in
  loc ← for_each (pip_iteration point vertices n) (seq 0 n)
           (PipLocals false None);
  Ok (inside loc).

(** [point_in_shape(self, point, body, shape)]. *)
Definition point_in_shape (self_attrs : list string) (point : Point)
    (body : Body) (shape : Shape) : result bool :=
  match geometry shape with
  | Circle radius =>
      let '(cx, cy) := position body in
      let dx := fst point - cx in
      let dy := snd point - cy in
      Ok (le_b (dx * dx + dy * dy) (radius * radius))
  | Poly vertices =>
      _ ← self_getattr self_attrs "point_in_polygon";
      point_in_polygon point vertices
  | Segment _ _ _ => Ok false
  end.

End Geometry.

(* ===================================================================== *)
(** * The sandbox: constants, entities and the [PhysicsSandbox] state *)
(* ===================================================================== *)

Module Sandbox.

(** ** Constants *)

Definition WIDTH : Z := 1000.
Definition HEIGHT : Z := 700.
Definition GRAVITY : Q := 981.

Definition WHITE : Color := (255, 255, 255)%Z.
Definition BLACK : Color := (0, 0, 0)%Z.
Definition BLUE : Color := (0, 0, 255)%Z.
Definition YELLOW : Color := (255, 255, 0)%Z.
Definition GRAY : Color := (150, 150, 150)%Z.
Definition LIGHT_BLUE : Color := (173, 216, 230)%Z.
Definition BROWN : Color := (139, 69, 19)%Z.

(** [math.pi], the double nearest to pi, as an exact fraction. *)
Definition math_pi : Q := 884279719003555 # 281474976710656.

Inductive Mode : Type := MECHANICS | ELECTRICITY | FLUID | THERMAL.

(** [mode.name.lower()]. *)
Definition mode_category (m : Mode) : string :=
  match m with
  | MECHANICS => "mechanics"
  | ELECTRICITY => "electricity"
  | FLUID => "fluid"
  | THERMAL => "thermal"
  end.

(** ** Materials *)

Record Material : Type := mkMaterial {
  mat_name : string;
  density : Q;
  mat_friction : Q;
  mat_elasticity : Q;
  mat_color : Color;
  thermal_conductivity : Q;
  mat_temperature : Q
}.

(** [Material.__init__]: every material starts at room temperature. *)
Definition Material_init (name : string) (d f e : Q) (c : Color) (k : Q)
  : Material :=
  mkMaterial name d f e c k 20.

Definition MATERIALS_items : list (string * Material) :=
  [ ("Wood",   Material_init "Wood"   (5 # 10) (7 # 10) (4 # 10) BROWN (2 # 10));
    ("Metal",  Material_init "Metal"  1        (4 # 10) (5 # 10) GRAY  (9 # 10));
    ("Ice",    Material_init "Ice"    (9 # 10) (1 # 10) (9 # 10) LIGHT_BLUE (5 # 10));
    ("Rubber", Material_init "Rubber" (7 # 10) (9 # 10) (9 # 10) BLACK (1 # 10)) ].

Definition MATERIALS : gmap string Material := list_to_map MATERIALS_items.

(** ** Electrical components *)

Inductive ComponentType : Type :=
| WIRE | BATTERY | RESISTOR | BULB | SWITCH | CAPACITOR.

#[export] Instance ComponentType_eq_dec : EqDecision ComponentType.
Proof. solve_decision. Defined.

Record ElectricalComponent : Type := mkComponent {
  c_type : ComponentType;
  c_position : Pixel;
  c_rotation : Q;
  c_connections : list nat;
  c_size : Z * Z;
  c_value : Q;
  c_on : bool;
  c_charge : Q
}.

(** [ElectricalComponent.__init__(component_type, position, rotation=0)]. *)
Definition ElectricalComponent_init (t : ComponentType) (pos : Pixel)
  : ElectricalComponent :=
  let '(value, size) :=
    match t with
    | BATTERY => (9, (40, 20)%Z)
    | RESISTOR => (100, (50, 10)%Z)
    | BULB => (50, (20, 20)%Z)
    | CAPACITOR => (1 # 100, (30, 20)%Z)
    | WIRE | SWITCH => (0, (50, 20)%Z)
    end in
  mkComponent t pos 0 [] size value true 0.

#[export] Instance ElectricalComponent_inhabited : Inhabited ElectricalComponent :=
  populate (ElectricalComponent_init WIRE (0, 0)%Z).

(** ** Fluid entities *)

(** [color] and [density] are only assigned for the three known fluids. *)
Record Particle : Type := mkParticle {
  p_position : Pixel;
  p_velocity : Point;
  p_material : string;
  p_temperature : Q;
  p_size : Z;
  p_color : option Color;
  p_density : option Q
}.

Definition Particle_init (pos : Pixel) (material : string) : Particle :=
  let '(c, d) :=
    if String.eqb material "Water" then (Some BLUE, Some 1)
    else if String.eqb material "Air" then (Some WHITE, Some (1 # 10))
    else if String.eqb material "Oil" then (Some YELLOW, Some (8 # 10))
    else (None, None) in
  mkParticle pos (0, 0) material 20 3 c d.

(** The extra keys of a floating object's dictionary. *)
Record Floating : Type := mkFloating {
  f_velocity : Point;
  f_material : string;
  f_density : Q;
  f_angular_velocity : Q
}.

Record Obstacle : Type := mkObstacle {
  o_rect : Rect;
  o_rotation : Q;
  o_floating : option Floating
}.

(** ** Thermal entities *)

(** The dictionaries appended to [heat_sources] have one of two key sets:
    a point source (keys [position], [radius], [temperature], [power]) or
    a conductor/insulator (keys [rect], [material], [temperature],
    [conductivity]). *)
Inductive HeatEntity : Type :=
| PointSource (position : Pixel) (radius : Z) (temperature : Q) (power : Q)
| RectElement (rect : Rect) (material : string) (temperature : Q)
    (conductivity : Q).

Definition entity_temperature (h : HeatEntity) : Q :=
  match h with
  | PointSource _ _ t _ => t
  | RectElement _ _ t _ => t
  end.

(** [h["temperature"] = t]. *)
Definition entity_set_temperature (t : Q) (h : HeatEntity) : HeatEntity :=
  match h with
  | PointSource p r _ w => PointSource p r t w
  | RectElement r m _ k => RectElement r m t k
  end.

(** ** Mechanics entities *)

(** An entry of [objects]: references to the body and the shape, plus two
    strings. *)
Record MechObject : Type := mkObject {
  obj_body : nat;
  obj_shape : nat;
  obj_type : string;
  obj_material : string
}.

Record Pendulum : Type := mkPendulum {
  pivot : nat; bob : nat; joint : Constraint; bob_shape : nat
}.

Record Spring : Type := mkSpring {
  anchor : nat; weight : nat; spring_constraint : Constraint;
  weight_shape : nat
}.

(** ** The state of a [PhysicsSandbox]

    The attributes are grouped by mode, as the comments of [__init__]
    group them; [selected_material], which the fluid mode reads as well,
    is kept beside [mode].  The bodies, shapes and components are objects
    shared by reference, so each group holds a store and the lists hold
    addresses into it.  The window, clock, fonts, draw options, graphs and
    metrics are never read or written by the methods modelled here and are
    left out. *)

Record Mechanics : Type := mkMechanics {
  body_store : list Body;
  shape_store : list Shape;
  space : Space;
  objects : list MechObject;
  selected_object : option MechObject;
  applying_force : bool;
  force_direction : option (Z * Z);
  force_start_pos : option Pixel;
  pendulum : option Pendulum;
  spring : option Spring
}.

Record Electricity : Type := mkElectricity {
  component_store : list ElectricalComponent;
  components : list nat;
  wires : list (nat * nat);
  selected_component : option nat;
  dragging_component : bool;
  circuit_solved : bool;
  voltages : gmap nat Q;
  currents : gmap nat Q
}.

Record Fluid : Type := mkFluid {
  particles : list Particle;
  obstacles : list Obstacle;
  selected_fluid : string
}.

Record Thermal : Type := mkThermal {
  heat_sources : list HeatEntity;
  temperature_map : list (list Q)
}.

Record State : Type := mkState {
  mode : Mode;
  selected_material : string;
  mech : Mechanics;
  elec : Electricity;
  fluid : Fluid;
  thermal : Thermal;
  slider_values : list Q;
  selected_button : option nat
}.

Definition with_mode (v : Mode) (s : State) : State :=
  mkState v (selected_material s) (mech s) (elec s) (fluid s) (thermal s)
    (slider_values s) (selected_button s).
Definition with_selected_material (v : string) (s : State) : State :=
  mkState (mode s) v (mech s) (elec s) (fluid s) (thermal s)
    (slider_values s) (selected_button s).
Definition with_mech (v : Mechanics) (s : State) : State :=
  mkState (mode s) (selected_material s) v (elec s) (fluid s) (thermal s)
    (slider_values s) (selected_button s).
Definition with_elec (v : Electricity) (s : State) : State :=
  mkState (mode s) (selected_material s) (mech s) v (fluid s) (thermal s)
    (slider_values s) (selected_button s).
Definition with_fluid (v : Fluid) (s : State) : State :=
  mkState (mode s) (selected_material s) (mech s) (elec s) v (thermal s)
    (slider_values s) (selected_button s).
Definition with_thermal (v : Thermal) (s : State) : State :=
  mkState (mode s) (selected_material s) (mech s) (elec s) (fluid s) v
    (slider_values s) (selected_button s).

(** Allocation in a store: the new object gets the next address. *)
Definition alloc {A} (store : list A) (x : A) : nat * list A :=
  (length store, store ++ [x]).

Definition with_objects (v : list MechObject) (m : Mechanics) : Mechanics :=
  mkMechanics (body_store m) (shape_store m) (space m) v (selected_object m)
    (applying_force m) (force_direction m) (force_start_pos m)
    (pendulum m) (spring m).
Definition with_selected_object (v : option MechObject) (m : Mechanics)
  : Mechanics :=
  mkMechanics (body_store m) (shape_store m) (space m) (objects m) v
    (applying_force m) (force_direction m) (force_start_pos m)
    (pendulum m) (spring m).
Definition with_space (v : Space) (m : Mechanics) : Mechanics :=
  mkMechanics (body_store m) (shape_store m) v (objects m)
    (selected_object m) (applying_force m) (force_direction m)
    (force_start_pos m) (pendulum m) (spring m).
Definition with_body_store (v : list Body) (m : Mechanics) : Mechanics :=
  mkMechanics v (shape_store m) (space m) (objects m)
    (selected_object m) (applying_force m) (force_direction m)
    (force_start_pos m) (pendulum m) (spring m).
Definition with_shape_store (v : list Shape) (m : Mechanics) : Mechanics :=
  mkMechanics (body_store m) v (space m) (objects m)
    (selected_object m) (applying_force m) (force_direction m)
    (force_start_pos m) (pendulum m) (spring m).

(** [space.add(...)]. *)
Definition space_add (new_bodies new_shapes : list nat)
    (new_constraints : list Constraint) (sp : Space) : Space :=
  mkSpace (gravity sp) (bodies sp ++ new_bodies) (shapes sp ++ new_shapes)
    (constraints sp ++ new_constraints).

(** ** Construction *)

(** A boundary segment on the static body, radius 5. *)
Definition boundary (a b : Pixel) : Shape :=
  mkShape None (Segment (to_point a) (to_point b) 5) (1 # 2) (1 # 2)
    None None.

Definition create_boundaries (m : Mechanics) : Mechanics :=
  let '(floor, st1) :=
    alloc (shape_store m) (boundary (0, HEIGHT - 50)%Z (WIDTH, HEIGHT - 50)%Z) in
  let '(left_wall, st2) :=
    alloc st1 (boundary (0, 0)%Z (0, HEIGHT)%Z) in
  let '(right_wall, st3) :=
    alloc st2 (boundary (WIDTH, 0)%Z (WIDTH, HEIGHT)%Z) in
  with_space (space_add [] [floor; left_wall; right_wall] [] (space m))
    (with_shape_store st3 m).

(** [pymunk.Space()] followed by [space.gravity = (0, GRAVITY)]. *)
Definition fresh_space : Space := mkSpace (0, GRAVITY) [] [] [].

(** [np.ones((WIDTH//10, HEIGHT//10)) * 20]. *)
Definition room_temperature_grid : list (list Q) :=
  replicate (Z.to_nat (WIDTH / 10)) (replicate (Z.to_nat (HEIGHT / 10)) 20).

(** The initial values of the eight sliders, in the order of
    [create_sliders]. *)
Definition initial_slider_values : list Q :=
  [GRAVITY; 1 # 2; 9; 100; 1; 10; 100; 1 # 2].

(** [PhysicsSandbox.__init__]. *)
Definition init : State :=
  mkState MECHANICS "Wood"
    (create_boundaries
       (mkMechanics [] [] fresh_space [] None false None None None None))
    (mkElectricity [] [] [] None false false ∅ ∅)
    (mkFluid [] [] "Water")
    (mkThermal [] room_temperature_grid)
    initial_slider_values None.

(** ** Mode switching and selections *)

Definition set_mode (m : Mode) (s : State) : State :=
  let s := with_mode m s in
  match m with
  | MECHANICS =>
      with_mech
        (with_objects []
           (create_boundaries (with_space fresh_space (mech s)))) s
  | ELECTRICITY =>
      let e := elec s in
      with_elec
        (mkElectricity (component_store e) [] [] (selected_component e)
           (dragging_component e) false (voltages e) (currents e)) s
  | FLUID =>
      with_fluid (mkFluid [] [] (selected_fluid (fluid s))) s
  | THERMAL =>
      with_thermal (mkThermal [] room_temperature_grid) s
  end.

Definition set_material (material : string) (s : State) : State :=
  with_selected_material material s.

Definition set_fluid (f : string) (s : State) : State :=
  with_fluid (mkFluid (particles (fluid s)) (obstacles (fluid s)) f) s.

(** ** Mechanics: adding bodies *)

(** The common tail of the four [add_*] methods of the mechanics mode:
    store the new body and shape, add them (and a constraint, if any) to
    the space and append the entry to [objects]. *)
Definition register (body : Body) (mk_shape : nat -> Shape)
    (new_constraints : nat -> list Constraint) (type material : string)
    (m : Mechanics) : nat * nat * Mechanics :=
  let '(b, bs) := alloc (body_store m) body in
  let '(sh, ss) := alloc (shape_store m) (mk_shape b) in
  (b, sh,
   with_objects (objects m ++ [mkObject b sh type material])
     (with_space (space_add [b] [sh] (new_constraints b) (space m))
        (with_shape_store ss (with_body_store bs m)))).

Definition spawn_point : Point := to_point (WIDTH / 2, HEIGHT / 3)%Z.

Definition add_circle (s : State) : result State :=
  material ← getitem MATERIALS (selected_material s);
  let radius : Q := 20 in
  let mass := math_pi * radius * radius * density material in
  let moment := moment_for_circle mass 0 radius in
  let body := mkBody DYNAMIC mass moment spawn_point (0, 0) in
  let shape b :=
    mkShape (Some b) (Circle radius) (mat_friction material)
      (mat_elasticity material) (Some (mat_color material))
      (Some (mat_temperature material)) in
  let '(_, _, m) :=
    register body shape (fun _ => []) "circle" (selected_material s)
      (mech s) in
  Ok (with_mech m s).

Definition add_box (s : State) : result State :=
  material ← getitem MATERIALS (selected_material s);
  let size : Q * Q := (40, 40) in
  let mass := fst size * snd size * density material in
  let moment := moment_for_box mass size in
  let body := mkBody DYNAMIC mass moment spawn_point (0, 0) in
  let shape b :=
    mkShape (Some b) (Poly (box_vertices size)) (mat_friction material)
      (mat_elasticity material) (Some (mat_color material))
      (Some (mat_temperature material)) in
  let '(_, _, m) :=
    register body shape (fun _ => []) "box" (selected_material s)
      (mech s) in
  Ok (with_mech m s).

(** A static body created by [pymunk.Body(body_type=STATIC)] and placed
    at [pos]; it is never added to the space. *)
Definition static_body_at (pos : Pixel) : Body :=
  mkBody STATIC 0 0 (to_point pos) (0, 0).

Definition add_pendulum (s : State) : result State :=
  let '(pivot, bs) :=
    alloc (body_store (mech s)) (static_body_at (WIDTH / 2, 100)%Z) in
  material ← getitem MATERIALS (selected_material s);
  let radius : Q := 20 in
  let mass := math_pi * radius * radius * density material in
  let bob :=
    mkBody DYNAMIC mass (moment_for_circle mass 0 radius)
      (to_point (WIDTH / 2, 250)%Z) (0, 0) in
  let bob_shape b :=
    mkShape (Some b) (Circle radius) (mat_friction material)
      (mat_elasticity material) (Some (mat_color material)) None in
  let joint b := PinJoint pivot b (0, 0) (0, 0) in
  let '(b, sh, m) :=
    register bob bob_shape (fun b => [joint b]) "pendulum_bob"
      (selected_material s) (with_body_store bs (mech s)) in
  Ok (with_mech
        (mkMechanics (body_store m) (shape_store m) (space m) (objects m)
           (selected_object m) (applying_force m) (force_direction m)
           (force_start_pos m) (Some (mkPendulum pivot b (joint b) sh))
           (spring m)) s).

Definition add_spring (s : State) : result State :=
  let '(anchor, bs) :=
    alloc (body_store (mech s)) (static_body_at (WIDTH / 2, 100)%Z) in
  material ← getitem MATERIALS (selected_material s);
  let size : Q * Q := (40, 40) in
  let mass := fst size * snd size * density material in
  let weight :=
    mkBody DYNAMIC mass (moment_for_box mass size)
      (to_point (WIDTH / 2, 250)%Z) (0, 0) in
  let weight_shape b :=
    mkShape (Some b) (Poly (box_vertices size)) (mat_friction material)
      (mat_elasticity material) (Some (mat_color material)) None in
  let stiffness : Q := 1000 in
  let damping : Q := 100 in
  let rest_length : Q := 100 in
  let spring b :=
    DampedSpring anchor b (0, 0) (0, 0) rest_length stiffness damping in
  let '(b, sh, m) :=
    register weight weight_shape (fun b => [spring b]) "spring_weight"
      (selected_material s) (with_body_store bs (mech s)) in
  Ok (with_mech
        (mkMechanics (body_store m) (shape_store m) (space m) (objects m)
           (selected_object m) (applying_force m) (force_direction m)
           (force_start_pos m) (pendulum m)
           (Some (mkSpring anchor b (spring b) sh))) s).

(** ** Electricity, fluid and thermal: adding entities *)

Definition screen_centre : Pixel := (WIDTH / 2, HEIGHT / 2)%Z.

Definition add_component (t : ComponentType) (s : State) : State :=
  let e := elec s in
  let '(c, cs) :=
    alloc (component_store e) (ElectricalComponent_init t screen_centre) in
  with_elec
    (mkElectricity cs (components e ++ [c]) (wires e) (Some c)
       (dragging_component e) (circuit_solved e) (voltages e) (currents e))
    s.

Definition with_obstacles (v : list Obstacle) (s : State) : State :=
  with_fluid (mkFluid (particles (fluid s)) v (selected_fluid (fluid s))) s.

Definition add_obstacle (s : State) : State :=
  let obstacle :=
    mkObstacle (mkRect (WIDTH / 2 - 50) (HEIGHT / 2) 100 20) 0 None in
  with_obstacles (obstacles (fluid s) ++ [obstacle]) s.

Definition add_floating_object (s : State) : result State :=
  material ← getitem MATERIALS (selected_material s);
  let floating_obj :=
    mkObstacle (mkRect (WIDTH / 2 - 20) (HEIGHT / 3) 40 40) 0
      (Some (mkFloating (0, 0) (selected_material s) (density material) 0)) in
  Ok (with_obstacles (obstacles (fluid s) ++ [floating_obj]) s).

Definition with_heat_sources (v : list HeatEntity) (s : State) : State :=
  with_thermal (mkThermal v (temperature_map (thermal s))) s.

Definition add_heat_source (s : State) : State :=
  let heat_source := PointSource screen_centre 30 200 50 in
  with_heat_sources (heat_sources (thermal s) ++ [heat_source]) s.

(** The rod placed by [add_thermal_conductor] and [add_thermal_insulator]. *)
Definition rod (material : string) : result HeatEntity :=
  m ← getitem MATERIALS material;
  Ok (RectElement (mkRect (WIDTH / 2 - 100) (HEIGHT / 2 - 10) 200 20)
        material 20 (thermal_conductivity m)).

Definition add_thermal_conductor (s : State) : result State :=
  conductor ← rod "Metal";
  Ok (with_heat_sources (heat_sources (thermal s) ++ [conductor]) s).

Definition add_thermal_insulator (s : State) : result State :=
  insulator ← rod "Wood";
  Ok (with_heat_sources (heat_sources (thermal s) ++ [insulator]) s).

(** ** Slider setters *)

Definition set_gravity (value : Q) (s : State) : State :=
  let sp := space (mech s) in
  with_mech
    (with_space
       (mkSpace (0, value) (bodies sp) (shapes sp) (constraints sp))
       (mech s)) s.

Definition shape_set_friction (value : Q) (sh : Shape) : Shape :=
  mkShape (shape_body sh) (geometry sh) value (elasticity sh) (color sh)
    (temperature sh).

Definition set_friction (value : Q) (s : State) : State :=
  let m := mech s in
  with_mech
    (with_shape_store
       (foldl (fun store obj => alter (shape_set_friction value)
                                  (obj_shape obj) store)
          (shape_store m) (objects m)) m) s.

Definition component_set_value (value : Q) (c : ElectricalComponent)
  : ElectricalComponent :=
  mkComponent (c_type c) (c_position c) (c_rotation c) (c_connections c)
    (c_size c) value (c_on c) (c_charge c).

(** [for component in components: if component.type == t:
    component.value = value]. *)
Definition set_value_of (t : ComponentType) (value : Q) (s : State) : State :=
  let e := elec s in
  with_elec
    (mkElectricity
       (foldl (fun store c =>
                 alter (fun comp => if decide (c_type comp = t)
                                    then component_set_value value comp
                                    else comp) c store)
          (component_store e) (components e))
       (components e) (wires e) (selected_component e)
       (dragging_component e) (circuit_solved e) (voltages e) (currents e))
    s.

Definition set_voltage (value : Q) (s : State) : State :=
  set_value_of BATTERY value s.

Definition set_resistance (value : Q) (s : State) : State :=
  set_value_of RESISTOR value s.

Definition set_viscosity (value : Q) (s : State) : State := s.

Definition set_flow_rate (value : Q) (s : State) : State := s.

Definition set_temperature (value : Q) (s : State) : State :=
  with_heat_sources
    (map (entity_set_temperature value) (heat_sources (thermal s))) s.

(** Only conductors and insulators have the key [conductivity]. *)
Definition set_conductivity (value : Q) (s : State) : State :=
  with_heat_sources
    (map (fun h => match h with
                   | RectElement r m t _ => RectElement r m t value
                   | PointSource _ _ _ _ => h
                   end) (heat_sources (thermal s))) s.

(** ** Pointer handlers *)

(** The attributes of a [PhysicsSandbox] instance: the methods defined in
    the body of the class, then the names assigned on [self].  The two
    functions [point_in_shape] and [point_in_polygon] start in the first
    column of the file, after the class body has ended, and are bound in
    the module instead. *)
Definition PhysicsSandbox_methods : list string :=
  [ "__init__"; "create_boundaries"; "create_buttons"; "create_sliders";
    "set_mode"; "set_material"; "set_fluid"; "add_circle"; "add_box";
    "add_pendulum"; "add_spring"; "add_component"; "add_obstacle";
    "add_floating_object"; "add_heat_source"; "add_thermal_conductor";
    "add_thermal_insulator"; "set_gravity"; "set_friction"; "set_voltage";
    "set_resistance"; "set_viscosity"; "set_flow_rate"; "set_temperature";
    "set_conductivity"; "handle_events"; "handle_mechanics_click";
    "handle_mechanics_motion"; "handle_electricity_click";
    "handle_electricity_motion"; "handle_fluid_click";
    "handle_thermal_click" ].

Definition instance_attributes : list string :=
  [ "screen"; "clock"; "space"; "draw_options"; "mode"; "objects";
    "selected_object"; "selected_material"; "applying_force";
    "force_direction"; "pendulum"; "spring"; "components"; "wires";
    "selected_component"; "dragging_component"; "circuit_solved";
    "voltages"; "currents"; "particles"; "obstacles"; "selected_fluid";
    "heat_sources"; "temperature_map"; "buttons"; "sliders"; "graphs";
    "selected_button"; "metrics"; "font"; "title_font" ].

Definition PhysicsSandbox_attributes : list string :=
  PhysicsSandbox_methods ++ instance_attributes.

Definition module_functions : list string :=
  [ "point_in_shape"; "point_in_polygon" ].

(** The attributes the instance would have with the two hit-test
    functions indented into the class body. *)
Definition intended_attributes : list string :=
  PhysicsSandbox_attributes ++ module_functions.

(** The loop of [handle_mechanics_click]: the first object hit, if any.
    [self.point_in_shape] is looked up on every iteration, before its
    arguments are evaluated. *)
Fixpoint pick (attrs : list string) (m : Mechanics) (mouse_pos : Pixel)
    (objs : list MechObject) : result (option MechObject) :=
  match objs with
  | [] => Ok None
  | obj :: rest =>
      _ ← self_getattr attrs "point_in_shape";
      hit ← Geometry.point_in_shape attrs (to_point mouse_pos)
              (body_store m !!! obj_body obj)
              (shape_store m !!! obj_shape obj);
      if hit : bool then Ok (Some obj) else pick attrs m mouse_pos rest
  end.

(** [handle_mechanics_click] for an instance with the given attributes;
    [right_pressed] is [pygame.mouse.get_pressed()[2]]. *)
Definition handle_mechanics_click_of (attrs : list string)
    (mouse_pos : Pixel) (right_pressed : bool) (s : State) : result State :=
  let m := mech s in
  found ← pick attrs m mouse_pos (objects m);
  match found with
  | Some obj => Ok (with_mech (with_selected_object (Some obj) m) s)
  | None =>
      if right_pressed then
        Ok (with_mech
              (mkMechanics (body_store m) (shape_store m) (space m)
                 (objects m) (selected_object m) true (force_direction m)
                 (Some mouse_pos) (pendulum m) (spring m)) s)
      else Ok s
  end.

(** The method as the file defines it. *)
Definition handle_mechanics_click : Pixel -> bool -> State -> result State :=
  handle_mechanics_click_of PhysicsSandbox_attributes.

Definition body_teleport (pos : Pixel) (b : Body) : Body :=
  mkBody (body_type b) (mass b) (moment b) (to_point pos) (0, 0).

(** [left_pressed] is [pygame.mouse.get_pressed()[0]]. *)
Definition handle_mechanics_motion (mouse_pos : Pixel) (left_pressed : bool)
    (s : State) : result State :=
  let m := mech s in
  let m1 :=
    match selected_object m with
    | Some obj =>
        if left_pressed then
          with_body_store
            (alter (body_teleport mouse_pos) (obj_body obj) (body_store m)) m
        else m
    | None => m
    end in
  if applying_force m1 then
    start ← match force_start_pos m1 with
            | Some p => Ok p
            | None => Raise (AttributeError "force_start_pos")
            end;
    Ok (with_mech
          (mkMechanics (body_store m1) (shape_store m1) (space m1)
             (objects m1) (selected_object m1) (applying_force m1)
             (Some (fst mouse_pos - fst start, snd mouse_pos - snd start)%Z)
             (force_start_pos m1) (pendulum m1) (spring m1)) s)
  else Ok (with_mech m1 s).

Definition component_rect (c : ElectricalComponent) : Rect :=
  mkRect (fst (c_position c) - fst (c_size c) / 2)
         (snd (c_position c) - snd (c_size c) / 2)
         (fst (c_size c)) (snd (c_size c)).

Definition component_toggle (c : ElectricalComponent) : ElectricalComponent :=
  mkComponent (c_type c) (c_position c) (c_rotation c) (c_connections c)
    (c_size c) (c_value c) (negb (c_on c)) (c_charge c).

Definition component_move (pos : Pixel) (c : ElectricalComponent)
  : ElectricalComponent :=
  mkComponent (c_type c) pos (c_rotation c) (c_connections c)
    (c_size c) (c_value c) (c_on c) (c_charge c).

Definition handle_electricity_click (mouse_pos : Pixel) (s : State) : State :=
  let e := elec s in
  match
    List.find (fun c => collidepoint (component_rect (component_store e !!! c))
                          mouse_pos) (components e)
  with
  | Some c =>
      let store :=
        if decide (c_type (component_store e !!! c) = SWITCH)
        then alter component_toggle c (component_store e)
        else component_store e in
      with_elec
        (mkElectricity store (components e) (wires e) (Some c) true
           (circuit_solved e) (voltages e) (currents e)) s
  | None => s
  end.

Definition handle_electricity_motion (mouse_pos : Pixel) (s : State) : State :=
  let e := elec s in
  match dragging_component e, selected_component e with
  | true, Some c =>
      with_elec
        (mkElectricity (alter (component_move mouse_pos) c (component_store e))
           (components e) (wires e) (selected_component e)
           (dragging_component e) (circuit_solved e) (voltages e)
           (currents e)) s
  | _, _ => s
  end.

(** [rand k] is the pair of [random.randint(-10, 10)] draws of the [k]-th
    iteration; [left_pressed] is [pygame.mouse.get_pressed()[0]]. *)
Definition handle_fluid_click (mouse_pos : Pixel) (left_pressed : bool)
    (rand : nat -> Z * Z) (s : State) : State :=
  if left_pressed then
    let f := fluid s in
    let new_particles :=
      map (fun k =>
             let '(offset_x, offset_y) := rand k in
             Particle_init (fst mouse_pos + offset_x, snd mouse_pos + offset_y)%Z
               (selected_fluid f)) (seq 0 5) in
    with_fluid
      (mkFluid (particles f ++ new_particles) (obstacles f) (selected_fluid f))
      s
  else s.

(** [math.sqrt(d2) < r] for integers [d2 >= 0] and [r]: the square root is
    below [r] exactly when [r] is positive and [d2 < r * r]. *)
Definition sqrt_lt (d2 r : Z) : bool := (0 <? r)%Z && (d2 <? r * r)%Z.

(** The body of the loop of [handle_thermal_click]. *)
Definition heat_click (mouse_pos : Pixel) (h : HeatEntity) : HeatEntity :=
  match h with
  | PointSource position radius temperature power =>
      let dx := (fst mouse_pos - fst position)%Z in
      let dy := (snd mouse_pos - snd position)%Z in
      if sqrt_lt (dx ^ 2 + dy ^ 2) radius
      then PointSource position radius (temperature + 10) power
      else h
  | RectElement rect material temperature conductivity =>
      if collidepoint rect mouse_pos
      then RectElement rect material (temperature + 10) conductivity
      else h
  end.

Definition handle_thermal_click (mouse_pos : Pixel) (s : State) : State :=
  with_heat_sources (map (heat_click mouse_pos) (heat_sources (thermal s))) s.

(** ** Buttons, sliders and the event handler *)

Inductive Action : Type :=
| do_set_mode (m : Mode)
| do_set_material (material : string)
| do_add_circle | do_add_box | do_add_pendulum | do_add_spring
| do_add_component (t : ComponentType)
| do_set_fluid (f : string)
| do_add_obstacle | do_add_floating_object
| do_add_heat_source | do_add_thermal_conductor | do_add_thermal_insulator.

Definition run_action (a : Action) (s : State) : result State :=
  match a with
  | do_set_mode m => Ok (set_mode m s)
  | do_set_material material => Ok (set_material material s)
  | do_add_circle => add_circle s
  | do_add_box => add_box s
  | do_add_pendulum => add_pendulum s
  | do_add_spring => add_spring s
  | do_add_component t => Ok (add_component t s)
  | do_set_fluid f => Ok (set_fluid f s)
  | do_add_obstacle => Ok (add_obstacle s)
  | do_add_floating_object => add_floating_object s
  | do_add_heat_source => Ok (add_heat_source s)
  | do_add_thermal_conductor => add_thermal_conductor s
  | do_add_thermal_insulator => add_thermal_insulator s
  end.

Record Button : Type := mkButton {
  b_rect : Rect;
  b_text : string;
  b_action : Action;
  b_category : option string
}.

(** The material buttons: one per key of [MATERIALS], 40 pixels apart. *)
Fixpoint material_buttons (names : list string) (y_offset : Z) : list Button :=
  match names with
  | [] => []
  | material :: rest =>
      mkButton (mkRect 20 y_offset 150 30) material
        (do_set_material material) (Some "material")
      :: material_buttons rest (y_offset + 40)
  end.

Definition create_buttons : list Button :=
  [ mkButton (mkRect 20 20 150 40) "Mechanics Mode" (do_set_mode MECHANICS) None;
    mkButton (mkRect 20 70 150 40) "Electricity Mode" (do_set_mode ELECTRICITY) None;
    mkButton (mkRect 20 120 150 40) "Fluid Mode" (do_set_mode FLUID) None;
    mkButton (mkRect 20 170 150 40) "Thermal Mode" (do_set_mode THERMAL) None ]
  ++ material_buttons (map fst MATERIALS_items) 250
  ++
  [ mkButton (mkRect 20 450 150 40) "Add Circle" do_add_circle (Some "mechanics");
    mkButton (mkRect 20 500 150 40) "Add Box" do_add_box (Some "mechanics");
    mkButton (mkRect 20 550 150 40) "Add Pendulum" do_add_pendulum (Some "mechanics");
    mkButton (mkRect 20 600 150 40) "Add Spring" do_add_spring (Some "mechanics");
    mkButton (mkRect 20 450 150 40) "Add Battery" (do_add_component BATTERY) (Some "electricity");
    mkButton (mkRect 20 500 150 40) "Add Resistor" (do_add_component RESISTOR) (Some "electricity");
    mkButton (mkRect 20 550 150 40) "Add Bulb" (do_add_component BULB) (Some "electricity");
    mkButton (mkRect 20 600 150 40) "Add Switch" (do_add_component SWITCH) (Some "electricity");
    mkButton (mkRect 20 450 150 40) "Add Water" (do_set_fluid "Water") (Some "fluid");
    mkButton (mkRect 20 500 150 40) "Add Oil" (do_set_fluid "Oil") (Some "fluid");
    mkButton (mkRect 20 550 150 40) "Add Obstacle" do_add_obstacle (Some "fluid");
    mkButton (mkRect 20 600 150 40) "Add Floating Object" do_add_floating_object (Some "fluid");
    mkButton (mkRect 20 450 150 40) "Add Heat Source" do_add_heat_source (Some "thermal");
    mkButton (mkRect 20 500 150 40) "Add Metal Rod" do_add_thermal_conductor (Some "thermal");
    mkButton (mkRect 20 550 150 40) "Add Insulator" do_add_thermal_insulator (Some "thermal") ].

Inductive Setter : Type :=
| to_gravity | to_friction | to_voltage | to_resistance
| to_viscosity | to_flow_rate | to_temperature | to_conductivity.

Definition run_setter (a : Setter) (value : Q) (s : State) : State :=
  match a with
  | to_gravity => set_gravity value s
  | to_friction => set_friction value s
  | to_voltage => set_voltage value s
  | to_resistance => set_resistance value s
  | to_viscosity => set_viscosity value s
  | to_flow_rate => set_flow_rate value s
  | to_temperature => set_temperature value s
  | to_conductivity => set_conductivity value s
  end.

(** A slider; its mutable [value] is kept in [slider_values]. *)
Record Slider : Type := mkSlider {
  s_rect : Rect;
  s_text : string;
  min_value : Q;
  max_value : Q;
  s_action : Setter;
  s_category : string
}.

Definition create_sliders : list Slider :=
  [ mkSlider (mkRect 190 20 150 20) "Gravity" 0 2000 to_gravity "mechanics";
    mkSlider (mkRect 190 60 150 20) "Friction" 0 1 to_friction "mechanics";
    mkSlider (mkRect 190 20 150 20) "Voltage" 0 24 to_voltage "electricity";
    mkSlider (mkRect 190 60 150 20) "Resistance" 10 1000 to_resistance "electricity";
    mkSlider (mkRect 190 20 150 20) "Viscosity" (1 # 10) 10 to_viscosity "fluid";
    mkSlider (mkRect 190 60 150 20) "Flow Rate" 1 50 to_flow_rate "fluid";
    mkSlider (mkRect 190 20 150 20) "Temperature" (-20) 500 to_temperature "thermal";
    mkSlider (mkRect 190 60 150 20) "Conductivity" (1 # 10) 1 to_conductivity "thermal" ].

(** What the window system reports while one call of [handle_events]
    runs: the pointer position, the pressed buttons (left, middle, right)
    and the random draws. *)
Record Input : Type := mkInput {
  mouse_pos : Pixel;
  pressed : bool * bool * bool;
  rand : nat -> Z * Z
}.

Definition left_pressed (i : Input) : bool := fst (fst (pressed i)).
Definition right_pressed (i : Input) : bool := snd (pressed i).

(** The guard on a button in the [MOUSEBUTTONDOWN] branch. *)
Definition button_active (m : Mode) (b : Button) : bool :=
  match b_category b with
  | None => true
  | Some c => String.eqb c (mode_category m) || String.eqb c "material"
  end.

Definition button_hit (m : Mode) (pos : Pixel) (b : Button) : bool :=
  button_active m b && collidepoint (b_rect b) pos.

Definition slider_hit (m : Mode) (pos : Pixel) (sl : Slider) : bool :=
  String.eqb (s_category sl) (mode_category m) && collidepoint (s_rect sl) pos.

(** The first element satisfying [f], with its index. *)
Fixpoint find_indexed {A} (f : A -> bool) (l : list A) (i : nat)
  : option (nat * A) :=
  match l with
  | [] => None
  | x :: rest => if f x then Some (i, x) else find_indexed f rest (S i)
  end.

(** The value a slider takes for a pointer position, then the stored
    value is updated and the setter called. *)
Definition move_slider (k : nat) (sl : Slider) (pos : Pixel) (s : State)
  : result State :=
  ratio ← truediv (inject_Z (fst pos - rx (s_rect sl)))
            (inject_Z (rw (s_rect sl)));
  let value := min_value sl + ratio * (max_value sl - min_value sl) in
  let value := py_max (min_value sl) (py_min (max_value sl) value) in
  Ok (run_setter (s_action sl) value
        (mkState (mode s) (selected_material s) (mech s) (elec s) (fluid s)
           (thermal s) (<[k := value]> (slider_values s))
           (selected_button s))).

(** The per-mode dispatch at the end of the [MOUSEBUTTONDOWN] branch. *)
Definition dispatch_click (attrs : list string) (i : Input) (s : State)
  : result State :=
  match mode s with
  | MECHANICS =>
      handle_mechanics_click_of attrs (mouse_pos i) (right_pressed i) s
  | ELECTRICITY => Ok (handle_electricity_click (mouse_pos i) s)
  | FLUID => Ok (handle_fluid_click (mouse_pos i) (left_pressed i) (rand i) s)
  | THERMAL => Ok (handle_thermal_click (mouse_pos i) s)
  end.

Inductive Key : Type := K_ESCAPE | K_r | K_1 | K_2 | K_3 | K_4 | K_other.

Inductive Event : Type :=
| QUIT | MOUSEBUTTONDOWN | MOUSEBUTTONUP | MOUSEMOTION
| KEYDOWN (key : Key) | OTHER.

(** After an event the loop either goes on to the next event or the
    method returns at once. *)
Inductive Flow : Type :=
| Next (s : State)
| Return (s : State).

Definition handle_event (attrs : list string) (i : Input) (s : State)
    (ev : Event) : result Flow :=
  match ev with
  | QUIT => Raise SystemExit
  | MOUSEBUTTONDOWN =>
      match find_indexed (button_hit (mode s) (mouse_pos i)) create_buttons 0 with
      | Some (k, b) =>
          s' ← run_action (b_action b) s;
          Ok (Return (mkState (mode s') (selected_material s') (mech s')
                        (elec s') (fluid s') (thermal s')
                        (slider_values s') (Some k)))
      | None =>
          match find_indexed (slider_hit (mode s) (mouse_pos i))
                  create_sliders 0 with
          | Some (k, sl) =>
              s' ← move_slider k sl (mouse_pos i) s; Ok (Return s')
          | None => s' ← dispatch_click attrs i s; Ok (Next s')
          end
      end
  | MOUSEBUTTONUP =>
      match mode s with
      | MECHANICS =>
          let m := mech s in
          Ok (Next (with_mech
                      (mkMechanics (body_store m) (shape_store m) (space m)
                         (objects m) None false (force_direction m)
                         (force_start_pos m) (pendulum m) (spring m)) s))
      | ELECTRICITY =>
          let e := elec s in
          Ok (Next (with_elec
                      (mkElectricity (component_store e) (components e)
                         (wires e) None false (circuit_solved e)
                         (voltages e) (currents e)) s))
      | FLUID | THERMAL => Ok (Next s)
      end
  | MOUSEMOTION =>
      s1 ← match mode s with
           | MECHANICS =>
               handle_mechanics_motion (mouse_pos i) (left_pressed i) s
           | ELECTRICITY => Ok (handle_electricity_motion (mouse_pos i) s)
           | FLUID | THERMAL => Ok s
           end;
      match find_indexed
              (fun sl => String.eqb (s_category sl) (mode_category (mode s1))
                         && (left_pressed i
                             && collidepoint (s_rect sl) (mouse_pos i)))
              create_sliders 0 with
      | Some (k, sl) => s' ← move_slider k sl (mouse_pos i) s1; Ok (Return s')
      | None => Ok (Next s1)
      end
  | KEYDOWN K_ESCAPE => Raise SystemExit
  | KEYDOWN K_r => Ok (Next (set_mode (mode s) s))
  | KEYDOWN K_1 => Ok (Next (set_mode MECHANICS s))
  | KEYDOWN K_2 => Ok (Next (set_mode ELECTRICITY s))
  | KEYDOWN K_3 => Ok (Next (set_mode FLUID s))
  | KEYDOWN K_4 => Ok (Next (set_mode THERMAL s))
  | KEYDOWN K_other | OTHER => Ok (Next s)
  end.

(** [handle_events] over the events of [pygame.event.get()]. *)
Fixpoint handle_events_of (attrs : list string) (i : Input)
    (events : list Event) (s : State) : result State :=
  match events with
  | [] => Ok s
  | ev :: rest =>
      f ← handle_event attrs i s ev;
      match f with
      | Next s' => handle_events_of attrs i rest s'
      | Return s' => Ok s'
      end
  end.

Definition handle_events : Input -> list Event -> State -> result State :=
  handle_events_of PhysicsSandbox_attributes.

(** Whether a press at [pos] lands on an active button or slider, in
    which case the [MOUSEBUTTONDOWN] branch does not reach the per-mode
    handlers. *)
Definition hits_ui_control (s : State) (pos : Pixel) : bool :=
  existsb (button_hit (mode s) pos) create_buttons
  || existsb (slider_hit (mode s) pos) create_sliders.

(** The state after one press on "Add Circle" in a fresh sandbox. *)
Definition one_circle : State :=
  match add_circle init with
  | Ok s => s
  | Raise _ => init
  end.

End Sandbox.

Import Sandbox.

(* ===================================================================== *)
(** * The circuit solver *)
(* ===================================================================== *)

(** The source keeps [circuit_solved], [voltages] and [currents] but has no
    function that computes them; the solver is taken from the design
    document (section 4.2, [CircuitSolver.Solve]). *)
Module Circuit.

(** Modelled from the spec: the sum of the EMF of all batteries; no
    function of python-sandbox2.py computes it. *)
Definition total_emf (cs : list ElectricalComponent) : Q :=
  foldr Qplus 0
    (map c_value (filter (fun c => c_type c = BATTERY) cs)).

(** Modelled from the spec: the sum of the resistance of all resistor and
    bulb components; no function of python-sandbox2.py computes it. *)
Definition total_resistance (cs : list ElectricalComponent) : Q :=
  foldr Qplus 0
    (map c_value
       (filter (fun c => c_type c = RESISTOR \/ c_type c = BULB) cs)).

(** Modelled from the spec: whether some switch is off; the source has no
    such test. *)
Definition any_switch_off (cs : list ElectricalComponent) : bool :=
  existsb (fun c => bool_decide (c_type c = SWITCH) && negb (c_on c)) cs.

(** Modelled from the spec: the current of [Solve()], missing from
    python-sandbox2.py: zero if any switch is off, zero (a fault state) if
    the total resistance is zero, else total EMF / total resistance. *)
Definition circuit_current (cs : list ElectricalComponent) : result Q :=
  if any_switch_off cs then Ok 0
  else if eq_b (total_resistance cs) 0 then Ok 0
  else truediv (total_emf cs) (total_resistance cs).

(** Modelled from the spec: the result of [Solve()], missing from
    python-sandbox2.py: the circuit current, and for every resistor-like
    component (by its index) the same current and the voltage drop
    current * resistance. *)
Record Solution : Type := mkSolution {
  current : Q;
  sol_currents : gmap nat Q;
  sol_voltages : gmap nat Q
}.

(** Modelled from the spec: whether a component is resistor-like; the
    source has no such test. *)
Definition resistor_like (c : ElectricalComponent) : bool :=
  bool_decide (c_type c = RESISTOR) || bool_decide (c_type c = BULB).

(** Modelled from the spec: [CircuitSolver.Solve()], missing from
    python-sandbox2.py. *)
Definition Solve (cs : list ElectricalComponent) : result Solution :=
  i ← circuit_current cs;
  let indexed := imap (fun k c => (k, c)) cs in
  let loads := filter (fun kc => resistor_like (snd kc) = true) indexed in
  Ok (mkSolution i
        (list_to_map (map (fun kc => (fst kc, i)) loads))
        (list_to_map (map (fun kc => (fst kc, i * c_value (snd kc))) loads))).

End Circuit.

(* ===================================================================== *)
(** * Specification-level notions for the sandbox state *)
(* ===================================================================== *)

Module Frame.

(** The entity set of a mode is empty.  For the mechanics mode this
    covers the program's object list and the bodies and constraints of
    the space; the three boundary walls are shapes of the space, not
    objects. *)
Definition entities_empty (m : Mode) (s : State) : Prop :=
  match m with
  | MECHANICS =>
      objects (mech s) = [] /\ bodies (space (mech s)) = [] /\
      constraints (space (mech s)) = []
  | ELECTRICITY => components (elec s) = [] /\ wires (elec s) = []
  | FLUID => particles (fluid s) = [] /\ obstacles (fluid s) = []
  | THERMAL => heat_sources (thermal s) = []
  end.

(** Everything the sandbox stores for mode [m] is the same in [s] and
    [s']. *)
Definition same_mode_state (m : Mode) (s s' : State) : Prop :=
  match m with
  | MECHANICS => mech s' = mech s
  | ELECTRICITY => elec s' = elec s
  | FLUID => fluid s' = fluid s
  | THERMAL => thermal s' = thermal s
  end.

(** A grid of [WIDTH//10] columns of [HEIGHT//10] cells, every cell at
    temperature [t]. *)
Definition uniform_grid (t : Q) (g : list (list Q)) : Prop :=
  length g = 100%nat /\
  Forall (fun column => length column = 70%nat /\
                        Forall (fun cell => cell = t) column) g.

(** The body and shape added by [add_circle] or [add_box]: a new body of
    mass [m] at the spawn point and a new shape of geometry [g] attached
    to it, both added to the space, and a new entry of [objects] that
    refers to both. *)
Definition registers (s s' : State) (m : Q) (g : Geometry) : Prop :=
  let b := length (body_store (mech s)) in
  let sh := length (shape_store (mech s)) in
  exists body shape obj,
    body_store (mech s') = body_store (mech s) ++ [body] /\
    shape_store (mech s') = shape_store (mech s) ++ [shape] /\
    mass body == m /\ position body = spawn_point /\
    shape_body shape = Some b /\ geometry shape = g /\
    bodies (space (mech s')) = bodies (space (mech s)) ++ [b] /\
    shapes (space (mech s')) = shapes (space (mech s)) ++ [sh] /\
    objects (mech s') = objects (mech s) ++ [obj] /\
    obj_body obj = b /\ obj_shape obj = sh.

(** The footprint of a heat entity contains the pixel [p]: for a point
    source, the distance from [p] to its position is below its radius;
    for a conductor or insulator, [p] is inside its rectangle (left and
    top edges included, right and bottom edges excluded). *)
Definition covers (h : HeatEntity) (p : Pixel) : Prop :=
  match h with
  | PointSource position radius _ _ =>
      (0 < radius /\
       (fst p - fst position) ^ 2 + (snd p - snd position) ^ 2
       < radius ^ 2)%Z
  | RectElement rect _ _ _ =>
      (rx rect <= fst p < rx rect + rw rect /\
       ry rect <= snd p < ry rect + rh rect)%Z
  end.

(** [h'] has the fields of [h], the temperature apart. *)
Definition same_but_temperature (h h' : HeatEntity) : Prop :=
  match h, h' with
  | PointSource p r _ w, PointSource p' r' _ w' => p' = p /\ r' = r /\ w' = w
  | RectElement r m _ k, RectElement r' m' _ k' => r' = r /\ m' = m /\ k' = k
  | _, _ => False
  end.

End Frame.

(* ===================================================================== *)
(** * Specification-level notions for the hit tests *)
(* ===================================================================== *)

Module Polygon.

(** The edges of the closed polygon: vertex [i] to vertex [(i+1) mod n]. *)
Definition edges (vertices : list Point) : list (Point * Point) :=
  zip vertices (rotate 1 vertices).

(** The parity of the number of [true]s. *)
Definition parity (bs : list bool) : bool := foldr xorb false bs.

(** The condition under which an iteration of [point_in_polygon] on the
    edge [e] flips [inside], read off the nested tests of the source. *)
Definition flips (p : Point) (e : Point * Point) : bool :=
  let '(x, y) := p in
  let '((x1, y1), (x2, y2)) := e in
  lt_b (py_min y1 y2) y && le_b y (py_max y1 y2) && le_b x (py_max x1 x2)
  && le_b x ((y - y1) * (x2 - x1) / (y2 - y1) + x1).

(** The abscissa at which the line through [(x1, y1)] and [(x2, y2)]
    meets the horizontal line at height [y], as the source computes it. *)
Definition xint (x1 y1 x2 y2 y : Q) : Q :=
  (y - y1) * (x2 - x1) / (y2 - y1) + x1.

(** The vertex [v] is at the height of [p] and strictly to its right. *)
Definition right_at_level (p v : Point) : bool :=
  eq_b (snd v) (snd p) && lt_b (fst p) (fst v).

(** The reference even-odd crossing test (W. R. Franklin's PNPOLY), with
    horizontal edges skipped explicitly: the ray from [p] towards +x
    crosses the edge between [vi] and its predecessor [vj] when exactly
    one end lies above [p] and [p] is strictly to the left of the
    crossing. *)
Definition ray_crosses (p : Point) (e : Point * Point) : bool :=
  let '(x, y) := p in
  let '((xj, yj), (xi, yi)) := e in
  if eq_b yi yj then false
  else negb (eqb (lt_b y yi) (lt_b y yj))
       && lt_b x ((xj - xi) * (y - yi) / (yj - yi) + xi).

Definition reference_even_odd (p : Point) (vertices : list Point) : bool :=
  parity (map (ray_crosses p) (edges vertices)).

(** The signed area of the triangle [a b c], doubled: positive when [c]
    is to the left of the line from [a] to [b]. *)
Definition cross (a b c : Point) : Q :=
  (fst b - fst a) * (snd c - snd a) - (snd b - snd a) * (fst c - fst a).

(** [u] lies between [v] and [w] (in either order), ends included. *)
Definition between (v w u : Q) : bool :=
  (le_b v u && le_b u w) || (le_b w u && le_b u v).

(** [p] lies on the closed segment [e]. *)
Definition on_segment (p : Point) (e : Point * Point) : bool :=
  let '(a, b) := e in
  eq_b (cross a b p) 0
  && between (fst a) (fst b) (fst p) && between (snd a) (snd b) (snd p).

(** [p] lies on the boundary of the polygon. *)
Definition on_boundary (p : Point) (vertices : list Point) : bool :=
  existsb (on_segment p) (edges vertices).

(** A polygon is convex when all its vertices lie on the same side of
    (or on) the line through each of its edges. *)
Definition convex (vertices : list Point) : bool :=
  forallb (fun e => forallb (fun v => le_b 0 (cross (fst e) (snd e) v))
                      vertices) (edges vertices)
  || forallb (fun e => forallb (fun v => le_b (cross (fst e) (snd e) v) 0)
                         vertices) (edges vertices).

End Polygon.

Import Frame Polygon.

(* ===================================================================== *)
(** * Python's [int] and [float] *)
(* ===================================================================== *)

(** The numbers [point_in_polygon] receives when the program runs: the
    pointer position is a pair of [int]s and the vertices of a shape are
    pairs of [float]s.  An [int] is an integer of any size; a [float] is
    an IEEE 754 binary64 value, with the operations of the Standard
    Library's specification of binary floating point ([SpecFloat]):
    round to nearest, ties to even, with signed zeros, infinities and
    NaN. *)
Module PyNumber.

Definition prec : Z := 53.
Definition emax : Z := 1024.

Inductive number : Type :=
| PyInt (z : Z)
| PyFloat (f : spec_float).

(** [float(z)]: the nearest double; [OverflowError] when it would not be
    finite. *)
Definition float_of_int (z : Z) : result spec_float :=
  match binary_normalize prec emax z 0 false with
  | S754_infinity _ => Raise OverflowError
  | f => Ok f
  end.

(** The conversion applied to both operands when one of them is a
    [float]. *)
Definition as_float (a : number) : result spec_float :=
  match a with
  | PyInt z => float_of_int z
  | PyFloat f => Ok f
  end.

(** [a + b], [a - b] and [a * b]: exact on two [int]s, in binary64
    otherwise.  The operations on [float]s do not raise: they return an
    infinity or NaN. *)
Definition arith (int_op : Z -> Z -> Z)
    (float_op : spec_float -> spec_float -> spec_float) (a b : number)
  : result number :=
  match a, b with
  | PyInt x, PyInt y => Ok (PyInt (int_op x y))
  | _, _ => x ← as_float a; y ← as_float b; Ok (PyFloat (float_op x y))
  end.

Definition add : number -> number -> result number :=
  arith Z.add (SFadd prec emax).
Definition sub : number -> number -> result number :=
  arith Z.sub (SFsub prec emax).
Definition mul : number -> number -> result number :=
  arith Z.mul (SFmul prec emax).

Definition is_zero (f : spec_float) : bool :=
  match f with
  | S754_zero _ => true
  | _ => false
  end.

(** An integer as a mantissa of any length with exponent 0, to be the
    operand of a correctly rounded division. *)
Definition unrounded (z : Z) : spec_float :=
  match z with
  | Z0 => S754_zero false
  | Zpos m => S754_finite false m 0
  | Zneg m => S754_finite true m 0
  end.

(** [a / b].  On two [int]s the exact quotient is rounded once, and the
    division raises [OverflowError] when the result is too large for a
    [float].  Otherwise both operands are converted and the division is
    that of binary64.  A zero divisor raises [ZeroDivisionError]; for a
    [float] divisor that is [0.0] or [-0.0]. *)
Definition truediv (a b : number) : result number :=
  match a, b with
  | PyInt x, PyInt y =>
      if (y =? 0)%Z then Raise ZeroDivisionError
      else match SFdiv prec emax (unrounded x) (unrounded y) with
           | S754_infinity _ => Raise OverflowError
           | f => Ok (PyFloat f)
           end
  | _, _ =>
      x ← as_float a; y ← as_float b;
      if is_zero y then Raise ZeroDivisionError
      else Ok (PyFloat (SFdiv prec emax x y))
  end.

(** Comparison of an [int] with a [float] is exact: the [int] is not
    rounded first. *)
Definition compare_int_float (z : Z) (f : spec_float) : option comparison :=
  match f with
  | S754_nan => None
  | S754_infinity s => Some (if s then Gt else Lt)
  | S754_zero _ => Some (z ?= 0)%Z
  | S754_finite s m e =>
      let v := cond_Zopp s (Zpos m) in
      Some (match e with
            | Zneg k => (z * 2 ^ Zpos k ?= v)%Z
            | _ => (z ?= v * 2 ^ e)%Z
            end)
  end.

(** The order of two numbers; [None] when one of them is NaN. *)
Definition compare (a b : number) : option comparison :=
  match a, b with
  | PyInt x, PyInt y => Some (x ?= y)%Z
  | PyFloat x, PyFloat y => SFcompare x y
  | PyInt x, PyFloat y => compare_int_float x y
  | PyFloat x, PyInt y => CompOpp <$> compare_int_float y x
  end.

(** [a < b], [a <= b], [a > b], [a == b], [a != b]. *)
Definition lt (a b : number) : bool :=
  match compare a b with Some Lt => true | _ => false end.
Definition le (a b : number) : bool :=
  match compare a b with Some (Lt | Eq) => true | _ => false end.
Definition gt (a b : number) : bool :=
  match compare a b with Some Gt => true | _ => false end.
Definition eq (a b : number) : bool :=
  match compare a b with Some Eq => true | _ => false end.
Definition ne (a b : number) : bool := negb (eq a b).

(** [min(a, b)] and [max(a, b)]: the first argument is kept unless the
    second is strictly smaller (resp. strictly larger). *)
Definition min (a b : number) : number := if lt b a then b else a.
Definition max (a b : number) : number := if gt b a then b else a.

(** A [float] in the canonical form of a binary64 value. *)
Definition is_double (a : number) : bool :=
  match a with
  | PyInt _ => false
  | PyFloat f => valid_binary prec emax f
  end.

Definition is_int (a : number) : bool :=
  match a with
  | PyInt _ => true
  | PyFloat _ => false
  end.

(** Both numbers are [int]s, or both are [float]s. *)
Definition same_kind (a b : number) : bool :=
  (is_int a && is_int b) || (is_double a && is_double b).

(** A [float], or an [int] that is below [2^1023] in magnitude and so
    converts to a [float]. *)
Definition converts (a : number) : bool :=
  match a with
  | PyInt z => (Z.abs z <? 2 ^ 1023)%Z
  | PyFloat _ => true
  end.

(** The double nearest to the fraction [n / d], as a decimal literal
    such as [0.1] denotes it ([n = 1], [d = 10]). *)
Definition decimal (n d : Z) : number :=
  PyFloat (SFdiv prec emax (unrounded n) (unrounded d)).

(** The exact value of a finite number. *)
Definition exact (a : number) : Q :=
  match a with
  | PyInt z => inject_Z z
  | PyFloat (S754_finite s m e) =>
      inject_Z (cond_Zopp s (Zpos m)) * Qpower 2 e
  | PyFloat _ => 0
  end.

End PyNumber.

(** [point_in_polygon] on Python's numbers. *)
Module Numeric.

Import PyNumber.

Definition point : Type := number * number.

Record pip_locals : Type := PipLocals {
  inside : bool;
  xinters : option number
}.

(** One iteration of [for i in range(n)] in [point_in_polygon]: the
    operands of [xinters] are evaluated from left to right, and each
    operation can raise. *)
Definition pip_iteration (pt : point) (vertices : list point) (n : nat)
    (loc : pip_locals) (i : nat) : result pip_locals :=
  let '(x, y) := pt in
  '(x1, y1) ← index vertices i;
  j ← mod_nat (i + 1) n;
  '(x2, y2) ← index vertices j;
  if gt y (min y1 y2) then
    if le y (max y1 y2) then
      if le x (max x1 x2) then
        loc1 ← (if ne y1 y2 then
                   a ← sub y y1;
                   b ← sub x2 x1;
                   c ← mul a b;
                   d ← sub y2 y1;
                   q ← truediv c d;
                   v ← add q x1;
                   Ok (PipLocals (inside loc) (Some v))
                 else Ok loc);
        cond ← (if eq y1 y2 then Ok true
                 else xi ← read_local "xinters" (xinters loc1);
                      Ok (le x xi));
        if cond : bool then Ok (PipLocals (negb (inside loc1)) (xinters loc1))
        else Ok loc1
      else Ok loc
    else Ok loc
  else Ok loc.

(** [point_in_polygon(self, point, vertices)]; [self] is not used by the
    body. *)
Definition point_in_polygon (pt : point) (vertices : list point)
  : result bool :=
  let n := length vertices in
  loc ← for_each (pip_iteration pt vertices n) (seq 0 n)
           (PipLocals false None);
  Ok (inside loc).

End Numeric.

(** The even-odd crossing count, on Python's numbers. *)
Module EvenOdd.

Import PyNumber Numeric.

(** The edges of the closed polygon: vertex [i] to vertex [(i+1) mod n]. *)
Definition edges (vertices : list point) : list (point * point) :=
  zip vertices (rotate 1 vertices).

(** The abscissa at which the edge meets the horizontal line through the
    point, as the source computes it: [(y - y1) * (x2 - x1) / (y2 - y1)
    + x1], each operation rounded. *)
Definition xinters_of (pt : point) (e : point * point) : result number :=
  let '(x, y) := pt in
  let '((x1, y1), (x2, y2)) := e in
  a ← sub y y1;
  b ← sub x2 x1;
  c ← mul a b;
  d ← sub y2 y1;
  q ← truediv c d;
  add q x1.

(** Modelled from the spec: the reference ray-casting implementation the
    test is compared with; the source does not contain it.  It is the
    even-odd crossing algorithm over the ordered vertices.  An edge with
    [y1 == y2] never crosses and is never divided by.  Another edge
    crosses the ray from the point towards +x when the point is within
    the height of the edge, its upper end included and its lower end
    excluded, not to the right of both ends, and not to the right of
    the crossing. *)
Definition crosses (pt : point) (e : point * point) : result bool :=
  let '(x, y) := pt in
  let '((x1, y1), (x2, y2)) := e in
  if eq y1 y2 then Ok false
  else if gt y (min y1 y2) && le y (max y1 y2) && le x (max x1 x2)
       then xi ← xinters_of pt e; Ok (le x xi)
       else Ok false.

(** The parity of the number of edges that cross; the first exception of
    a crossing test is that of the count. *)
Definition crossing_count (pt : point) (vertices : list point)
  : result bool :=
  bs ← mapM (crosses pt) (edges vertices);
  Ok (parity bs).

(** A vertex as pymunk supplies it: both coordinates are [float]s. *)
Definition double_point (v : point) : bool :=
  is_double (fst v) && is_double (snd v).

(** A point whose coordinates are [float]s or [int]s that convert. *)
Definition converts_point (pt : point) : bool :=
  converts (fst pt) && converts (snd pt).

(** The exact position of a point with finite coordinates. *)
Definition exact_point (pt : point) : Point := (exact (fst pt), exact (snd pt)).

End EvenOdd.

(* ===================================================================== *)
(** * Notions for the reachable states and the layout of the controls *)
(* ===================================================================== *)

Module Reach.

(** The states that calls of [handle_events] lead to: the state built by
    [__init__], and every state a call of [handle_events] returns from
    one of them, whatever the pointer, the buttons held, the random draws
    and the pending events are.  The file has no other method that is
    run between two calls: there is no physics step and no update. *)
Inductive reachable : State -> Prop :=
| reach_init : reachable init
| reach_events (i : Input) (events : list Event) (s s' : State) :
    reachable s -> handle_events i events s = Ok s' -> reachable s'.

(** A body that has not moved since it was created: it is where one of the
    [add_*] methods puts it, with no velocity. *)
Definition at_rest (b : Body) : Prop :=
  velocity b = (0, 0) /\
  position b ∈ [spawn_point; to_point (WIDTH / 2, 100)%Z;
                to_point (WIDTH / 2, 250)%Z].

(** What holds of the mechanics attributes in every reachable state. *)
Definition mech_ok (m : Mechanics) : Prop :=
  selected_object m = None /\
  (applying_force m = true -> is_Some (force_start_pos m)) /\
  Forall (fun obj => obj_body obj ∈ bodies (space m) /\
                     obj_shape obj ∈ shapes (space m)) (objects m) /\
  Forall (fun b => (b < length (body_store m))%nat) (bodies (space m)) /\
  Forall (fun sh => (sh < length (shape_store m))%nat) (shapes (space m)) /\
  NoDup (map obj_body (objects m)) /\
  NoDup (map obj_shape (objects m)) /\
  Forall at_rest (body_store m).

(** What holds of the electricity attributes in every reachable state. *)
Definition elec_ok (e : Electricity) : Prop :=
  Forall (fun c => (c < length (component_store e))%nat) (components e) /\
  NoDup (components e) /\
  (forall c, selected_component e = Some c ->
             (c < length (component_store e))%nat) /\
  wires e = [] /\ circuit_solved e = false /\
  voltages e = ∅ /\ currents e = ∅.

(** What holds of the fluid attributes in every reachable state. *)
Definition fluid_ok (f : Fluid) : Prop :=
  selected_fluid f ∈ ["Water"; "Oil"] /\
  Forall (fun p => is_Some (p_color p) /\ is_Some (p_density p) /\
                   p_velocity p = (0, 0) /\ p_temperature p = 20)
    (particles f).

(** A heat entity as the three [add_*] methods of the thermal mode place
    it, its temperature and conductivity apart. *)
Definition as_placed (h : HeatEntity) : Prop :=
  match h with
  | PointSource position radius _ power =>
      position = screen_centre /\ radius = 30%Z /\ power = 50
  | RectElement rect material _ _ =>
      rect = mkRect (WIDTH / 2 - 100) (HEIGHT / 2 - 10) 200 20 /\
      material ∈ ["Metal"; "Wood"]
  end.

(** What holds of the thermal attributes in every reachable state. *)
Definition thermal_ok (t : Thermal) : Prop :=
  temperature_map t = room_temperature_grid /\
  Forall as_placed (heat_sources t).

(** The stored slider values are within the range of their slider. *)
Definition sliders_in_range (values : list Q) : Prop :=
  Forall2 (fun sl v => min_value sl <= v <= max_value sl)
    create_sliders values.

Definition invariant (s : State) : Prop :=
  is_Some (MATERIALS !! selected_material s) /\
  sliders_in_range (slider_values s) /\
  mech_ok (mech s) /\ elec_ok (elec s) /\ fluid_ok (fluid s) /\
  thermal_ok (thermal s).

(** The actions bound to buttons only name materials of the table and the
    two fluids. *)
Definition action_ok (a : Action) : Prop :=
  match a with
  | do_set_material material => is_Some (MATERIALS !! material)
  | do_set_fluid f => f ∈ ["Water"; "Oil"]
  | _ => True
  end.

(** The two ways in which [handle_events] can fail. *)
Definition allowed_error (e : PyError) : Prop :=
  e = SystemExit \/ e = AttributeError "point_in_shape".

(** The state carried by the outcome of one event. *)
Definition flow_state (f : Flow) : State :=
  match f with
  | Next s => s
  | Return s => s
  end.

End Reach.

Module Layout.

(** Two rectangles with no pixel in common, seen from their edges. *)
Definition rects_apart (r1 r2 : Rect) : bool :=
  (rx r1 + rw r1 <=? rx r2)%Z || (rx r2 + rw r2 <=? rx r1)%Z ||
  (ry r1 + rh r1 <=? ry r2)%Z || (ry r2 + rh r2 <=? ry r1)%Z.

(** In mode [m], any two distinct entries of [l] that are both active have
    rectangles apart. *)
Definition pairwise_apart {A} (active : A -> bool) (rect : A -> Rect)
    (l : list A) : bool :=
  forallb (fun jb =>
    forallb (fun kb =>
      (fst jb =? fst kb)%nat
      || negb (active (snd jb) && active (snd kb))
      || rects_apart (rect (snd jb)) (rect (snd kb)))
      (imap pair l)) (imap pair l).

Definition all_modes : list Mode := [MECHANICS; ELECTRICITY; FLUID; THERMAL].

(** [s] with [selected_button] set to the button of index [k]. *)
Definition with_selected_button (k : nat) (s : State) : State :=
  mkState (mode s) (selected_material s) (mech s) (elec s) (fluid s)
    (thermal s) (slider_values s) (Some k).

(** The value a slider takes when the pointer is at abscissa [px]: the
    expressions assigned to [ratio] and [value] in [handle_events], for a
    slider whose width is not zero. *)
Definition slider_value (sl : Slider) (px : Z) : Q :=
  let ratio := inject_Z (px - rx (s_rect sl)) / inject_Z (rw (s_rect sl)) in
  py_max (min_value sl)
    (py_min (max_value sl)
       (min_value sl + ratio * (max_value sl - min_value sl))).

End Layout.

Import Reach Layout.

(* ===================================================================== *)
(** * The definitions at work *)
(* ===================================================================== *)

Section Examples.

(** A fresh sandbox holds the three walls and nothing else. *)
Example init_has_only_walls :
  shapes (space (mech init)) = [0; 1; 2]%nat /\
  bodies (space (mech init)) = [] /\ objects (mech init) = [].
Proof. repeat split; reflexivity. Qed.

(** A wooden circle weighs [math.pi * 20 * 20 * 0.5]. *)
Example wooden_circle_mass :
  mass (body_store (mech one_circle) !!! 0%nat) == math_pi * 200.
Proof. vm_compute. reflexivity. Qed.

(** The square with corners (0,0) and (2,2): inside, outside, and a point
    level with the bottom edge, which is horizontal. *)
Example square_hits :
  Geometry.point_in_polygon (1, 1) [(0, 0); (2, 0); (2, 2); (0, 2)] = Ok true /\
  Geometry.point_in_polygon (3, 1) [(0, 0); (2, 0); (2, 2); (0, 2)] = Ok false /\
  Geometry.point_in_polygon (1, 0) [(0, 0); (2, 0); (2, 2); (0, 2)] = Ok false.
Proof. repeat split; reflexivity. Qed.

(** A click on a heat source raises it from 200 to 210; the slider then
    overrides it. *)
Example heat_then_set :
  map entity_temperature
    (heat_sources (thermal (handle_thermal_click (500, 350)%Z
                              (add_heat_source init)))) = [200 + 10] /\
  map entity_temperature
    (heat_sources (thermal (set_temperature 75
                              (handle_thermal_click (500, 350)%Z
                                 (add_heat_source init))))) = [75].
Proof. split; reflexivity. Qed.

(** A 9 V battery on a 100 ohm resistor: 0.09 A, and 9 V across the
    resistor (the component of index 1). *)
Example battery_and_resistor :
  exists sol v,
    Circuit.Solve [ElectricalComponent_init BATTERY screen_centre;
                   ElectricalComponent_init RESISTOR screen_centre] = Ok sol /\
    Circuit.current sol == 9 # 100 /\
    Circuit.sol_voltages sol !! 1%nat = Some v /\ v == 9.
Proof.
  eexists _, _. split; [reflexivity|]. split; [reflexivity|].
  split; [vm_compute; reflexivity|]. reflexivity.
Qed.

End Examples.

(* ===================================================================== *)
(** * Facts about the run-time fragment *)
(* ===================================================================== *)

Section Comparisons.

Lemma lt_b_spec a b : reflect (a < b) (lt_b a b).
Proof.
  unfold lt_b. destruct (Qle_bool b a) eqn:E; constructor.
  - apply Qle_bool_iff in E. lra.
  - apply Qnot_le_lt. intros H. apply Qle_bool_iff in H. congruence.
Qed.

Lemma le_b_spec a b : reflect (a <= b) (le_b a b).
Proof.
  unfold le_b. destruct (Qle_bool a b) eqn:E; constructor.
  - by apply Qle_bool_iff.
  - intros H. apply Qle_bool_iff in H. congruence.
Qed.

Lemma eq_b_spec a b : reflect (a == b) (eq_b a b).
Proof.
  unfold eq_b. destruct (Qeq_bool a b) eqn:E; constructor.
  - by apply Qeq_bool_iff.
  - intros H. apply Qeq_bool_iff in H. congruence.
Qed.

Lemma lt_b_true a b : a < b -> lt_b a b = true.
Proof. intros. by destruct (lt_b_spec a b). Qed.

Lemma lt_b_false a b : b <= a -> lt_b a b = false.
Proof. intros. destruct (lt_b_spec a b); [lra|done]. Qed.

Lemma le_b_true a b : a <= b -> le_b a b = true.
Proof. intros. by destruct (le_b_spec a b). Qed.

Lemma le_b_false a b : b < a -> le_b a b = false.
Proof. intros. destruct (le_b_spec a b); [lra|done]. Qed.

Lemma eq_b_true a b : a == b -> eq_b a b = true.
Proof. intros. by destruct (eq_b_spec a b). Qed.

Lemma eq_b_false a b : ~ a == b -> eq_b a b = false.
Proof. intros. by destruct (eq_b_spec a b). Qed.

End Comparisons.

(** Rewrite every comparison that [tac] can decide from the context. *)
Ltac decide_cmp tac :=
  repeat match goal with
  | |- context [lt_b ?a ?b] =>
      first [ rewrite (lt_b_true a b) by tac | rewrite (lt_b_false a b) by tac ]
  | |- context [le_b ?a ?b] =>
      first [ rewrite (le_b_true a b) by tac | rewrite (le_b_false a b) by tac ]
  | |- context [eq_b ?a ?b] =>
      first [ rewrite (eq_b_true a b) by tac | rewrite (eq_b_false a b) by tac ]
  end.

Ltac settle tac :=
  decide_cmp tac; cbn;
  rewrite ?andb_false_r, ?andb_true_r, ?orb_true_r, ?orb_false_r; cbn;
  try reflexivity; try discriminate; try (exfalso; tac).

(** Decide what can be decided, then split on what is left. *)
Ltac crush tac :=
  settle tac;
  repeat match goal with
  | |- context [lt_b ?a ?b] => destruct (lt_b_spec a b); settle tac
  | |- context [le_b ?a ?b] => destruct (le_b_spec a b); settle tac
  | |- context [eq_b ?a ?b] => destruct (eq_b_spec a b); settle tac
  end.

Ltac arith := first [lra | nra].

Ltac split_on a b := destruct (Q_dec a b) as [[?|?]|?].

(* ===================================================================== *)
(** * [point_in_polygon]: the loop *)
(* ===================================================================== *)

Section Loop.

Import Geometry.

(** The two range tests on [y] can only both succeed on an edge that is
    not horizontal. *)
Lemma in_y_range_not_level y y1 y2 :
  lt_b (py_min y1 y2) y = true -> le_b y (py_max y1 y2) = true ->
  eq_b y1 y2 = false.
Proof.
  unfold py_min, py_max. intros H1 H2.
  destruct (eq_b_spec y1 y2) as [E|]; [|done].
  revert H1 H2. crush lra.
Qed.

Lemma truediv_ok a b : eq_b b 0 = false -> truediv a b = Ok (a / b).
Proof. unfold truediv. by intros ->. Qed.

(** One iteration on the edge from [a] to [b] succeeds, and flips
    [inside] exactly when [flips] says so. *)
Lemma pip_iteration_ok p vertices n loc i a b :
  vertices !! i = Some a ->
  (0 < n)%nat ->
  vertices !! ((i + 1) mod n)%nat = Some b ->
  exists xi,
    pip_iteration p vertices n loc i
    = Ok (PipLocals (xorb (inside loc) (flips p (a, b))) xi).
Proof.
  intros Ha Hn Hb. destruct p as [x y], a as [x1 y1], b as [x2 y2].
  unfold pip_iteration, index, mod_nat. rewrite Ha.
  destruct n as [|n']; [lia|]. cbn [mbind result_bind bind].
  rewrite Hb. cbn [mbind result_bind bind]. unfold flips.
  destruct (lt_b (py_min y1 y2) y) eqn:E1; cbn [andb];
    [|rewrite xorb_false_r; destruct loc; eauto].
  destruct (le_b y (py_max y1 y2)) eqn:E2; cbn [andb];
    [|rewrite xorb_false_r; destruct loc; eauto].
  destruct (le_b x (py_max x1 x2)) eqn:E3; cbn [andb];
    [|rewrite xorb_false_r; destruct loc; eauto].
  pose proof (in_y_range_not_level _ _ _ E1 E2) as E4. rewrite E4.
  cbn [negb]. rewrite truediv_ok.
  2:{ apply eq_b_false. destruct (eq_b_spec y1 y2); [done|lra]. }
  cbn [mbind result_bind bind read_local xinters inside].
  destruct (le_b x (_ + x1)); cbn.
  - rewrite xorb_true_r. eauto.
  - rewrite xorb_false_r. eauto.
Qed.

Lemma rotate_nat_add_1 i n :
  (i < n)%nat -> rotate_nat_add 1 i n = ((i + 1) mod n)%nat.
Proof.
  intros H. unfold rotate_nat_add.
  rewrite <- (Nat2Z.id ((i + 1) mod n)). f_equal.
  rewrite Nat2Z.inj_mod. f_equal. lia.
Qed.

Lemma edges_lookup vertices i a b :
  edges vertices !! i = Some (a, b) ->
  vertices !! i = Some a /\
  vertices !! ((i + 1) mod length vertices)%nat = Some b /\
  (0 < length vertices)%nat.
Proof.
  unfold edges, zip. intros H.
  apply lookup_zip_with_Some in H as (a' & b' & [= <- <-] & Ha & Hb).
  apply lookup_rotate_r_Some in Hb as [Hb Hlt].
  rewrite rotate_nat_add_1 in Hb by done.
  split; [done|]. split; [done|lia].
Qed.

Lemma length_edges vertices : length (edges vertices) = length vertices.
Proof.
  unfold edges. rewrite length_zip_with, length_rotate. lia.
Qed.

(** The loop from index [k] on, over the remaining edges [es]. *)
Lemma pip_loop_from p vertices es : forall k loc,
  drop k (edges vertices) = es ->
  exists xi,
    for_each (pip_iteration p vertices (length vertices))
      (seq k (length es)) loc
    = Ok (PipLocals (xorb (inside loc) (parity (map (flips p) es))) xi).
Proof.
  induction es as [|[a b] es IH]; intros k loc Hdrop.
  - cbn. rewrite xorb_false_r. destruct loc. eauto.
  - assert (edges vertices !! k = Some (a, b)) as Hk.
    { pose proof (lookup_drop (edges vertices) k 0) as L.
      rewrite Hdrop, Nat.add_0_r in L. by rewrite <- L. }
    assert (drop (S k) (edges vertices) = es) as Hrest.
    { replace (S k) with (k + 1)%nat by lia.
      by rewrite <- drop_drop, Hdrop. }
    apply edges_lookup in Hk as (Ha & Hb & Hn).
    destruct (pip_iteration_ok p vertices _ loc k a b Ha Hn Hb) as [xi1 E1].
    destruct (IH (S k) (PipLocals (xorb (inside loc) (flips p (a, b))) xi1)
                Hrest) as [xi E].
    exists xi. cbn [length seq for_each]. rewrite E1.
    cbn [mbind result_bind bind]. rewrite E. cbn [inside map parity foldr].
    by rewrite xorb_assoc.
Qed.

(** [point_in_polygon] returns the parity of the edges on which an
    iteration flips [inside]. *)
Lemma point_in_polygon_parity p vertices :
  point_in_polygon p vertices
  = Ok (parity (map (flips p) (edges vertices))).
Proof.
  unfold point_in_polygon.
  destruct (pip_loop_from p vertices (edges vertices) 0
              (PipLocals false None) eq_refl) as [xi E].
  rewrite length_edges in E. rewrite E. reflexivity.
Qed.

End Loop.

(* ===================================================================== *)
(** * [point_in_polygon] against the reference crossing test *)
(* ===================================================================== *)

Section Crossing.

(** The crossing abscissa lies on the line through the edge. *)
Lemma xint_line x1 y1 x2 y2 y :
  ~ y1 == y2 ->
  (xint x1 y1 x2 y2 y - x1) * (y2 - y1) == (y - y1) * (x2 - x1).
Proof. intros H. unfold xint. field. lra. Qed.

(** Computing it from the other end of the edge gives the same point. *)
Lemma xint_sym x1 y1 x2 y2 y :
  ~ y1 == y2 ->
  (x1 - x2) * (y - y2) / (y1 - y2) + x2 == xint x1 y1 x2 y2 y.
Proof. intros H. unfold xint. field. split; lra. Qed.

Lemma xint_start x1 y1 x2 y2 y :
  ~ y1 == y2 -> y == y1 -> xint x1 y1 x2 y2 y == x1.
Proof. intros H E. unfold xint. rewrite E. field. lra. Qed.

Lemma xint_end x1 y1 x2 y2 y :
  ~ y1 == y2 -> y == y2 -> xint x1 y1 x2 y2 y == x2.
Proof. intros H E. unfold xint. rewrite E. field. lra. Qed.

(** Within the vertical extent of the edge, the crossing lies within its
    horizontal extent. *)
Lemma xint_within x1 y1 x2 y2 y :
  ~ y1 == y2 ->
  (y1 <= y <= y2 \/ y2 <= y <= y1) ->
  (x1 <= xint x1 y1 x2 y2 y <= x2) \/ (x2 <= xint x1 y1 x2 y2 y <= x1).
Proof.
  intros H Hy.
  pose proof (xint_line x1 y1 x2 y2 y H) as L.
  set (xi := xint x1 y1 x2 y2 y) in *. clearbody xi.
  destruct (Qlt_le_dec x2 x1), (Qlt_le_dec y1 y2), Hy as [[? ?]|[? ?]];
    try lra; ((right; split; nra) || (left; split; nra)).
Qed.

(** On an edge that is not horizontal and does not pass through [p], the
    source and the reference differ exactly when one end of the edge is
    at the height of [p] and to its right. *)
Lemma flips_vs_ray_slanted x y x1 y1 x2 y2 :
  ~ y1 == y2 ->
  on_segment (x, y) ((x1, y1), (x2, y2)) = false ->
  xorb (flips (x, y) ((x1, y1), (x2, y2)))
       (ray_crosses (x, y) ((x1, y1), (x2, y2)))
  = xorb (right_at_level (x, y) (x1, y1)) (right_at_level (x, y) (x2, y2)).
Proof.
  intros Hne.
  unfold on_segment, flips, ray_crosses, right_at_level, between, cross,
    py_min, py_max; cbn [fst snd].
  pose proof (xint_line x1 y1 x2 y2 y Hne) as L.
  pose proof (xint_sym x1 y1 x2 y2 y Hne) as S.
  pose proof (xint_start x1 y1 x2 y2 y Hne) as S1.
  pose proof (xint_end x1 y1 x2 y2 y Hne) as S2.
  pose proof (xint_within x1 y1 x2 y2 y Hne) as B.
  unfold xint in *.
  set (xi := (y - y1) * (x2 - x1) / (y2 - y1) + x1) in *.
  set (xi' := (x1 - x2) * (y - y2) / (y1 - y2) + x2) in *.
  clearbody xi xi'.
  intros Hseg.
  split_on y1 y2; [| |lra];
    (split_on y y1; [| |specialize (S1 ltac:(assumption))]);
    (split_on y y2; [| |specialize (S2 ltac:(assumption))]);
    try lra.
  all: try (destruct (B ltac:(lra)) as [[? ?]|[? ?]]).
  all: crush lra.
  all: exfalso; revert Hseg; crush arith.
Qed.

(** Neither test counts a horizontal edge; if [p] is not on it, its two
    ends are on the same side of [p]. *)
Lemma flips_vs_ray_level x y x1 y1 x2 y2 :
  y1 == y2 ->
  on_segment (x, y) ((x1, y1), (x2, y2)) = false ->
  xorb (flips (x, y) ((x1, y1), (x2, y2)))
       (ray_crosses (x, y) ((x1, y1), (x2, y2)))
  = xorb (right_at_level (x, y) (x1, y1)) (right_at_level (x, y) (x2, y2)).
Proof.
  intros Heq.
  unfold on_segment, flips, ray_crosses, right_at_level, between, cross,
    py_min, py_max; cbn [fst snd].
  generalize ((y - y1) * (x2 - x1) / (y2 - y1) + x1).
  generalize ((x1 - x2) * (y - y2) / (y1 - y2) + x2).
  intros xi' xi Hseg.
  split_on y y1; crush lra.
  all: exfalso; revert Hseg; crush arith.
Qed.

Lemma flips_vs_ray p e :
  on_segment p e = false ->
  xorb (flips p e) (ray_crosses p e)
  = xorb (right_at_level p (fst e)) (right_at_level p (snd e)).
Proof.
  destruct p as [x y], e as [[x1 y1] [x2 y2]]. cbn [fst snd].
  intros H. destruct (Qeq_dec y1 y2).
  - apply flips_vs_ray_level; assumption.
  - apply flips_vs_ray_slanted; assumption.
Qed.

(** ** Parity *)

Lemma parity_app bs cs : parity (bs ++ cs) = xorb (parity bs) (parity cs).
Proof.
  unfold parity. induction bs as [|b bs IH]; cbn.
  - by destruct (foldr xorb false cs).
  - by rewrite IH, xorb_assoc.
Qed.

Lemma parity_rotate {A} (f : A -> bool) n l :
  parity (map f (rotate n l)) = parity (map f l).
Proof.
  unfold rotate. rewrite map_app, parity_app, xorb_comm, <- parity_app,
    <- map_app. by rewrite take_drop.
Qed.

Lemma parity_zip_xor {A} (f g : A -> bool) : forall l k,
  length l = length k ->
  parity (map (fun e => xorb (f (fst e)) (g (snd e))) (zip l k))
  = xorb (parity (map f l)) (parity (map g k)).
Proof.
  unfold parity.
  induction l as [|a l IH]; intros [|b k] Hlen; try done.
  cbn. rewrite IH by (cbn in Hlen; lia).
  destruct (f a), (g b), (foldr xorb false (map f l)),
    (foldr xorb false (map g k)); done.
Qed.

Lemma parity_map_xor {A} (f g : A -> bool) l :
  parity (map (fun e => xorb (f e) (g e)) l)
  = xorb (parity (map f l)) (parity (map g l)).
Proof.
  unfold parity. induction l as [|a l IH]; [done|].
  cbn. rewrite IH.
  destruct (f a), (g a), (foldr xorb false (map f l)),
    (foldr xorb false (map g l)); done.
Qed.

(** Around the closed polygon every vertex is the start of one edge and
    the end of one edge, so the end-point terms cancel. *)
Lemma parity_closed (h : Point -> bool) vertices :
  parity (map (fun e => xorb (h (fst e)) (h (snd e))) (edges vertices))
  = false.
Proof.
  unfold edges. rewrite parity_zip_xor by (by rewrite length_rotate).
  rewrite parity_rotate. apply xorb_nilpotent.
Qed.

Lemma on_boundary_false p vertices :
  on_boundary p vertices = false ->
  Forall (fun e => on_segment p e = false) (edges vertices).
Proof.
  unfold on_boundary. intros H. apply Forall_forall. intros e He.
  destruct (on_segment p e) eqn:E; [|done].
  assert (existsb (on_segment p) (edges vertices) = true) as C.
  { apply existsb_exists. exists e. split; [|done].
    by apply list_elem_of_In. }
  congruence.
Qed.

(** Off the boundary the two crossing counts have the same parity. *)
Lemma crossings_agree p vertices :
  on_boundary p vertices = false ->
  parity (map (flips p) (edges vertices))
  = parity (map (ray_crosses p) (edges vertices)).
Proof.
  intros H%on_boundary_false.
  apply xorb_eq. rewrite <- parity_map_xor.
  rewrite <- (parity_closed (right_at_level p) vertices).
  f_equal. apply map_ext_Forall.
  eapply Forall_impl; [exact H|]. intros e He. by apply flips_vs_ray.
Qed.

End Crossing.

(* ===================================================================== *)
(** * Results on [point_in_polygon] *)
(* ===================================================================== *)

(** A horizontal edge is never counted, whatever was computed for the
    edges before it. *)
Lemma flips_level_edge p x1 y1 x2 y2 :
  y1 == y2 -> flips p ((x1, y1), (x2, y2)) = false.
Proof.
  intros E. destruct p as [x y]. unfold flips, py_min, py_max.
  generalize ((y - y1) * (x2 - x1) / (y2 - y1) + x1). intros xi.
  crush lra.
Qed.

(** An edge from a vertex to itself is never counted. *)
Lemma flips_loop_edge p v : flips p (v, v) = false.
Proof.
  destruct p as [x y], v as [x1 y1]. unfold flips, py_min, py_max.
  generalize ((y - y1) * (x1 - x1) / (y1 - y1) + x1). intros xi.
  crush lra.
Qed.

(** C6.  For a polygon with no vertex or a single vertex, and every query
    point, [point_in_polygon] returns [False] ("outside") and raises
    nothing. *)
Theorem point_in_polygon_degenerate (p : Point) (vertices : list Point) :
  (length vertices <= 1)%nat ->
  Geometry.point_in_polygon p vertices = Ok false.
Proof.
  intros Hlen. rewrite point_in_polygon_parity.
  destruct vertices as [|v [|w rest]]; [reflexivity| |cbn in Hlen; lia].
  cbn. by rewrite flips_loop_edge.
Qed.

Lemma point_in_polygon_degenerate_witness :
  (length [(3, 4)%Q : Point] <= 1)%nat /\
  Geometry.point_in_polygon (3, 4) [(3, 4)] = Ok false.
Proof.
  split; [cbn; lia|].
  apply (point_in_polygon_degenerate (3, 4) [(3, 4)]). cbn; lia.
Defined.

(** With exact numbers, and for every vertex list (convex or not) and
    every point that lies on no edge of the polygon (so on no vertex
    either), the algorithm of [point_in_polygon] gives the answer of the
    even-odd crossing test with strict comparisons. *)
Lemma exact_point_in_polygon_agrees_off_boundary (p : Point)
    (vertices : list Point) :
  on_boundary p vertices = false ->
  Geometry.point_in_polygon p vertices = Ok (reference_even_odd p vertices).
Proof.
  intros H. rewrite point_in_polygon_parity. unfold reference_even_odd.
  f_equal. by apply crossings_agree.
Qed.

(** On an edge the two differ: (1,2) is the midpoint of the top edge of
    the square with corners (0,0), (2,0), (2,2), (0,2); the algorithm of
    [point_in_polygon] counts the upper end of an edge in and answers
    [True], the test with strict comparisons answers [False]. *)
Lemma exact_point_in_polygon_on_an_edge :
  convex [(0, 0); (2, 0); (2, 2); (0, 2)] = true /\
  on_boundary (1, 2) [(0, 0); (2, 0); (2, 2); (0, 2)] = true /\
  Geometry.point_in_polygon (1, 2) [(0, 0); (2, 0); (2, 2); (0, 2)] = Ok true /\
  reference_even_odd (1, 2) [(0, 0); (2, 0); (2, 2); (0, 2)] = false.
Proof. repeat split; reflexivity. Qed.

(* ===================================================================== *)
(** * [point_in_polygon] on Python's numbers *)
(* ===================================================================== *)

Section NumberOrder.

Import PyNumber.

Lemma SFcompare_antisym x y :
  SFcompare y x = CompOpp <$> SFcompare x y.
Proof.
  destruct x as [sx|sx| |sx mx ex], y as [sy|sy| |sy my ey]; cbn;
    try reflexivity;
    try (by destruct sx); try (by destruct sy);
    try (by destruct sx, sy).
  pose proof (Z.compare_antisym ex ey) as Hz.
  pose proof (Pos.compare_cont_antisym mx my Eq) as Hp. cbn in Hp.
  destruct sx, sy; cbn; try reflexivity;
    destruct (ex ?= ey)%Z, (ey ?= ex)%Z; try done;
    destruct (Pos.compare_cont Eq mx my), (Pos.compare_cont Eq my mx);
    done.
Qed.

Lemma compare_antisym a b : compare b a = CompOpp <$> compare a b.
Proof.
  destruct a as [x|x], b as [y|y]; cbn.
  - by rewrite (Z.compare_antisym x y).
  - reflexivity.
  - destruct (compare_int_float y x); cbn; [|done].
    by rewrite CompOpp_involutive.
  - apply SFcompare_antisym.
Qed.

(** The two range tests on [y] cannot both succeed on an edge whose ends
    compare equal. *)
Lemma level_edge_out_of_range y y1 y2 :
  eq y1 y2 = true -> gt y (min y1 y2) && le y (max y1 y2) = false.
Proof.
  unfold eq, gt, le, min, max, lt, gt. intros E.
  rewrite (compare_antisym y1 y2).
  destruct (compare y1 y2) as [[]|]; try done. cbn.
  rewrite (compare_antisym y1 y).
  by destruct (compare y1 y) as [[]|].
Qed.

End NumberOrder.

Section NumberLoop.

Import PyNumber Numeric EvenOdd.

(** One iteration on the edge from [a] to [b] raises what the crossing
    test raises, and otherwise flips [inside] when the edge crosses. *)
Lemma pip_iteration_crosses pt vertices n loc i a b :
  vertices !! i = Some a ->
  (0 < n)%nat ->
  vertices !! ((i + 1) mod n)%nat = Some b ->
  match crosses pt (a, b) with
  | Ok c => exists xi, pip_iteration pt vertices n loc i
                       = Ok (PipLocals (xorb (inside loc) c) xi)
  | Raise err => pip_iteration pt vertices n loc i = Raise err
  end.
Proof.
  intros Ha Hn Hb. destruct pt as [x y], a as [x1 y1], b as [x2 y2].
  unfold pip_iteration, index, mod_nat. rewrite Ha.
  destruct n as [|n']; [lia|]. cbn [mbind result_bind bind].
  rewrite Hb. cbn [mbind result_bind bind]. unfold crosses, ne.
  destruct (eq y1 y2) eqn:E.
  - pose proof (level_edge_out_of_range y y1 y2 E) as R.
    destruct (gt y (min y1 y2)); [|rewrite xorb_false_r; destruct loc; eauto].
    destruct (le y (max y1 y2)); [done|].
    rewrite xorb_false_r; destruct loc; eauto.
  - destruct (gt y (min y1 y2)); cbn [andb];
      [|rewrite xorb_false_r; destruct loc; eauto].
    destruct (le y (max y1 y2)); cbn [andb];
      [|rewrite xorb_false_r; destruct loc; eauto].
    destruct (le x (max x1 x2)); cbn [andb];
      [|rewrite xorb_false_r; destruct loc; eauto].
    cbn [negb]. unfold xinters_of.
    destruct (sub y y1) as [a|]; cbn [mbind result_bind bind]; [|done].
    destruct (sub x2 x1) as [b|]; cbn [mbind result_bind bind]; [|done].
    destruct (mul a b) as [c|]; cbn [mbind result_bind bind]; [|done].
    destruct (sub y2 y1) as [d|]; cbn [mbind result_bind bind]; [|done].
    destruct (truediv c d) as [q|]; cbn [mbind result_bind bind]; [|done].
    destruct (add q x1) as [v|]; cbn [mbind result_bind bind]; [|done].
    cbn [read_local xinters inside mbind result_bind bind].
    destruct (le x v); cbn.
    + rewrite xorb_true_r. eauto.
    + rewrite xorb_false_r. eauto.
Qed.

Lemma rotate_index i n :
  (i < n)%nat -> rotate_nat_add 1 i n = ((i + 1) mod n)%nat.
Proof.
  intros H. unfold rotate_nat_add.
  rewrite <- (Nat2Z.id ((i + 1) mod n)). f_equal.
  rewrite Nat2Z.inj_mod. f_equal. lia.
Qed.

Lemma number_edges_lookup vertices i a b :
  EvenOdd.edges vertices !! i = Some (a, b) ->
  vertices !! i = Some a /\
  vertices !! ((i + 1) mod length vertices)%nat = Some b /\
  (0 < length vertices)%nat.
Proof.
  unfold EvenOdd.edges, zip. intros H.
  apply lookup_zip_with_Some in H as (a' & b' & [= <- <-] & Ha & Hb).
  apply lookup_rotate_r_Some in Hb as [Hb Hlt].
  rewrite rotate_index in Hb by done.
  split; [done|]. split; [done|lia].
Qed.

Lemma length_number_edges vertices :
  length (EvenOdd.edges vertices) = length vertices.
Proof.
  unfold EvenOdd.edges. rewrite length_zip_with, length_rotate. lia.
Qed.

(** The loop from index [k] on, over the remaining edges [es]. *)
Lemma number_loop_from pt vertices es : forall k loc,
  drop k (EvenOdd.edges vertices) = es ->
  match mapM (crosses pt) es with
  | Ok bs =>
      exists xi,
        for_each (pip_iteration pt vertices (length vertices))
          (seq k (length es)) loc
        = Ok (PipLocals (xorb (inside loc) (parity bs)) xi)
  | Raise err =>
      for_each (pip_iteration pt vertices (length vertices))
        (seq k (length es)) loc = Raise err
  end.
Proof.
  induction es as [|[a b] es IH]; intros k loc Hdrop.
  - cbn. rewrite xorb_false_r. destruct loc. eauto.
  - assert (EvenOdd.edges vertices !! k = Some (a, b)) as Hk.
    { pose proof (lookup_drop (EvenOdd.edges vertices) k 0) as L.
      rewrite Hdrop, Nat.add_0_r in L. by rewrite <- L. }
    assert (drop (S k) (EvenOdd.edges vertices) = es) as Hrest.
    { replace (S k) with (k + 1)%nat by lia.
      by rewrite <- drop_drop, Hdrop. }
    apply number_edges_lookup in Hk as (Ha & Hb & Hn).
    pose proof (pip_iteration_crosses pt vertices _ loc k a b Ha Hn Hb) as H1.
    cbn [mapM length seq for_each].
    destruct (crosses pt (a, b)) as [c|err]; cbn [mbind result_bind bind].
    2:{ by rewrite H1. }
    destruct H1 as [xi1 E1]. rewrite E1. cbn [mbind result_bind bind].
    specialize (IH (S k) (PipLocals (xorb (inside loc) c) xi1) Hrest).
    destruct (mapM (crosses pt) es) as [bs|err]; cbn [mbind result_bind bind].
    + destruct IH as [xi E]. exists xi. rewrite E.
      cbn [inside mret result_ret parity foldr]. by rewrite xorb_assoc.
    + exact IH.
Qed.

(** [point_in_polygon] raises the first exception of the crossing tests,
    and otherwise returns the parity of their answers. *)
Lemma point_in_polygon_spec pt vertices :
  match mapM (crosses pt) (EvenOdd.edges vertices) with
  | Ok bs => point_in_polygon pt vertices = Ok (parity bs)
  | Raise err => point_in_polygon pt vertices = Raise err
  end.
Proof.
  unfold point_in_polygon.
  pose proof (number_loop_from pt vertices (EvenOdd.edges vertices) 0
                (PipLocals false None) eq_refl) as H.
  rewrite length_number_edges in H.
  destruct (mapM (crosses pt) (EvenOdd.edges vertices)) as [bs|err].
  - destruct H as [xi E]. by rewrite E.
  - by rewrite H.
Qed.

End NumberLoop.

(* ===================================================================== *)
(** * Rounding never turns a non-zero value into zero *)
(* ===================================================================== *)

Section Rounding64.

Import PyNumber.

#[local] Open Scope Z_scope.

Lemma shr_1_half r : 0 <= shr_m r -> shr_m (shr_1 r) = shr_m r / 2.
Proof.
  destruct r as [m b s]. cbn [shr_m]. intros H.
  destruct m as [|[p|p|]|p]; cbn [shr_1 shr_m]; try lia; try reflexivity.
  - apply (Z.div_unique (Zpos p~1) 2 (Zpos p) 1); lia.
  - apply (Z.div_unique (Zpos p~0) 2 (Zpos p) 0); lia.
Qed.

Lemma shr_iter_half p : forall r,
  0 <= shr_m r ->
  0 <= shr_m (SpecFloat.iter_pos shr_1 p r) /\
  shr_m (SpecFloat.iter_pos shr_1 p r) = shr_m r / 2 ^ Zpos p.
Proof.
  assert (forall r, 0 <= shr_m r -> 0 <= shr_m (shr_1 r)) as Hnn.
  { intros r H. rewrite shr_1_half by done. apply Z.div_pos; lia. }
  induction p as [p IH|p IH|]; intros r H; cbn [SpecFloat.iter_pos].
  - destruct (IH (shr_1 r) (Hnn r H)) as [H1 E1].
    destruct (IH _ H1) as [H2 E2]. split; [done|].
    rewrite E2, E1, shr_1_half by done.
    rewrite !Z.div_div by lia. f_equal.
    replace (Zpos p~1) with (1 + Zpos p + Zpos p) by lia.
    rewrite !Z.pow_add_r by lia. change (2 ^ 1) with 2. lia.
  - destruct (IH r H) as [H1 E1].
    destruct (IH _ H1) as [H2 E2]. split; [done|].
    rewrite E2, E1. rewrite !Z.div_div by lia. f_equal.
    replace (Zpos p~0) with (Zpos p + Zpos p) by lia.
    rewrite !Z.pow_add_r by lia. change (2 ^ 1) with 2. lia.
  - split; [by apply Hnn|]. by rewrite shr_1_half.
Qed.

Lemma digits2_size m : digits2_pos m = Pos.size m.
Proof. induction m as [m IH|m IH|]; cbn; by rewrite ?IH. Qed.

(** A positive number of [d] binary digits lies in [2^(d-1), 2^d). *)
Lemma digits2_bounds m :
  2 ^ (Zpos (digits2_pos m) - 1) <= Zpos m < 2 ^ Zpos (digits2_pos m).
Proof.
  rewrite digits2_size.
  pose proof (Pos.size_gt m) as Hgt. pose proof (Pos.size_le m) as Hle.
  apply Pos2Z.pos_lt_pos in Hgt. apply Pos2Z.pos_le_pos in Hle.
  rewrite Pos2Z.inj_pow in Hgt, Hle.
  assert (2 ^ Zpos (Pos.size m) = 2 * 2 ^ (Zpos (Pos.size m) - 1)) as E.
  { replace (Zpos (Pos.size m)) with (1 + (Zpos (Pos.size m) - 1)) at 1 by lia.
    rewrite Z.pow_add_r by lia. reflexivity. }
  lia.
Qed.

Lemma shr_fexp_positive m e l :
  0 < m -> emin prec emax <= e ->
  0 < shr_m (fst (shr_fexp prec emax m e l)) /\
  emin prec emax <= snd (shr_fexp prec emax m e l).
Proof.
  intros Hm He. destruct m as [|p|p]; try lia.
  unfold shr_fexp, shr. cbn [Zdigits2].
  pose proof (digits2_bounds p) as [Hlo _].
  set (d := Zpos (digits2_pos p)) in *.
  assert (fexp prec emax (d + e) - e <= d - 1) as Hn.
  { unfold fexp, emin, prec, emax in *. lia. }
  destruct (fexp prec emax (d + e) - e) as [|n|n] eqn:En; cbn [fst snd].
  - split; [by destruct l as [|[]]|done].
  - assert (0 <= shr_m (shr_record_of_loc (Zpos p) l)) as H0
      by (by destruct l as [|[]]).
    destruct (shr_iter_half n _ H0) as [_ E]. rewrite E.
    replace (shr_m (shr_record_of_loc (Zpos p) l)) with (Zpos p)
      by (by destruct l as [|[]]).
    split; [|lia]. apply Z.div_str_pos. split; [lia|].
    etrans; [|exact Hlo]. apply Z.pow_le_mono_r; lia.
  - split; [by destruct l as [|[]]|done].
Qed.

Lemma round_nearest_even_grows m l : m <= round_nearest_even m l.
Proof.
  destruct l as [|[]]; cbn [round_nearest_even]; try lia.
  destruct (Z.even m); lia.
Qed.

(** Rounding a positive mantissa whose exponent is not below the least
    exponent does not give zero. *)
Lemma binary_round_aux_nonzero s m e l :
  0 < m -> emin prec emax <= e ->
  is_zero (binary_round_aux prec emax s m e l) = false.
Proof.
  intros Hm He. unfold binary_round_aux.
  pose proof (shr_fexp_positive m e l Hm He) as [H1 He1].
  destruct (shr_fexp prec emax m e l) as [r1 e1]. cbn [fst snd] in *.
  pose proof (round_nearest_even_grows (shr_m r1) (loc_of_shr_record r1)) as Hr.
  set (m2 := round_nearest_even (shr_m r1) (loc_of_shr_record r1)) in *.
  pose proof (shr_fexp_positive m2 e1 loc_Exact ltac:(lia) He1) as [H2 _].
  destruct (shr_fexp prec emax m2 e1 loc_Exact) as [r2 e2]. cbn [fst snd] in *.
  destruct (shr_m r2); try lia.
  by destruct (e2 <=? emax - prec).
Qed.

Lemma binary_round_nonzero s m e :
  emin prec emax <= e -> is_zero (binary_round prec emax s m e) = false.
Proof.
  intros He. unfold binary_round.
  destruct (shl_align m e _) as [mz ez] eqn:E.
  apply binary_round_aux_nonzero; [lia|].
  unfold shl_align in E.
  destruct (_ - e) eqn:D; injection E as <- <-; try done.
  unfold fexp. lia.
Qed.

Lemma binary_normalize_nonzero m e :
  m <> 0 -> emin prec emax <= e ->
  is_zero (binary_normalize prec emax m e false) = false.
Proof.
  intros Hm He. destruct m; [done| |]; by apply binary_round_nonzero.
Qed.

(** The double nearest to a non-zero [int] is not zero. *)
Lemma float_of_int_nonzero z f :
  z <> 0 -> float_of_int z = Ok f -> is_zero f = false.
Proof.
  intros Hz. unfold float_of_int.
  pose proof (binary_normalize_nonzero z 0 Hz) as H.
  destruct (binary_normalize prec emax z 0 false); try done;
    intros [= <-]; apply H; unfold emin, prec, emax; lia.
Qed.

Lemma shl_align_spec mx ex ex' :
  snd (shl_align mx ex ex') = Z.min ex ex' /\
  Zpos (fst (shl_align mx ex ex'))
  = Zpos mx * 2 ^ (ex - snd (shl_align mx ex ex')).
Proof.
  unfold shl_align.
  destruct (ex' - ex) as [|d|d] eqn:D; cbn [fst snd].
  - rewrite Z.sub_diag. lia.
  - rewrite Z.sub_diag. lia.
  - split; [lia|]. replace (ex - ex') with (Zpos d) by lia. clear.
    induction d as [|d IH] using Pos.peano_ind.
    + cbn [Pos.iter]. lia.
    + rewrite Pos.iter_succ, Pos2Z.inj_xO, IH, Pos2Z.inj_succ, Z.pow_succ_r;
        lia.
Qed.

Lemma shl_align_value mx ex ez :
  ez <= ex -> Zpos (fst (shl_align mx ex ez)) = Zpos mx * 2 ^ (ex - ez).
Proof.
  intros H. destruct (shl_align_spec mx ex ez) as [E1 E2].
  rewrite E2, E1. f_equal. f_equal. lia.
Qed.

(** A double in canonical form: its exponent is not below the least one,
    its mantissa has at most 53 digits, and exactly 53 unless the
    exponent is the least one. *)
Lemma bounded_digits m e :
  bounded prec emax m e = true ->
  emin prec emax <= e /\
  Zpos m < 2 ^ 53 /\
  (emin prec emax < e -> 2 ^ 52 <= Zpos m).
Proof.
  unfold bounded, canonical_mantissa. intros [H _]%andb_true_iff.
  apply Z.eqb_eq in H. pose proof (digits2_bounds m) as [Hlo Hhi].
  set (d := Zpos (digits2_pos m)) in *.
  assert (0 < d) by (unfold d; lia).
  unfold fexp, emin, prec, emax in *.
  split; [lia|]. split.
  - eapply Z.lt_le_trans; [exact Hhi|]. apply Z.pow_le_mono_r; lia.
  - intros He. replace d with 53 in Hlo by lia. exact Hlo.
Qed.

(** Two doubles whose difference is zero are equal: subtraction does
    not underflow. *)
Lemma SFsub_zero_equal x y :
  valid_binary prec emax x = true -> valid_binary prec emax y = true ->
  is_zero (SFsub prec emax x y) = true ->
  SFcompare x y = Some Eq.
Proof.
  destruct x as [sx|sx| |sx mx ex], y as [sy|sy| |sy my ey];
    cbn [valid_binary SFsub SFcompare is_zero]; intros Vx Vy; try done;
    try (by destruct sx, sy).
  destruct (bounded_digits mx ex Vx) as (Hex & Hmx & Hnx).
  destruct (bounded_digits my ey Vy) as (Hey & Hmy & Hny).
  pose proof (shl_align_value mx ex (Z.min ex ey) ltac:(lia)) as Ax.
  pose proof (shl_align_value my ey (Z.min ex ey) ltac:(lia)) as Ay.
  set (ax := Zpos (fst (shl_align mx ex (Z.min ex ey)))) in *.
  set (ay := Zpos (fst (shl_align my ey (Z.min ex ey)))) in *.
  intros Hz.
  destruct (Z.eq_dec (cond_Zopp sx ax - cond_Zopp sy ay) 0) as [D|D].
  2:{ rewrite binary_normalize_nonzero in Hz; [done|done|lia]. }
  assert (0 < ax /\ 0 < ay) as [Px Py] by (unfold ax, ay; lia).
  assert (sx = sy /\ ax = ay) as [-> Eq'].
  { destruct sx, sy; cbn [cond_Zopp] in D; split; try done; lia. }
  destruct (Z.compare_spec ex ey) as [E|E|E].
  - subst ey. rewrite Z.min_id, Z.sub_diag in Ax, Ay.
    assert (mx = my) as -> by lia.
    rewrite (Pos.compare_cont_refl my Eq). by destruct sy.
  - exfalso. rewrite Z.min_l in Ax, Ay by lia.
    rewrite Z.sub_diag in Ax.
    assert (2 <= 2 ^ (ey - ex))
      by (change 2 with (2 ^ 1) at 1; apply Z.pow_le_mono_r; lia).
    specialize (Hny ltac:(lia)). nia.
  - exfalso. rewrite Z.min_r in Ax, Ay by lia.
    rewrite Z.sub_diag in Ay.
    assert (2 <= 2 ^ (ex - ey))
      by (change 2 with (2 ^ 1) at 1; apply Z.pow_le_mono_r; lia).
    specialize (Hnx ltac:(lia)). nia.
Qed.

Lemma digits2_le m k : 0 < m < 2 ^ k -> Zdigits2 m <= k.
Proof.
  intros [Hm Hk]. destruct m as [|p|p]; try lia. cbn [Zdigits2].
  pose proof (digits2_bounds p) as [Hlo _].
  destruct (Z_lt_le_dec k (Zpos (digits2_pos p))) as [C|C]; [|done].
  exfalso. assert (2 ^ k <= 2 ^ (Zpos (digits2_pos p) - 1))
    by (apply Z.pow_le_mono_r; lia). lia.
Qed.

(** The exponent and the mantissa after the shift that leaves at most 53
    digits. *)
Lemma shr_fexp_spec m e l :
  0 < m ->
  snd (shr_fexp prec emax m e l)
  = Z.max e (fexp prec emax (Zdigits2 m + e)) /\
  shr_m (fst (shr_fexp prec emax m e l))
  = m / 2 ^ (snd (shr_fexp prec emax m e l) - e).
Proof.
  intros Hm. unfold shr_fexp, shr.
  assert (shr_m (shr_record_of_loc m l) = m) as Em by (by destruct l as [|[]]).
  destruct (fexp prec emax (Zdigits2 m + e) - e) as [|n|n] eqn:En;
    cbn [fst snd].
  - rewrite Z.sub_diag, Z.div_1_r. split; [lia|done].
  - destruct (shr_iter_half n (shr_record_of_loc m l)) as [_ E]; [lia|].
    rewrite E, Em. split; [lia|]. f_equal. f_equal. lia.
  - rewrite Z.sub_diag, Z.div_1_r. split; [lia|done].
Qed.

Lemma round_nearest_even_bound m l : round_nearest_even m l <= m + 1.
Proof.
  destruct l as [|[]]; cbn [round_nearest_even]; try lia.
  destruct (Z.even m); lia.
Qed.

(** A shift keeps the value below the same power of two. *)
Lemma shifted_below m e e' D :
  0 < m < 2 ^ (D - e) -> e <= e' -> 0 < m / 2 ^ (e' - e) ->
  m / 2 ^ (e' - e) < 2 ^ (D - e') /\ e' < D.
Proof.
  intros [Hm Hlt] He Hq.
  assert (0 < 2 ^ (e' - e)) by (apply Z.pow_pos_nonneg; lia).
  assert (2 ^ (e' - e) <= m) as Hle.
  { destruct (Z_lt_le_dec m (2 ^ (e' - e))) as [C|C]; [|done].
    rewrite Z.div_small in Hq by lia. lia. }
  assert (e' < D) as HD.
  { destruct (Z_lt_le_dec e' D) as [C|C]; [done|]. exfalso.
    assert (2 ^ (D - e) <= 2 ^ (e' - e)) by (apply Z.pow_le_mono_r; lia).
    lia. }
  split; [|done].
  apply Z.div_lt_upper_bound; [done|].
  rewrite <- Z.pow_add_r by lia. by replace (e' - e + (D - e')) with (D - e) by lia.
Qed.

(** Rounding a value below [2^(emax - 1)] does not overflow. *)
Lemma binary_round_aux_finite s m e l D :
  0 < m < 2 ^ (D - e) -> emin prec emax <= e -> e <= emax - prec ->
  D <= emax - 1 ->
  binary_round_aux prec emax s m e l <> S754_infinity s.
Proof.
  intros [Hm Hlt] He Hemax HD. unfold binary_round_aux.
  pose proof (shr_fexp_positive m e l Hm He) as [H1 He1].
  pose proof (shr_fexp_spec m e l Hm) as [Ee1 Em1].
  destruct (shr_fexp prec emax m e l) as [r1 e1]. cbn [fst snd] in *.
  assert (Zdigits2 m <= D - e) as Hd by (apply digits2_le; lia).
  assert (e <= e1) as Hee by lia.
  rewrite Em1 in H1.
  destruct (shifted_below m e e1 D ltac:(lia) Hee H1) as [B1 HD1].
  rewrite <- Em1 in B1, H1.
  pose proof (round_nearest_even_grows (shr_m r1) (loc_of_shr_record r1)) as Hr.
  pose proof (round_nearest_even_bound (shr_m r1) (loc_of_shr_record r1)) as Hr'.
  set (m2 := round_nearest_even (shr_m r1) (loc_of_shr_record r1)) in *.
  pose proof (shr_fexp_spec m2 e1 loc_Exact ltac:(lia)) as [Ee2 _].
  assert (Zdigits2 m2 <= D - e1 + 1) as Hd2.
  { apply digits2_le. split; [lia|].
    rewrite Z.pow_add_r by lia. change (2 ^ 1) with 2. lia. }
  destruct (shr_fexp prec emax m2 e1 loc_Exact) as [r2 e2]. cbn [fst snd] in *.
  assert (e2 <= emax - prec) as Hfin.
  { unfold fexp, emin, prec, emax in *. lia. }
  apply Z.leb_le in Hfin. destruct (shr_m r2); try done.
  by rewrite Hfin.
Qed.

(** An [int] below [2^1023] in magnitude converts to a [float]. *)
Lemma float_of_int_finite z :
  Z.abs z < 2 ^ 1023 -> exists f, float_of_int z = Ok f.
Proof.
  intros Hz. unfold float_of_int.
  assert (forall s p, Zpos p < 2 ^ 1023 ->
            binary_round prec emax s p 0 <> S754_infinity s) as H.
  { intros s p Hp. unfold binary_round.
    destruct (shl_align_spec p 0 (fexp prec emax (Zpos (digits2_pos p) + 0)))
      as [E1 E2].
    destruct (shl_align p 0 _) as [mz ez]. cbn [fst snd] in *.
    assert (emin prec emax <= ez <= 0) as [Hemin Hez]
      by (unfold fexp, emin, prec, emax in *; lia).
    apply (binary_round_aux_finite s (Zpos mz) ez loc_Exact 1023);
      [|done|unfold emax, prec; lia|unfold emax; lia].
    split; [lia|]. rewrite E2.
    replace (1023 - ez) with (1023 + (0 - ez)) by lia.
    rewrite Z.pow_add_r by lia.
    apply Z.mul_lt_mono_pos_r; [apply Z.pow_pos_nonneg; lia|done]. }
  destruct z as [|p|p]; cbn [binary_normalize].
  - eauto.
  - specialize (H false p ltac:(lia)).
    destruct (binary_round prec emax false p 0) as [| [] | |] eqn:E; eauto.
    + exfalso. (* a positive mantissa does not round to minus infinity *)
      revert E. unfold binary_round. destruct (shl_align p 0 _) as [mz ez].
      unfold binary_round_aux.
      destruct (shr_fexp prec emax (Zpos mz) ez loc_Exact) as [r1 e1].
      destruct (shr_fexp prec emax _ e1 loc_Exact) as [r2 e2].
      destruct (shr_m r2); try done. by destruct (e2 <=? emax - prec).
    + done.
  - specialize (H true p ltac:(lia)).
    destruct (binary_round prec emax true p 0) as [| [] | |] eqn:E; eauto.
    + done.
    + exfalso. revert E. unfold binary_round.
      destruct (shl_align p 0 _) as [mz ez]. unfold binary_round_aux.
      destruct (shr_fexp prec emax (Zpos mz) ez loc_Exact) as [r1 e1].
      destruct (shr_fexp prec emax _ e1 loc_Exact) as [r2 e2].
      destruct (shr_m r2); try done. by destruct (e2 <=? emax - prec).
Qed.

End Rounding64.

(* ===================================================================== *)
(** * What [point_in_polygon] can raise *)
(* ===================================================================== *)

Section NumberSafety.

Import PyNumber Numeric EvenOdd.

Lemma as_float_raises a err : as_float a = Raise err -> err = OverflowError.
Proof.
  destruct a as [z|f]; cbn [as_float]; [|done]. unfold float_of_int.
  destruct (binary_normalize prec emax z 0 false); try done.
  by intros [= <-].
Qed.

Lemma arith_raises iop fop a b err :
  arith iop fop a b = Raise err -> err = OverflowError.
Proof.
  unfold arith. destruct a as [x|x], b as [y|y]; try done;
    cbn [as_float mbind result_bind bind];
    repeat match goal with
    | |- context [float_of_int ?z] =>
        let E := fresh in
        destruct (float_of_int z) eqn:E;
        [|apply (as_float_raises (PyInt z)) in E]
    end; cbn [mbind result_bind bind]; try done; by intros [= <-].
Qed.

(** On two [float]s, or a [float] and an [int] that converts, the three
    operations return a [float]. *)
Lemma arith_float iop fop a b :
  converts a = true -> converts b = true ->
  is_int a && is_int b = false ->
  exists f, arith iop fop a b = Ok (PyFloat f).
Proof.
  unfold arith. intros Ca Cb Hk.
  destruct a as [x|x], b as [y|y]; try done;
    cbn [as_float mbind result_bind bind converts] in *;
    repeat match goal with
    | H : (Z.abs ?z <? _)%Z = true |- _ =>
        apply Z.ltb_lt in H;
        destruct (float_of_int_finite z H) as [? ->]
    end; cbn [mbind result_bind bind]; eauto.
Qed.

(** A division raises [ZeroDivisionError] only on a divisor that is zero
    as an [int] or as a [float]. *)
Lemma truediv_raises c d err :
  truediv c d = Raise err ->
  err = OverflowError \/
  err = ZeroDivisionError /\
  (d = PyInt 0 \/ exists f, as_float d = Ok f /\ is_zero f = true).
Proof.
  unfold truediv. destruct c as [x|x], d as [y|y];
    cbn [as_float mbind result_bind bind].
  - destruct (Z.eqb_spec y 0) as [->|].
    { intros [= <-]. right. eauto. }
    destruct (SFdiv _ _ _ _); try done. intros [= <-]. by left.
  - destruct (float_of_int x) eqn:E; cbn [mbind result_bind bind].
    + destruct (is_zero y) eqn:Z; [|done]. intros [= <-]. right. eauto.
    + intros [= <-]. left. by apply (as_float_raises (PyInt x)).
  - destruct (float_of_int y) as [f|] eqn:E; cbn [mbind result_bind bind].
    + destruct (is_zero f) eqn:Z; [|done]. intros [= <-]. right. eauto.
    + intros [= <-]. left. by apply (as_float_raises (PyInt y)).
  - destruct (is_zero y) eqn:Z; [|done]. intros [= <-]. right. eauto.
Qed.

(** The difference of two numbers of the same kind that do not compare
    equal is not a zero divisor. *)
Lemma difference_not_zero y1 y2 d :
  same_kind y1 y2 = true -> eq y1 y2 = false -> sub y2 y1 = Ok d ->
  d <> PyInt 0 /\ forall f, as_float d = Ok f -> is_zero f = false.
Proof.
  unfold same_kind, eq, sub, arith. intros K.
  destruct y1 as [z1|f1], y2 as [z2|f2];
    cbn [is_int is_double andb orb] in K; rewrite ?andb_false_r in K;
    try done; revert K;
    cbn [compare as_float mbind result_bind bind].
  - intros _ Hne [= <-].
    assert (z2 - z1 <> 0)%Z as Hz.
    { destruct (Z.compare_spec z1 z2); try done; lia. }
    split; [congruence|]. intros f Hf.
    by apply (float_of_int_nonzero (z2 - z1)).
  - intros [V1 V2]%andb_true_iff Hne [= <-]. split; [done|].
    intros f [= <-]. destruct (is_zero _) eqn:Z; [|done]. exfalso.
    apply (SFsub_zero_equal f2 f1 V2 V1) in Z.
    rewrite (SFcompare_antisym f2 f1), Z in Hne. done.
Qed.

(** The crossing test raises only while it computes [xinters], on an edge
    whose ends do not compare equal. *)
Lemma crosses_raises pt x1 y1 x2 y2 err :
  crosses pt ((x1, y1), (x2, y2)) = Raise err ->
  ne y1 y2 = true /\
  xinters_of pt ((x1, y1), (x2, y2)) = Raise err /\
  (err = OverflowError \/
   err = ZeroDivisionError /\ same_kind y1 y2 = false).
Proof.
  destruct pt as [x y]. unfold crosses, ne.
  destruct (eq y1 y2) eqn:E; [done|].
  destruct (_ && _); [|done].
  destruct (xinters_of (x, y) _) as [xi|err'] eqn:X;
    cbn [mbind result_bind bind]; [done|].
  intros [= ->]. split; [done|]. split; [done|].
  unfold xinters_of in X.
  destruct (sub y y1) as [a|] eqn:Ea; cbn [mbind result_bind bind] in X;
    [|injection X as <-; left; by eapply arith_raises].
  destruct (sub x2 x1) as [b|] eqn:Eb; cbn [mbind result_bind bind] in X;
    [|injection X as <-; left; by eapply arith_raises].
  destruct (mul a b) as [c|] eqn:Ec; cbn [mbind result_bind bind] in X;
    [|injection X as <-; left; by eapply arith_raises].
  destruct (sub y2 y1) as [d|] eqn:Ed; cbn [mbind result_bind bind] in X;
    [|injection X as <-; left; by eapply arith_raises].
  destruct (truediv c d) as [q|] eqn:Eq; cbn [mbind result_bind bind] in X;
    [left; by eapply arith_raises|].
  injection X as <-.
  destruct (truediv_raises c d _ Eq) as [?|[-> Hz]]; [by left|].
  right. split; [done|].
  destruct (same_kind y1 y2) eqn:K; [|done]. exfalso.
  destruct (difference_not_zero y1 y2 d K E Ed) as [N1 N2].
  destruct Hz as [?|(f & Hf & Hzf)]; [done|].
  by rewrite (N2 f Hf) in Hzf.
Qed.

(** With [float] vertices and a point that converts, [xinters] is
    computed without an exception. *)
Lemma xinters_of_returns pt x1 y1 x2 y2 :
  converts_point pt = true ->
  double_point (x1, y1) = true -> double_point (x2, y2) = true ->
  eq y1 y2 = false ->
  exists xi, xinters_of pt ((x1, y1), (x2, y2)) = Ok xi.
Proof.
  destruct pt as [x y]. unfold converts_point, double_point. cbn [fst snd].
  intros [Cx Cy]%andb_true_iff [Dx1 Dy1]%andb_true_iff
    [Dx2 Dy2]%andb_true_iff E.
  destruct x1 as [|x1], y1 as [|y1], x2 as [|x2], y2 as [|y2]; try done.
  unfold xinters_of.
  destruct (arith_float Z.sub (SFsub prec emax) y (PyFloat y1)) as [a Ha];
    [done|done|by rewrite andb_false_r|].
  change (arith Z.sub (SFsub prec emax)) with sub in Ha. rewrite Ha.
  cbn [mbind result_bind bind sub arith as_float].
  destruct (is_zero (SFsub prec emax y2 y1)) eqn:Z.
  { apply (SFsub_zero_equal y2 y1 Dy2 Dy1) in Z. unfold eq in E. cbn in E.
    by rewrite (SFcompare_antisym y2 y1), Z in E. }
  cbn [mul arith as_float mbind result_bind bind truediv add]. rewrite Z.
  cbn [mbind result_bind bind]. eauto.
Qed.

Lemma crosses_returns pt x1 y1 x2 y2 :
  converts_point pt = true ->
  double_point (x1, y1) = true -> double_point (x2, y2) = true ->
  exists c, crosses pt ((x1, y1), (x2, y2)) = Ok c.
Proof.
  intros Hp H1 H2. pose proof (xinters_of_returns pt x1 y1 x2 y2 Hp H1 H2) as X.
  destruct pt as [x y]. unfold crosses.
  destruct (eq y1 y2); [eauto|].
  destruct (_ && _); [|eauto].
  destruct (X eq_refl) as [xi ->]. cbn. eauto.
Qed.

Lemma number_edges_elem vertices a b :
  (a, b) ∈ EvenOdd.edges vertices -> a ∈ vertices /\ b ∈ vertices.
Proof.
  intros [i Hi]%list_elem_of_lookup_1.
  apply number_edges_lookup in Hi as (Ha & Hb & _).
  split; by eapply list_elem_of_lookup_2.
Qed.

(** The first exception among the crossing tests is the one of the
    whole count. *)
Lemma mapM_raises {A B} (f : A -> result B) l err :
  mapM f l = Raise err -> exists a, a ∈ l /\ f a = Raise err.
Proof.
  induction l as [|a l IH]; [done|]. cbn [mapM].
  destruct (f a) as [b|e] eqn:E; cbn [mbind result_bind bind].
  - destruct (mapM f l) as [bs|e]; cbn [mbind result_bind bind]; [done|].
    intros [= ->]. destruct (IH eq_refl) as (a' & Hin & Ha').
    exists a'. split; [by right|done].
  - intros [= ->]. exists a. split; [by left|done].
Qed.

Lemma mapM_returns {A B} (f : A -> result B) l :
  (forall a, a ∈ l -> exists b, f a = Ok b) -> exists bs, mapM f l = Ok bs.
Proof.
  induction l as [|a l IH]; intros H; [by eexists|]. cbn [mapM].
  destruct (H a) as [b ->]; [by left|].
  destruct IH as [bs ->]; [intros a' Ha'; apply H; by right|].
  cbn. eauto.
Qed.

End NumberSafety.

Section NumberResults.

Import PyNumber Numeric EvenOdd.

Lemma point_in_polygon_raises_with pt vertices err :
  point_in_polygon pt vertices = Raise err ->
  mapM (crosses pt) (EvenOdd.edges vertices) = Raise err.
Proof.
  pose proof (point_in_polygon_spec pt vertices) as H.
  destruct (mapM (crosses pt) (EvenOdd.edges vertices)); congruence.
Qed.

Lemma point_in_polygon_returns_with pt vertices b :
  point_in_polygon pt vertices = Ok b ->
  exists bs, mapM (crosses pt) (EvenOdd.edges vertices) = Ok bs /\
             b = parity bs.
Proof.
  pose proof (point_in_polygon_spec pt vertices) as H.
  destruct (mapM (crosses pt) (EvenOdd.edges vertices)) as [bs|];
    [|congruence].
  intros Hb. exists bs. split; [done|congruence].
Qed.

Lemma mapM_app {A B} (f : A -> result B) l k :
  mapM f (l ++ k) = (bs ← mapM f l; cs ← mapM f k; Ok (bs ++ cs)).
Proof.
  induction l as [|a l IH]; cbn [app mapM mbind result_bind bind].
  - by destruct (mapM f k).
  - destruct (f a); cbn [mbind result_bind bind]; [|done]. rewrite IH.
    destruct (mapM f l); cbn [mbind result_bind bind]; [|done].
    by destruct (mapM f k).
Qed.

Lemma rotate_1_cons {A} (v : A) tl : rotate 1 (v :: tl) = tl ++ [v].
Proof.
  destruct tl as [|w tl]; [done|]. unfold rotate. cbn [length].
  replace (1 mod S (S (length tl)))%nat with 1%nat; [done|].
  symmetry. apply Nat.mod_small. lia.
Qed.

Lemma zip_app_short {A B} (l l' : list A) (k : list B) :
  (length k <= length l)%nat -> zip (l ++ l') k = zip l k.
Proof.
  revert k. induction l as [|a l IH]; intros [|b k] H; cbn in *;
    try done; try lia.
  - by destruct l'.
  - f_equal. apply IH. lia.
Qed.

(** A path cut at one of its points: the consecutive pairs of the whole
    are those of the two parts. *)
Lemma path_split {A} (x : list A) y z :
  zip (x ++ y :: z) (tail (x ++ y :: z))
  = zip (x ++ [y]) (tail (x ++ [y])) ++ zip (y :: z) (tail (y :: z)).
Proof.
  induction x as [|a x IH]; [done|].
  destruct x as [|b x]; [done|].
  cbn in *. f_equal. exact IH.
Qed.

Lemma number_edges_closed_path v tl :
  EvenOdd.edges (v :: tl) = zip (v :: tl ++ [v]) (tail (v :: tl ++ [v])).
Proof.
  unfold EvenOdd.edges. rewrite rotate_1_cons. cbn [tail].
  change (v :: tl ++ [v]) with ((v :: tl) ++ [v]).
  rewrite zip_app_short; [done|]. rewrite length_app. cbn. lia.
Qed.

(** The edges of a vertex list started at another vertex: the same
    edges, in rotated order. *)
Lemma number_edges_shift (l1 l2 : list point) :
  exists es1 es2,
    EvenOdd.edges (l1 ++ l2) = es1 ++ es2 /\
    EvenOdd.edges (l2 ++ l1) = es2 ++ es1.
Proof.
  destruct l1 as [|a l1].
  { exists [], (EvenOdd.edges l2). by rewrite !app_nil_r. }
  destruct l2 as [|b l2].
  { exists (EvenOdd.edges (a :: l1)), []. by rewrite !app_nil_r. }
  cbn [app]. rewrite !number_edges_closed_path.
  exists (zip ((a :: l1) ++ [b]) (tail ((a :: l1) ++ [b]))),
         (zip ((b :: l2) ++ [a]) (tail ((b :: l2) ++ [a]))).
  split.
  - replace (a :: (l1 ++ b :: l2) ++ [a]) with ((a :: l1) ++ b :: (l2 ++ [a]))
      by (cbn; by rewrite <- app_assoc).
    apply (path_split (a :: l1) b (l2 ++ [a])).
  - replace (b :: (l2 ++ a :: l1) ++ [b]) with ((b :: l2) ++ a :: (l1 ++ [b]))
      by (cbn; by rewrite <- app_assoc).
    apply (path_split (b :: l2) a (l1 ++ [b])).
Qed.

Lemma crossing_count_shift pt (es1 es2 : list (point * point)) b :
  (bs ← mapM (crosses pt) (es1 ++ es2); Ok (parity bs)) = Ok b ->
  (bs ← mapM (crosses pt) (es2 ++ es1); Ok (parity bs)) = Ok b.
Proof.
  rewrite !mapM_app.
  destruct (mapM (crosses pt) es1) as [bs1|]; cbn [mbind result_bind bind];
    [|done].
  destruct (mapM (crosses pt) es2) as [bs2|]; cbn [mbind result_bind bind];
    [|done].
  rewrite !parity_app. by rewrite xorb_comm.
Qed.

End NumberResults.

(** C4, as amended.  For every vertex list (convex or not) and every
    point, [point_in_polygon] returns the answer of the even-odd crossing
    count evaluated in the same floating-point arithmetic, and raises
    what that count raises: horizontal edges never count, [xinters] is
    never taken over from an earlier edge, and an edge counts when the
    point is within its height (upper end included, lower end excluded),
    not to the right of both ends and not to the right of the rounded
    crossing. *)
Theorem point_in_polygon_agrees_with_crossing_count
    (pt : Numeric.point) (vertices : list Numeric.point) :
  Numeric.point_in_polygon pt vertices
  = EvenOdd.crossing_count pt vertices.
Proof.
  unfold EvenOdd.crossing_count.
  pose proof (point_in_polygon_spec pt vertices) as H.
  by destruct (mapM (EvenOdd.crosses pt) (EvenOdd.edges vertices)).
Qed.

(** C4, as stated, fails within rounding distance of an edge.  The
    triangle (0,0), (1,10), (0,10) is convex.  The double [0.1] is
    greater than 1/10, so the point (0.1, 1) lies strictly to the right
    of the edge from (0,0) to (1,10): it is outside the triangle and on
    none of its edges, and the even-odd test evaluated exactly answers
    [False], whichever way points on an edge are treated.  The code
    computes [xinters = 0.1] and answers [True]. *)
Lemma point_in_polygon_differs_near_edge :
  let pt := (PyNumber.decimal 1 10, PyNumber.PyInt 1) in
  let vertices := [(PyNumber.PyInt 0, PyNumber.PyInt 0);
                   (PyNumber.PyInt 1, PyNumber.PyInt 10);
                   (PyNumber.PyInt 0, PyNumber.PyInt 10)] in
  Numeric.point_in_polygon pt vertices = Ok true /\
  convex (map EvenOdd.exact_point vertices) = true /\
  on_boundary (EvenOdd.exact_point pt) (map EvenOdd.exact_point vertices)
  = false /\
  reference_even_odd (EvenOdd.exact_point pt)
    (map EvenOdd.exact_point vertices) = false /\
  Geometry.point_in_polygon (EvenOdd.exact_point pt)
    (map EvenOdd.exact_point vertices) = Ok false.
Proof. repeat split; vm_compute; reflexivity. Qed.

(** C5, as amended.  [point_in_polygon] raises nothing but what the
    arithmetic of [xinters] raises on an edge whose ends differ in
    height: no index is out of range, [xinters] is never read before it
    is assigned, and there is no division on an edge with [y1 == y2].
    [ZeroDivisionError] needs [y1] and [y2] of different kinds (an [int]
    and a [float] whose difference rounds to zero).  With [float]
    vertices and a point whose coordinates are [float]s or [int]s below
    [2^1023] in magnitude, the call returns a boolean. *)
Theorem point_in_polygon_raises_only_in_xinters
    (pt : Numeric.point) (vertices : list Numeric.point) :
  (forall err,
     Numeric.point_in_polygon pt vertices = Raise err ->
     exists x1 y1 x2 y2,
       ((x1, y1), (x2, y2)) ∈ EvenOdd.edges vertices /\
       PyNumber.ne y1 y2 = true /\
       EvenOdd.xinters_of pt ((x1, y1), (x2, y2)) = Raise err /\
       (err = OverflowError \/
        err = ZeroDivisionError /\ PyNumber.same_kind y1 y2 = false)) /\
  (Forall (fun v => EvenOdd.double_point v = true) vertices ->
   EvenOdd.converts_point pt = true ->
   exists b, Numeric.point_in_polygon pt vertices = Ok b).
Proof.
  split.
  - intros err H%point_in_polygon_raises_with.
    apply mapM_raises in H as ([[x1 y1] [x2 y2]] & Hin & Hc).
    apply crosses_raises in Hc as (Hne & Hx & Hk).
    by exists x1, y1, x2, y2.
  - intros Hv Hp. rewrite Forall_forall in Hv.
    destruct (mapM_returns (EvenOdd.crosses pt) (EvenOdd.edges vertices))
      as [bs E].
    2:{ exists (parity bs).
        pose proof (point_in_polygon_spec pt vertices) as H.
        by rewrite E in H. }
    intros [[x1 y1] [x2 y2]] [Ha Hb]%number_edges_elem.
    apply crosses_returns; [done|by apply Hv..].
Qed.

Lemma point_in_polygon_raises_only_in_xinters_witness :
  (exists x1 y1 x2 y2,
     ((x1, y1), (x2, y2))
       ∈ EvenOdd.edges [(PyNumber.PyInt 0, PyNumber.PyInt 0);
                        (PyNumber.decimal 1 2, PyNumber.PyInt (2 * 10 ^ 400))] /\
     PyNumber.ne y1 y2 = true /\
     (OverflowError = OverflowError \/
      OverflowError = ZeroDivisionError /\ PyNumber.same_kind y1 y2 = false)) /\
  (exists b,
     Numeric.point_in_polygon (PyNumber.PyInt 10, PyNumber.PyInt 5)
       [(PyNumber.decimal 20 1, PyNumber.decimal (-20) 1);
        (PyNumber.decimal 20 1, PyNumber.decimal 20 1);
        (PyNumber.decimal (-20) 1, PyNumber.decimal 20 1);
        (PyNumber.decimal (-20) 1, PyNumber.decimal (-20) 1)] = Ok b).
Proof.
  split.
  - destruct (point_in_polygon_raises_only_in_xinters
                (PyNumber.PyInt 0, PyNumber.PyInt (10 ^ 400))
                [(PyNumber.PyInt 0, PyNumber.PyInt 0);
                 (PyNumber.decimal 1 2, PyNumber.PyInt (2 * 10 ^ 400))])
      as [H _].
    destruct (H OverflowError) as (x1 & y1 & x2 & y2 & Hin & Hne & _ & Hk).
    { vm_compute. reflexivity. }
    exists x1, y1, x2, y2. split; [exact Hin|]. split; [exact Hne|exact Hk].
  - destruct (point_in_polygon_raises_only_in_xinters
                (PyNumber.PyInt 10, PyNumber.PyInt 5)
                [(PyNumber.decimal 20 1, PyNumber.decimal (-20) 1);
                 (PyNumber.decimal 20 1, PyNumber.decimal 20 1);
                 (PyNumber.decimal (-20) 1, PyNumber.decimal 20 1);
                 (PyNumber.decimal (-20) 1, PyNumber.decimal (-20) 1)])
      as [_ H].
    apply H.
    + repeat constructor.
    + vm_compute. reflexivity.
Defined.

(** C5, as stated, fails.  With [y = 2^53 + 1] and an edge from height
    [2^53] as a [float] to height [2^53 + 1] as an [int], the test
    [y1 != y2] succeeds, since an [int] and a [float] are compared
    exactly, but [y2 - y1] converts the [int] first and is [0.0]: the
    division raises [ZeroDivisionError]. *)
Lemma point_in_polygon_raises_zero_division :
  Numeric.point_in_polygon
    (PyNumber.PyInt 0, PyNumber.PyInt 9007199254740993)
    [(PyNumber.PyInt 0, PyNumber.decimal 9007199254740992 1);
     (PyNumber.PyInt 1, PyNumber.PyInt 9007199254740993);
     (PyNumber.PyInt 0, PyNumber.PyInt 9007199254740994)]
  = Raise ZeroDivisionError.
Proof. vm_compute. reflexivity. Qed.

(* ===================================================================== *)
(** * Results on the mechanics hit test *)
(* ===================================================================== *)

Section HitTest.

Import Geometry.

(** On a circle, [point_in_shape] is the inclusive distance test,
    whatever object is passed as [self]. *)
Lemma point_in_shape_circle attrs (p : Point) body shape r :
  geometry shape = Circle r ->
  exists b : bool,
    point_in_shape attrs p body shape = Ok b /\
    (b = true <->
     (fst p - fst (position body)) ^ 2 + (snd p - snd (position body)) ^ 2
     <= r ^ 2).
Proof.
  intros Hg. unfold point_in_shape. rewrite Hg.
  destruct (position body) as [cx cy]. cbn [fst snd].
  eexists. split; [reflexivity|].
  destruct (le_b_spec ((fst p - cx) * (fst p - cx) + (snd p - cy) * (snd p - cy))
              (r * r)) as [H|H]; split; intros; try done; lra.
Qed.

Lemma point_in_shape_not_a_method :
  ("point_in_shape" ∉ PhysicsSandbox_attributes) /\
  ("point_in_shape" ∈ module_functions).
Proof.
  split; [|by left].
  apply (bool_decide_eq_false_1 _). vm_compute. reflexivity.
Qed.

Lemma self_getattr_missing attrs name :
  name ∉ attrs -> self_getattr attrs name = Raise (AttributeError name).
Proof. intros H. unfold self_getattr. by rewrite bool_decide_eq_false_2. Qed.

Lemma self_getattr_found attrs name :
  name ∈ attrs -> self_getattr attrs name = Ok ().
Proof. intros H. unfold self_getattr. by rewrite bool_decide_eq_true_2. Qed.

(** With at least one tracked object the loop fails on its first
    iteration, before any hit test is evaluated. *)
Lemma pick_raises attrs m pos objs :
  "point_in_shape" ∉ attrs -> objs <> [] ->
  pick attrs m pos objs = Raise (AttributeError "point_in_shape").
Proof.
  intros Hmiss Hne. destruct objs as [|obj rest]; [done|].
  cbn [pick]. by rewrite self_getattr_missing.
Qed.

(** With no tracked object there is nothing to look up: no match and no
    error. *)
Lemma pick_nothing attrs m pos : pick attrs m pos [] = Ok None.
Proof. reflexivity. Qed.

(** Had the two functions been methods of the class, a single circle
    would be picked exactly by the inclusive distance test. *)
Lemma pick_circle_as_method m (pos : Pixel) obj r :
  geometry (shape_store m !!! obj_shape obj) = Circle r ->
  exists b : bool,
    pick intended_attributes m pos [obj]
    = Ok (if b then Some obj else None) /\
    (b = true <->
     let c := position (body_store m !!! obj_body obj) in
     (inject_Z (fst pos) - fst c) ^ 2 + (inject_Z (snd pos) - snd c) ^ 2
     <= r ^ 2).
Proof.
  intros Hg. cbn [pick].
  rewrite self_getattr_found
    by (apply (bool_decide_eq_true_1 _); vm_compute; reflexivity).
  destruct (point_in_shape_circle intended_attributes (to_point pos)
              (body_store m !!! obj_body obj) _ r Hg) as (b & E & Hb).
  exists b. cbn [mbind result_bind bind]. rewrite E.
  cbn [mbind result_bind bind]. split; [by destruct b|]. exact Hb.
Qed.

Lemma find_indexed_none {A} (f : A -> bool) l : forall k,
  existsb f l = false -> find_indexed f l k = None.
Proof.
  induction l as [|x l IH]; intros k H; [done|].
  cbn in *. apply orb_false_iff in H as [-> H]. by apply IH.
Qed.

End HitTest.

(** C3.  In mechanics mode, a press that lands on no active button or
    slider, while the list of tracked objects is not empty, raises
    [AttributeError] for [point_in_shape] instead of selecting an object:
    [handle_mechanics_click] does so, and so does [handle_events] when the
    press is the first pending event.  The name [point_in_shape] is bound
    in the module, not among the attributes of [PhysicsSandbox]. *)
Theorem mechanics_click_raises_attribute_error (i : Input) (s : State)
    (later : list Event) :
  mode s = MECHANICS ->
  hits_ui_control s (mouse_pos i) = false ->
  objects (mech s) <> [] ->
  ("point_in_shape" ∉ PhysicsSandbox_attributes) /\
  ("point_in_shape" ∈ module_functions) /\
  handle_mechanics_click (mouse_pos i) (right_pressed i) s
  = Raise (AttributeError "point_in_shape") /\
  handle_events i (MOUSEBUTTONDOWN :: later) s
  = Raise (AttributeError "point_in_shape").
Proof.
  intros Hmode Hui Hobjs.
  destruct point_in_shape_not_a_method as [Hmiss Hmod].
  assert (handle_mechanics_click (mouse_pos i) (right_pressed i) s
          = Raise (AttributeError "point_in_shape")) as Hclick.
  { unfold handle_mechanics_click, handle_mechanics_click_of.
    by rewrite pick_raises. }
  repeat split; try done.
  unfold hits_ui_control in Hui. apply orb_false_iff in Hui as [Hb Hs].
  unfold handle_events. cbn [handle_events_of handle_event].
  rewrite (find_indexed_none _ _ 0 Hb), (find_indexed_none _ _ 0 Hs).
  unfold dispatch_click. rewrite Hmode.
  fold (handle_mechanics_click (mouse_pos i) (right_pressed i) s).
  by rewrite Hclick.
Qed.

Lemma mechanics_click_raises_attribute_error_witness :
  mode one_circle = MECHANICS /\
  hits_ui_control one_circle (500, 233)%Z = false /\
  objects (mech one_circle) <> [] /\
  handle_mechanics_click (500, 233)%Z false one_circle
  = Raise (AttributeError "point_in_shape") /\
  handle_events (mkInput (500, 233)%Z (true, false, false) (fun _ => (0, 0)%Z))
    [MOUSEBUTTONDOWN; MOUSEBUTTONUP] one_circle
  = Raise (AttributeError "point_in_shape").
Proof.
  assert (mode one_circle = MECHANICS) as H1 by reflexivity.
  assert (hits_ui_control one_circle (500, 233)%Z = false) as H2
    by (vm_compute; reflexivity).
  assert (objects (mech one_circle) <> []) as H3
    by (vm_compute; discriminate).
  destruct (mechanics_click_raises_attribute_error
              (mkInput (500, 233)%Z (true, false, false) (fun _ => (0, 0)%Z))
              one_circle [MOUSEBUTTONUP] H1 H2 H3) as (_ & _ & Hclick & Hevents).
  exact (conj H1 (conj H2 (conj H3 (conj Hclick Hevents)))).
Defined.

(** C2 at a failing input.  After "Add Circle" in a fresh sandbox the only
    tracked object is a circle of radius 20 centred at (500, 233).  A click
    on its centre is at distance 0 from it, yet [handle_mechanics_click]
    raises [AttributeError] and selects nothing. *)
Theorem click_on_circle_centre_raises :
  objects (mech one_circle) = [mkObject 0 3 "circle" "Wood"] /\
  position (body_store (mech one_circle) !!! 0%nat) = (500, 233) /\
  geometry (shape_store (mech one_circle) !!! 3%nat) = Circle 20 /\
  (inject_Z 500 - 500) ^ 2 + (inject_Z 233 - 233) ^ 2 <= 20 ^ 2 /\
  handle_mechanics_click (500, 233)%Z false one_circle
  = Raise (AttributeError "point_in_shape").
Proof. repeat split; try (vm_compute; reflexivity). vm_compute. discriminate. Qed.

(* ===================================================================== *)
(** * Results on mode switching and on adding bodies *)
(* ===================================================================== *)

Lemma room_temperature_grid_uniform : uniform_grid 20 room_temperature_grid.
Proof.
  unfold uniform_grid, room_temperature_grid. split; [reflexivity|].
  apply Forall_replicate. split; [reflexivity|]. by apply Forall_replicate.
Qed.

(** C7.  Switching to mode [m] leaves [m] with an empty entity set (for
    the thermal mode also a grid at 20 degrees everywhere), and leaves
    what the sandbox stores for every other mode as it was; the material
    selection, shared by the modes, is untouched as well. *)
Theorem set_mode_resets_only_target (s : State) (m : Mode) :
  mode (set_mode m s) = m /\
  entities_empty m (set_mode m s) /\
  (m = THERMAL -> uniform_grid 20 (temperature_map (thermal (set_mode m s)))) /\
  (forall m', m' <> m -> same_mode_state m' s (set_mode m s)) /\
  selected_material (set_mode m s) = selected_material s /\
  slider_values (set_mode m s) = slider_values s /\
  selected_button (set_mode m s) = selected_button s.
Proof.
  split; [by destruct m|]. split; [by destruct m|].
  split; [intros ->; apply room_temperature_grid_uniform|].
  split; [|by destruct m].
  intros m' Hne. destruct m, m'; try done.
Qed.

Lemma set_mode_resets_only_target_witness :
  uniform_grid 20 (temperature_map (thermal (set_mode THERMAL one_circle))) /\
  same_mode_state MECHANICS one_circle (set_mode THERMAL one_circle).
Proof.
  destruct (set_mode_resets_only_target one_circle THERMAL)
    as (_ & _ & Hgrid & Hframe & _).
  split; [apply Hgrid; reflexivity|apply (Hframe MECHANICS); discriminate].
Defined.

(** C8.  For every material of the table, with density [d]: [add_circle]
    creates a body of mass [math.pi * r^2 * d] for its radius [r = 20],
    [add_box] a body of mass [w * h * d] for its size [(w, h) = (40, 40)];
    either body, with its shape, is added to the space and entered in
    [objects]. *)
Theorem add_circle_add_box_register (s : State) (name : string)
    (material : Material) :
  MATERIALS !! name = Some material ->
  selected_material s = name ->
  (exists s', add_circle s = Ok s' /\
     let r := 20 in
     registers s s' (math_pi * r ^ 2 * density material) (Circle r)) /\
  (exists s', add_box s = Ok s' /\
     let '(w, h) := (40, 40) in
     registers s s' (w * h * density material) (Poly (box_vertices (w, h)))).
Proof.
  intros Hmat Hsel. split.
  - unfold add_circle, getitem. rewrite Hsel, Hmat.
    cbn [mbind result_bind bind]. eexists. split; [reflexivity|].
    unfold registers. cbn. do 3 eexists.
    repeat split; try reflexivity; try (cbn; ring).
  - unfold add_box, getitem. rewrite Hsel, Hmat.
    cbn [mbind result_bind bind]. eexists. split; [reflexivity|].
    unfold registers. cbn. do 3 eexists.
    repeat split; try reflexivity; try (cbn; ring).
Qed.

Lemma add_circle_add_box_register_witness :
  MATERIALS !! "Metal" = Some (Material_init "Metal" 1 (4 # 10) (5 # 10) GRAY (9 # 10)) /\
  selected_material (set_material "Metal" init) = "Metal" /\
  (exists s', add_circle (set_material "Metal" init) = Ok s' /\
     registers (set_material "Metal" init) s' (math_pi * 20 ^ 2 * 1) (Circle 20)) /\
  (exists s', add_box (set_material "Metal" init) = Ok s' /\
     registers (set_material "Metal" init) s' (40 * 40 * 1)
       (Poly (box_vertices (40, 40)))).
Proof.
  assert (MATERIALS !! "Metal"
          = Some (Material_init "Metal" 1 (4 # 10) (5 # 10) GRAY (9 # 10)))
    as H1 by (vm_compute; reflexivity).
  split; [exact H1|]. split; [reflexivity|].
  exact (add_circle_add_box_register (set_material "Metal" init) "Metal" _
           H1 eq_refl).
Defined.

(* ===================================================================== *)
(** * Results on the thermal mode *)
(* ===================================================================== *)

Section ThermalFacts.

Lemma sqrt_lt_iff d2 r :
  sqrt_lt d2 r = true <-> (0 < r /\ d2 < r ^ 2)%Z.
Proof.
  unfold sqrt_lt. rewrite andb_true_iff, Z.ltb_lt, Z.ltb_lt.
  replace (r ^ 2)%Z with (r * r)%Z by lia. done.
Qed.

(** The same test through the integer square root: the square root of
    [d2] is below the integer [r] exactly when its integer part is. *)
Lemma sqrt_lt_floor d2 r :
  (0 <= d2)%Z ->
  sqrt_lt d2 r = true <-> (0 < r /\ Z.sqrt d2 < r)%Z.
Proof.
  intros Hd. rewrite sqrt_lt_iff.
  replace (r ^ 2)%Z with (r * r)%Z by lia.
  split; intros [Hr H]; (split; [exact Hr|]).
  - apply Z.sqrt_lt_square; [exact Hd|lia|exact H].
  - apply Z.sqrt_lt_square in H; [exact H|exact Hd|lia].
Qed.

Lemma collidepoint_iff r p :
  collidepoint r p = true <->
  (rx r <= fst p < rx r + rw r /\ ry r <= snd p < ry r + rh r)%Z.
Proof.
  destruct p as [px py]. unfold collidepoint. cbn [fst snd].
  rewrite !andb_true_iff, !Z.leb_le, !Z.ltb_lt. lia.
Qed.

(** What one iteration of the loop of [handle_thermal_click] does to the
    entity it visits. *)
Lemma heat_click_spec (p : Pixel) (h : HeatEntity) :
  (covers h p ->
   entity_temperature (heat_click p h) = entity_temperature h + 10 /\
   same_but_temperature h (heat_click p h)) /\
  (~ covers h p -> heat_click p h = h).
Proof.
  destruct h as [pos r t w|rect m t k]; cbn [covers heat_click].
  - destruct (sqrt_lt _ r) eqn:E.
    + split; [done|]. intros C. exfalso. apply C. by apply sqrt_lt_iff.
    + split; [|done]. intros C%sqrt_lt_iff. congruence.
  - destruct (collidepoint rect p) eqn:E.
    + split; [done|]. intros C. exfalso. apply C. by apply collidepoint_iff.
    + split; [|done]. intros C%collidepoint_iff. congruence.
Qed.

Lemma entity_set_temperature_spec v h :
  entity_temperature (entity_set_temperature v h) = v /\
  same_but_temperature h (entity_set_temperature v h).
Proof. by destruct h. Qed.

End ThermalFacts.

(** C9.  A thermal-mode click at [p] visits every heat entity in place:
    an entity whose footprint contains [p] (a point source at distance
    below its radius, a conductor or insulator whose rectangle contains
    [p]) has its temperature raised by exactly 10 and keeps its other
    fields; an entity whose footprint does not contain [p] is unchanged.
    Nothing else in the sandbox changes. *)
Theorem thermal_click_heats_footprint (p : Pixel) (s : State) :
  let s' := handle_thermal_click p s in
  length (heat_sources (thermal s')) = length (heat_sources (thermal s)) /\
  (forall k h, heat_sources (thermal s) !! k = Some h ->
     exists h', heat_sources (thermal s') !! k = Some h' /\
       (covers h p ->
        entity_temperature h' = entity_temperature h + 10 /\
        same_but_temperature h h') /\
       (~ covers h p -> h' = h)) /\
  temperature_map (thermal s') = temperature_map (thermal s) /\
  mode s' = mode s /\ mech s' = mech s /\ elec s' = elec s /\
  fluid s' = fluid s.
Proof.
  cbn. split; [by rewrite length_map|]. split; [|done].
  intros k h Hk. exists (heat_click p h). split.
  - by rewrite list_lookup_fmap, Hk.
  - apply heat_click_spec.
Qed.

Lemma thermal_click_heats_footprint_witness :
  let source := PointSource (500, 350)%Z 30 200 50 in
  let rod := RectElement (mkRect 400 340 200 20) "Metal" 20 (9 # 10) in
  let s' := handle_thermal_click (510, 360)%Z
              (with_heat_sources [source; rod] init) in
  covers source (510, 360)%Z /\
  ~ covers rod (510, 360)%Z /\
  (exists h', heat_sources (thermal s') !! 0%nat = Some h' /\
              entity_temperature h' = 200 + 10 /\
              same_but_temperature source h') /\
  (exists h', heat_sources (thermal s') !! 1%nat = Some h' /\ h' = rod).
Proof.
  intros source rod s'.
  assert (covers source (510, 360)%Z) as C1 by (cbn; lia).
  assert (~ covers rod (510, 360)%Z) as C2 by (cbn; lia).
  split; [exact C1|]. split; [exact C2|].
  destruct (thermal_click_heats_footprint (510, 360)%Z
              (with_heat_sources [source; rod] init)) as (_ & H & _).
  split.
  - destruct (H 0%nat source eq_refl) as (h0 & E0 & K0 & _).
    exists h0. split; [exact E0|]. exact (K0 C1).
  - destruct (H 1%nat rod eq_refl) as (h1 & E1 & _ & K1).
    exists h1. split; [exact E1|]. exact (K1 C2).
Defined.

(** C10.  The thermal [Temperature] setter assigns the slider value to
    every entity of [heat_sources], point sources, conductors and
    insulators alike, and leaves their other fields, the grid and the rest
    of the sandbox as they were.  In particular it overwrites the default
    200 of a point source and any +10 earned by clicks. *)
Theorem set_temperature_overwrites_all (v : Q) (s : State) :
  let s' := set_temperature v s in
  Forall2 (fun h h' => entity_temperature h' = v /\ same_but_temperature h h')
    (heat_sources (thermal s)) (heat_sources (thermal s')) /\
  temperature_map (thermal s') = temperature_map (thermal s) /\
  mode s' = mode s /\ mech s' = mech s /\ elec s' = elec s /\
  fluid s' = fluid s /\
  (forall p : Pixel,
     Forall (fun h => entity_temperature h = v)
       (heat_sources
          (thermal (set_temperature v
                      (handle_thermal_click p (add_heat_source s)))))).
Proof.
  cbn. split.
  - apply Forall2_fmap_r, Forall_Forall2_diag, Forall_forall.
    intros h _. apply entity_set_temperature_spec.
  - repeat split. intros p. apply Forall_fmap, Forall_forall.
    intros h _. apply entity_set_temperature_spec.
Qed.

(* ===================================================================== *)
(** * Results on the circuit solver *)
(* ===================================================================== *)

Section CircuitFacts.

Import Circuit.

Lemma any_switch_off_iff cs :
  any_switch_off cs = true <->
  exists c, c ∈ cs /\ c_type c = SWITCH /\ c_on c = false.
Proof.
  unfold any_switch_off. rewrite existsb_exists. split.
  - intros (c & Hin & H). apply andb_true_iff in H as [H1 H2].
    exists c. split; [by apply list_elem_of_In|].
    split; [by apply bool_decide_eq_true in H1|by destruct (c_on c)].
  - intros (c & Hin & H1 & H2). exists c.
    split; [by apply list_elem_of_In|].
    by rewrite bool_decide_eq_true_2, H2.
Qed.

Lemma circuit_current_cases cs :
  exists i, circuit_current cs = Ok i /\
    (any_switch_off cs = false -> ~ total_resistance cs == 0 ->
     i = total_emf cs / total_resistance cs) /\
    (any_switch_off cs = true -> i = 0) /\
    (total_resistance cs == 0 -> i = 0).
Proof.
  unfold circuit_current, truediv.
  destruct (any_switch_off cs); [exists 0; repeat split; done|].
  destruct (eq_b_spec (total_resistance cs) 0) as [E|E].
  - exists 0. repeat split; done.
  - eexists. split; [reflexivity|]. repeat split; done.
Qed.

End CircuitFacts.

(** C1.  For a circuit whose batteries sum to [E] and whose resistors and
    bulbs sum to [R], [Solve] raises nothing and reports: the current
    [E / R] when no switch is off and [R] is not zero; the current 0 when
    some switch is off; the current 0 when [R] is zero. *)
Theorem solve_current (cs : list ElectricalComponent) :
  let E := Circuit.total_emf cs in
  let R := Circuit.total_resistance cs in
  exists sol, Circuit.Solve cs = Ok sol /\
    (Circuit.any_switch_off cs = false -> ~ R == 0 ->
     Circuit.current sol == E / R) /\
    (Circuit.any_switch_off cs = true -> Circuit.current sol == 0) /\
    (R == 0 -> Circuit.current sol == 0).
Proof.
  cbn. destruct (circuit_current_cases cs) as (i & Ei & H1 & H2 & H3).
  unfold Circuit.Solve. rewrite Ei. cbn [mbind result_bind bind].
  eexists. split; [reflexivity|]. cbn [Circuit.current].
  split; [|split].
  - intros A B. by rewrite (H1 A B).
  - intros A. by rewrite (H2 A).
  - intros A. by rewrite (H3 A).
Qed.

Lemma solve_current_witness :
  let battery := ElectricalComponent_init BATTERY screen_centre in
  let resistor := ElectricalComponent_init RESISTOR screen_centre in
  let switch := component_toggle (ElectricalComponent_init SWITCH screen_centre) in
  (exists sol, Circuit.Solve [battery; resistor] = Ok sol /\
               Circuit.current sol == 9 / 100) /\
  (exists sol, Circuit.Solve [battery; resistor; switch] = Ok sol /\
               Circuit.current sol == 0) /\
  (exists sol, Circuit.Solve [battery] = Ok sol /\ Circuit.current sol == 0).
Proof.
  intros battery resistor switch. split; [|split].
  - destruct (solve_current [battery; resistor]) as (sol & E & H & _ & _).
    exists sol. split; [exact E|].
    rewrite H; [reflexivity|reflexivity|by vm_compute].
  - destruct (solve_current [battery; resistor; switch])
      as (sol & E & _ & H & _).
    exists sol. split; [exact E|]. apply H. reflexivity.
  - destruct (solve_current [battery]) as (sol & E & _ & _ & H).
    exists sol. split; [exact E|]. apply H. reflexivity.
Defined.

(* ===================================================================== *)
(** * Stores updated through a list of references *)
(* ===================================================================== *)

Section Stores.

Context {A B : Type} (f : A -> A) (g : B -> nat).

Lemma foldl_alter_length (l : list B) : forall st : list A,
  length (foldl (fun st x => alter f (g x) st) st l) = length st.
Proof.
  induction l as [|x l IH]; intros st; [done|].
  cbn. by rewrite IH, length_alter.
Qed.

(** A store altered at each reference of [l] by an idempotent update: a
    cell is updated exactly when some reference of [l] names it. *)
Lemma foldl_alter_lookup (Hidem : forall a, f (f a) = f a) (l : list B) :
  forall (st : list A) (i : nat),
    foldl (fun st x => alter f (g x) st) st l !! i
    = (if bool_decide (i ∈ map g l) then f else id) <$> st !! i.
Proof.
  induction l as [|x l IH]; intros st i.
  - cbn. by destruct (st !! i).
  - cbn [foldl map]. rewrite IH.
    destruct (decide (i = g x)) as [->|Hne].
    + rewrite list_lookup_alter_eq.
      rewrite (bool_decide_eq_true_2 (g x ∈ g x :: map g l)) by left.
      destruct (st !! g x) as [a|]; cbn; [|done].
      case_bool_decide; cbn; by rewrite ?Hidem.
    + rewrite list_lookup_alter_ne by done.
      rewrite (bool_decide_ext (i ∈ g x :: map g l) (i ∈ map g l)); [done|].
      rewrite elem_of_cons. split; [intros [?|?]; [congruence|done]|by right].
Qed.

End Stores.

(* ===================================================================== *)
(** * What every reachable state satisfies *)
(* ===================================================================== *)

Section Invariant.

Lemma clamp_in_range lo hi v :
  lo <= hi -> lo <= py_max lo (py_min hi v) <= hi.
Proof.
  intros H. unfold py_max, py_min.
  destruct (lt_b_spec v hi);
    match goal with |- context [lt_b lo ?a] => destruct (lt_b_spec lo a) end;
    lra.
Qed.

Lemma sliders_ordered :
  Forall (fun sl => min_value sl <= max_value sl /\ rw (s_rect sl) <> 0%Z)
    create_sliders.
Proof. repeat constructor; (by vm_compute) || discriminate. Qed.

Lemma init_invariant : invariant init.
Proof.
  unfold invariant. split; [by apply (bool_decide_unpack _); vm_compute|].
  split.
  { repeat constructor; by vm_compute. }
  split.
  { unfold mech_ok. cbn. repeat split; try done; repeat constructor.
    all: cbn; lia. }
  split.
  { unfold elec_ok. cbn. repeat split; try done; constructor. }
  split.
  { unfold fluid_ok. cbn. split; [by left|constructor]. }
  unfold thermal_ok. cbn. split; [done|constructor].
Qed.

(** ** Mechanics *)

Lemma mech_ok_boundaries m : mech_ok m -> mech_ok (create_boundaries m).
Proof.
  intros (Hsel & Hforce & Hobj & Hb & Hs & Hnb & Hns & Hrest).
  unfold mech_ok, create_boundaries. cbn. rewrite ?app_nil_r.
  repeat split; try assumption.
  - eapply Forall_impl; [exact Hobj|]. intros obj [? ?]. split; [done|].
    apply elem_of_app. by left.
  - rewrite !length_app. cbn. apply Forall_app. split.
    + eapply Forall_impl; [exact Hs|]. intros; cbn in *; lia.
    + repeat constructor; lia.
Qed.

Lemma mech_ok_fresh_space m :
  mech_ok m -> mech_ok (with_objects [] (with_space fresh_space m)).
Proof.
  intros (Hsel & Hforce & Hobj & Hb & Hs & Hnb & Hns & Hrest).
  unfold mech_ok. cbn. repeat split; try assumption; constructor.
Qed.

Lemma with_objects_boundaries m :
  with_objects [] (create_boundaries (with_space fresh_space m))
  = create_boundaries (with_objects [] (with_space fresh_space m)).
Proof. reflexivity. Qed.

Lemma mech_ok_alloc_body m b :
  mech_ok m -> at_rest b ->
  mech_ok (with_body_store (alloc (body_store m) b).2 m).
Proof.
  intros (Hsel & Hforce & Hobj & Hb & Hs & Hnb & Hns & Hrest) Hat.
  unfold mech_ok. cbn. repeat split; try assumption.
  - eapply Forall_impl; [exact Hb|]. intros ? ?. rewrite length_app. cbn in *. lia.
  - apply Forall_app. split; [done|by constructor].
Qed.

Lemma mech_ok_extend m m' body shape cs type material :
  mech_ok m -> at_rest body ->
  body_store m' = body_store m ++ [body] ->
  shape_store m' = shape_store m ++ [shape] ->
  space m' = space_add [length (body_store m)] [length (shape_store m)] cs
               (space m) ->
  objects m' = objects m ++ [mkObject (length (body_store m))
                               (length (shape_store m)) type material] ->
  selected_object m' = selected_object m ->
  applying_force m' = applying_force m ->
  force_start_pos m' = force_start_pos m ->
  mech_ok m'.
Proof.
  intros (Hsel & Hforce & Hobj & Hb & Hs & Hnb & Hns & Hrest) Hat
    E1 E2 E3 E4 E5 E6 E7.
  unfold mech_ok. rewrite E1, E2, E3, E4, E5, E6, E7. cbn. rewrite !map_app. cbn.
  repeat split; try assumption.
  - apply Forall_app. split.
    + eapply Forall_impl; [exact Hobj|]. intros obj [? ?].
      split; apply elem_of_app; by left.
    + constructor; [|constructor]. cbn.
      split; apply elem_of_app; right; by left.
  - rewrite length_app. apply Forall_app. split.
    + eapply Forall_impl; [exact Hb|]. intros; cbn in *; lia.
    + repeat constructor. cbn. lia.
  - rewrite length_app. apply Forall_app. split.
    + eapply Forall_impl; [exact Hs|]. intros; cbn in *; lia.
    + repeat constructor. cbn. lia.
  - apply NoDup_app. split; [done|]. split; [|apply NoDup_singleton].
    intros b Hin Hb'. apply list_elem_of_singleton in Hb'. subst b.
    apply list_elem_of_fmap in Hin as (obj & Heq & Hin).
    rewrite Forall_forall in Hobj. destruct (Hobj obj Hin) as [Hbody _].
    rewrite Forall_forall in Hb. specialize (Hb _ Hbody). lia.
  - apply NoDup_app. split; [done|]. split; [|apply NoDup_singleton].
    intros b Hin Hb'. apply list_elem_of_singleton in Hb'. subst b.
    apply list_elem_of_fmap in Hin as (obj & Heq & Hin).
    rewrite Forall_forall in Hobj. destruct (Hobj obj Hin) as [_ Hshape].
    rewrite Forall_forall in Hs. specialize (Hs _ Hshape). lia.
  - apply Forall_app. split; [done|by constructor].
Qed.

Lemma mech_ok_set_mode m :
  mech_ok m ->
  mech_ok (with_objects [] (create_boundaries (with_space fresh_space m))).
Proof.
  intros H. rewrite with_objects_boundaries.
  by apply mech_ok_boundaries, mech_ok_fresh_space.
Qed.

Lemma known_material_lookup s :
  is_Some (MATERIALS !! selected_material s) ->
  exists material, getitem MATERIALS (selected_material s) = Ok material.
Proof. intros [material H]. exists material. unfold getitem. by rewrite H. Qed.

Lemma at_rest_spawn m i : at_rest (mkBody DYNAMIC m i spawn_point (0, 0)).
Proof. split; [done|]. cbn. by left. Qed.

Lemma at_rest_hanging m i :
  at_rest (mkBody DYNAMIC m i (to_point (WIDTH / 2, 250)%Z) (0, 0)).
Proof. split; [done|]. cbn. right. right. by left. Qed.

Lemma at_rest_static : at_rest (static_body_at (WIDTH / 2, 100)%Z).
Proof. split; [done|]. cbn. right. by left. Qed.

(** The four [add_*] methods of the mechanics mode succeed when the
    selected material is known, and keep [mech_ok]. *)
Lemma add_body_ok s :
  is_Some (MATERIALS !! selected_material s) -> mech_ok (mech s) ->
  Forall (fun add =>
            exists m', add s = Ok (with_mech m' s) /\ mech_ok m')
    [add_circle; add_box; add_pendulum; add_spring].
Proof.
  intros Hmat Hm. destruct (known_material_lookup s Hmat) as [material E].
  repeat constructor.
  - unfold add_circle. rewrite E. cbn [mbind result_bind bind].
    eexists. split; [reflexivity|].
    eapply (mech_ok_extend (mech s)); [exact Hm|apply at_rest_spawn|reflexivity..].
  - unfold add_box. rewrite E. cbn [mbind result_bind bind].
    eexists. split; [reflexivity|].
    eapply (mech_ok_extend (mech s)); [exact Hm|apply at_rest_spawn|reflexivity..].
  - unfold add_pendulum. cbn [alloc]. rewrite E. cbn [mbind result_bind bind].
    eexists. split; [reflexivity|].
    eapply (mech_ok_extend (with_body_store _ (mech s)));
      [exact (mech_ok_alloc_body _ _ Hm at_rest_static)
      |apply at_rest_hanging|reflexivity..].
  - unfold add_spring. cbn [alloc]. rewrite E. cbn [mbind result_bind bind].
    eexists. split; [reflexivity|].
    eapply (mech_ok_extend (with_body_store _ (mech s)));
      [exact (mech_ok_alloc_body _ _ Hm at_rest_static)
      |apply at_rest_hanging|reflexivity..].
Qed.

(** ** Electricity *)

Lemma elec_ok_add_component t s :
  elec_ok (elec s) -> elec_ok (elec (add_component t s)).
Proof.
  intros (Hc & Hnd & Hsel & Hw & Hcs & Hv & Hi).
  unfold elec_ok, add_component. cbn. rewrite length_app. cbn.
  repeat split; try assumption.
  - apply Forall_app. split.
    + eapply Forall_impl; [exact Hc|]. intros; cbn in *; lia.
    + repeat constructor. lia.
  - apply NoDup_app. split; [done|]. split; [|apply NoDup_singleton].
    intros c Hin Hc'. apply list_elem_of_singleton in Hc'. subst c.
    rewrite Forall_forall in Hc. specialize (Hc _ Hin). lia.
  - intros c [= <-]. lia.
Qed.

Lemma elec_ok_store e store sel drag :
  elec_ok e -> length store = length (component_store e) ->
  (forall c, sel = Some c -> (c < length store)%nat) ->
  elec_ok (mkElectricity store (components e) (wires e) sel drag
             (circuit_solved e) (voltages e) (currents e)).
Proof.
  intros (Hc & Hnd & Hsel & Hw & Hcs & Hv & Hi) Hlen Hsel'.
  unfold elec_ok. cbn. rewrite Hlen. repeat split; try assumption.
  intros c Hc'. rewrite <- Hlen. by apply Hsel'.
Qed.

Lemma elec_ok_set_value t v s :
  elec_ok (elec s) -> elec_ok (elec (set_value_of t v s)).
Proof.
  intros H. unfold set_value_of. cbn.
  apply elec_ok_store; [done|apply foldl_alter_length|].
  intros c Hc. rewrite foldl_alter_length. by apply H.
Qed.

Lemma find_elem_of {A} (f : A -> bool) l x :
  List.find f l = Some x -> x ∈ l /\ f x = true.
Proof.
  intros H. apply find_some in H as [Hin Hf]. split; [|done].
  by apply list_elem_of_In.
Qed.

Lemma elec_ok_click p s :
  elec_ok (elec s) -> elec_ok (elec (handle_electricity_click p s)).
Proof.
  intros H. unfold handle_electricity_click.
  destruct (List.find _ _) as [c|] eqn:E; [|done]. cbn.
  apply find_elem_of in E as [Hin _].
  assert ((c < length (component_store (elec s)))%nat) as Hlt.
  { destruct H as (Hc & _). rewrite Forall_forall in Hc. by apply Hc. }
  apply elec_ok_store; [done| |].
  - case_decide; [apply length_alter|done].
  - intros c' [= <-]. case_decide; [by rewrite length_alter|done].
Qed.

Lemma elec_ok_motion p s :
  elec_ok (elec s) -> elec_ok (elec (handle_electricity_motion p s)).
Proof.
  intros H. unfold handle_electricity_motion.
  destruct (dragging_component _); [|done].
  destruct (selected_component _) as [c|] eqn:E; [|done]. cbn.
  apply elec_ok_store; [done|apply length_alter|].
  intros c' [= <-]. rewrite length_alter.
  destruct H as (_ & _ & Hsel & _). by apply Hsel.
Qed.

(** ** Fluid *)

Lemma particle_of_known_fluid pos f :
  f ∈ ["Water"; "Oil"] ->
  is_Some (p_color (Particle_init pos f)) /\
  is_Some (p_density (Particle_init pos f)) /\
  p_velocity (Particle_init pos f) = (0, 0) /\
  p_temperature (Particle_init pos f) = 20.
Proof.
  intros H. apply elem_of_cons in H as [->|H];
    [|apply list_elem_of_singleton in H as ->]; cbn; eauto.
Qed.

Lemma fluid_ok_click p pressed rand s :
  fluid_ok (fluid s) -> fluid_ok (fluid (handle_fluid_click p pressed rand s)).
Proof.
  intros [Hsel Hp]. unfold handle_fluid_click. destruct pressed; [|done].
  split; [done|]. cbn [fluid with_fluid particles].
  apply Forall_app. split; [done|].
  apply Forall_fmap, Forall_forall. intros k _. cbn.
  destruct (rand k). by apply particle_of_known_fluid.
Qed.

(** ** Thermal *)

Lemma as_placed_click p h : as_placed h -> as_placed (heat_click p h).
Proof. destruct h; cbn; [destruct (sqrt_lt _ _)|destruct (collidepoint _ _)]; done. Qed.

Lemma rod_placed material :
  material ∈ ["Metal"; "Wood"] ->
  exists h, rod material = Ok h /\ as_placed h.
Proof.
  intros H. assert (is_Some (MATERIALS !! material)) as [m Hm].
  { apply elem_of_cons in H as [->|H];
      [|apply list_elem_of_singleton in H as ->];
      by apply (bool_decide_unpack _); vm_compute. }
  unfold rod, getitem. rewrite Hm. cbn [mbind result_bind bind].
  eexists. split; [reflexivity|]. by split.
Qed.

Lemma thermal_ok_map (f : HeatEntity -> HeatEntity) s :
  (forall h, as_placed h -> as_placed (f h)) ->
  thermal_ok (thermal s) ->
  thermal_ok (thermal (with_heat_sources (map f (heat_sources (thermal s))) s)).
Proof.
  intros Hf [Hgrid Hh]. split; [done|]. cbn.
  apply Forall_fmap. eapply Forall_impl; [exact Hh|]. exact Hf.
Qed.

Lemma thermal_ok_append h s :
  as_placed h -> thermal_ok (thermal s) ->
  thermal_ok (thermal (with_heat_sources (heat_sources (thermal s) ++ [h]) s)).
Proof.
  intros Hh [Hgrid Hhs]. split; [done|]. cbn.
  apply Forall_app. split; [done|by constructor].
Qed.

End Invariant.

(** Split [invariant] into its six parts and close those that are
    hypotheses. *)
Ltac inv_parts :=
  refine (conj _ (conj _ (conj _ (conj _ (conj _ _))))); try assumption.

Section Steps.

Lemma invariant_set_mode m s : invariant s -> invariant (set_mode m s).
Proof.
  intros (Hmat & Hsl & Hm & He & Hf & Ht).
  destruct m; inv_parts.
  - by apply mech_ok_set_mode.
  - destruct He as (Hc & Hnd & Hsel & Hw & Hcs & Hv & Hi).
    unfold elec_ok. cbn. repeat split; try assumption; constructor.
  - split; [apply Hf|constructor].
  - split; [done|constructor].
Qed.

Lemma buttons_action_ok :
  Forall (fun b => action_ok (b_action b)) create_buttons.
Proof.
  repeat constructor; cbn;
    try (by apply (bool_decide_unpack _); vm_compute);
    try (by left); try (right; by left).
Qed.

Lemma run_action_ok a s :
  action_ok a -> invariant s ->
  exists s', run_action a s = Ok s' /\ invariant s'.
Proof.
  intros Ha Hinv. pose proof Hinv as (Hmat & Hsl & Hm & He & Hf & Ht).
  pose proof (add_body_ok s Hmat Hm) as Hadd.
  apply Forall_cons in Hadd as [(m1 & E1 & H1) Hadd].
  apply Forall_cons in Hadd as [(m2 & E2 & H2) Hadd].
  apply Forall_cons in Hadd as [(m3 & E3 & H3) Hadd].
  apply Forall_cons in Hadd as [(m4 & E4 & H4) _].
  destruct a; cbn [run_action].
  - eexists. split; [reflexivity|]. by apply invariant_set_mode.
  - eexists. split; [reflexivity|]. inv_parts.
  - rewrite E1. eexists. split; [reflexivity|]. inv_parts.
  - rewrite E2. eexists. split; [reflexivity|]. inv_parts.
  - rewrite E3. eexists. split; [reflexivity|]. inv_parts.
  - rewrite E4. eexists. split; [reflexivity|]. inv_parts.
  - eexists. split; [reflexivity|]. inv_parts.
    by apply elec_ok_add_component.
  - eexists. split; [reflexivity|]. inv_parts.
    split; [exact Ha|apply Hf].
  - eexists. split; [reflexivity|]. inv_parts.
  - destruct (known_material_lookup s Hmat) as [material E].
    unfold add_floating_object. rewrite E. cbn [mbind result_bind bind].
    eexists. split; [reflexivity|]. inv_parts.
  - eexists. split; [reflexivity|]. inv_parts.
    by apply (thermal_ok_append (PointSource screen_centre 30 200 50)).
  - destruct (rod_placed "Metal") as (h & E & Hh); [by left|].
    unfold add_thermal_conductor. rewrite E. cbn [mbind result_bind bind].
    eexists. split; [reflexivity|]. inv_parts. by apply thermal_ok_append.
  - destruct (rod_placed "Wood") as (h & E & Hh); [right; by left|].
    unfold add_thermal_insulator. rewrite E. cbn [mbind result_bind bind].
    eexists. split; [reflexivity|]. inv_parts. by apply thermal_ok_append.
Qed.

Lemma mech_ok_shapes m store :
  mech_ok m -> length store = length (shape_store m) ->
  mech_ok (with_shape_store store m).
Proof.
  intros (Hsel & Hforce & Hobj & Hb & Hs & Hnb & Hns & Hrest) Hlen.
  unfold mech_ok. cbn. rewrite Hlen. by repeat split.
Qed.

Lemma run_setter_ok a v s : invariant s -> invariant (run_setter a v s).
Proof.
  intros (Hmat & Hsl & Hm & He & Hf & Ht).
  destruct a; cbn [run_setter]; inv_parts.
  - unfold set_friction. cbn. apply mech_ok_shapes; [done|].
    apply foldl_alter_length.
  - by apply elec_ok_set_value.
  - by apply elec_ok_set_value.
  - apply thermal_ok_map; [|done]. by intros [].
  - apply thermal_ok_map; [|done]. by intros [].
Qed.

Lemma truediv_nonzero a b : ~ b == 0 -> truediv a b = Ok (a / b).
Proof. intros H. unfold truediv. by rewrite eq_b_false. Qed.

Lemma inject_Z_nonzero z : z <> 0%Z -> ~ inject_Z z == 0.
Proof.
  intros H E. apply H. unfold Qeq in E. cbn in E. lia.
Qed.

(** Moving a slider of the table succeeds, stores a value within the
    range of the slider and hands that value to its setter. *)
Lemma move_slider_value k sl pos s :
  create_sliders !! k = Some sl ->
  move_slider k sl pos s
  = Ok (run_setter (s_action sl) (slider_value sl (fst pos))
          (mkState (mode s) (selected_material s) (mech s) (elec s) (fluid s)
             (thermal s) (<[k := slider_value sl (fst pos)]> (slider_values s))
             (selected_button s))) /\
  min_value sl <= slider_value sl (fst pos) <= max_value sl.
Proof.
  intros Hk.
  pose proof sliders_ordered as Hord. rewrite Forall_forall in Hord.
  destruct (Hord sl) as [Hle Hw]; [by eapply list_elem_of_lookup_2|].
  split; [|by apply clamp_in_range].
  unfold move_slider. rewrite truediv_nonzero by by apply inject_Z_nonzero.
  reflexivity.
Qed.

Lemma move_slider_ok k sl pos s :
  create_sliders !! k = Some sl -> invariant s ->
  exists s', move_slider k sl pos s = Ok s' /\ invariant s'.
Proof.
  intros Hk (Hmat & Hsl & Hm & He & Hf & Ht).
  destruct (move_slider_value k sl pos s Hk) as [E Hrange].
  eexists. split; [exact E|]. apply run_setter_ok.
  inv_parts. cbn. unfold sliders_in_range.
  rewrite <- (list_insert_id create_sliders k sl Hk).
  by apply Forall2_insert.
Qed.

End Steps.

Section Events.

Lemma find_indexed_Some {A} (f : A -> bool) l : forall k j x,
  find_indexed f l k = Some (j, x) ->
  exists n, j = (k + n)%nat /\ l !! n = Some x /\ f x = true /\
            forall n' y, (n' < n)%nat -> l !! n' = Some y -> f y = false.
Proof.
  induction l as [|a l IH]; intros k j x H; [done|].
  cbn in H. destruct (f a) eqn:Ea.
  - injection H as <- <-. exists 0%nat. repeat split; [lia|done|]. lia.
  - apply IH in H as (n & -> & Hn & Hf & Hfirst).
    exists (S n). repeat split; [lia|done|done|].
    intros [|n'] y Hlt Hy; [by injection Hy as <-|].
    apply (Hfirst n'); [lia|done].
Qed.

Lemma find_indexed_existsb {A} (f : A -> bool) l k :
  existsb f l = true -> is_Some (find_indexed f l k).
Proof.
  revert k. induction l as [|a l IH]; intros k H; [done|].
  cbn in *. destruct (f a); [by eexists|]. by apply IH.
Qed.

(** The loop of [handle_mechanics_click] on the class as written. *)
Lemma pick_as_written m pos objs :
  pick PhysicsSandbox_attributes m pos objs
  = match objs with
    | [] => Ok None
    | _ :: _ => Raise (AttributeError "point_in_shape")
    end.
Proof.
  destruct objs; [done|].
  apply pick_raises; [apply point_in_shape_not_a_method|done].
Qed.

Lemma with_elec_frame p s :
  handle_electricity_click p s
  = with_elec (elec (handle_electricity_click p s)) s.
Proof.
  unfold handle_electricity_click. destruct (List.find _ _); [done|by destruct s].
Qed.

Lemma with_elec_motion_frame p s :
  handle_electricity_motion p s
  = with_elec (elec (handle_electricity_motion p s)) s.
Proof.
  unfold handle_electricity_motion.
  destruct (dragging_component (elec s)), (selected_component (elec s));
    by destruct s.
Qed.

Lemma with_fluid_frame p pressed rand s :
  handle_fluid_click p pressed rand s
  = with_fluid (fluid (handle_fluid_click p pressed rand s)) s.
Proof. unfold handle_fluid_click. destruct pressed; by destruct s. Qed.

Lemma dispatch_click_ok i s :
  invariant s ->
  match dispatch_click PhysicsSandbox_attributes i s with
  | Ok s' => invariant s'
  | Raise e => e = AttributeError "point_in_shape"
  end.
Proof.
  intros Hinv. pose proof Hinv as (Hmat & Hsl & Hm & He & Hf & Ht).
  unfold dispatch_click. destruct (mode s).
  - unfold handle_mechanics_click_of. rewrite pick_as_written.
    destruct (objects (mech s)) eqn:Eo; [|done].
    cbn [mbind result_bind bind]. destruct (right_pressed i); [|done].
    inv_parts.
    destruct Hm as (Hsel & Hforce & Hobj & Hb & Hs & Hnb & Hns & Hrest).
    unfold mech_ok. cbn.
    repeat split; try assumption; try constructor; by eexists.
  - rewrite with_elec_frame. inv_parts. by apply elec_ok_click.
  - rewrite with_fluid_frame. inv_parts. by apply fluid_ok_click.
  - inv_parts. apply thermal_ok_map; [|done]. apply as_placed_click.
Qed.

Lemma motion_ok i s :
  invariant s ->
  exists s', handle_mechanics_motion (mouse_pos i) (left_pressed i) s = Ok s'
             /\ invariant s' /\ mode s' = mode s /\
             body_store (mech s') = body_store (mech s).
Proof.
  intros Hinv. pose proof Hinv as (Hmat & Hsl & Hm & He & Hf & Ht).
  pose proof Hm as (Hsel & Hforce & Hobj & Hb & Hs & Hnb & Hns & Hrest).
  unfold handle_mechanics_motion. rewrite Hsel.
  destruct (applying_force (mech s)) eqn:Ef.
  - destruct (Hforce eq_refl) as [start Es]. rewrite Es.
    cbn [mbind result_bind bind]. eexists. split; [reflexivity|].
    split; [|done]. inv_parts.
    unfold mech_ok. cbn. repeat split; try assumption. by eexists.
  - eexists. split; [reflexivity|]. split; [|done]. by destruct s.
Qed.

Lemma handle_event_ok i s ev :
  invariant s ->
  match handle_event PhysicsSandbox_attributes i s ev with
  | Ok f => invariant (flow_state f)
  | Raise e => allowed_error e
  end.
Proof.
  intros Hinv. pose proof Hinv as (Hmat & Hsl & Hm & He & Hf & Ht).
  destruct ev as [| | | |key|]; cbn [handle_event].
  - by left.
  - destruct (find_indexed (button_hit _ _) _ _) as [[k b]|] eqn:Eb.
    + apply find_indexed_Some in Eb as (n & _ & Hn & _).
      pose proof buttons_action_ok as Hok. rewrite Forall_forall in Hok.
      destruct (run_action_ok (b_action b) s) as (s' & E & Hs');
        [apply Hok; by eapply list_elem_of_lookup_2|done|].
      rewrite E. cbn. exact Hs'.
    + destruct (find_indexed (slider_hit _ _) _ _) as [[k sl]|] eqn:Es.
      * apply find_indexed_Some in Es as (n & -> & Hn & _).
        destruct (move_slider_ok n sl (mouse_pos i) s Hn Hinv) as (s' & E & Hs').
        cbn [Nat.add]. rewrite E. exact Hs'.
      * pose proof (dispatch_click_ok i s Hinv) as Hd.
        destruct (dispatch_click _ i s); cbn; [done|]. by right.
  - destruct (mode s); cbn; try done.
    + inv_parts.
      destruct Hm as (Hsel & Hforce & Hobj & Hb & Hs & Hnb & Hns & Hrest).
      unfold mech_ok. cbn. repeat split; try assumption. done.
    + inv_parts. by apply elec_ok_store.
  - assert (exists s1,
      match mode s with
      | MECHANICS => handle_mechanics_motion (mouse_pos i) (left_pressed i) s
      | ELECTRICITY => Ok (handle_electricity_motion (mouse_pos i) s)
      | _ => Ok s
      end = Ok s1 /\ invariant s1) as (s1 & E1 & H1).
    { destruct (mode s).
      - destruct (motion_ok i s Hinv) as (s1 & E & H & _). eauto.
      - eexists. split; [reflexivity|]. rewrite with_elec_motion_frame.
        inv_parts. by apply elec_ok_motion.
      - eauto.
      - eauto. }
    rewrite E1. cbn [mbind result_bind bind].
    destruct (find_indexed _ _ _) as [[k sl]|] eqn:Es; [|done].
    apply find_indexed_Some in Es as (n & -> & Hn & _).
    destruct (move_slider_ok n sl (mouse_pos i) s1 Hn H1) as (s' & E & Hs').
    cbn [Nat.add]. rewrite E. exact Hs'.
  - destruct key; lazy beta iota delta [flow_state];
      first [by left | by apply invariant_set_mode | exact Hinv].
  - exact Hinv.
Qed.

Lemma handle_events_ok i events : forall s,
  invariant s ->
  match handle_events i events s with
  | Ok s' => invariant s'
  | Raise e => allowed_error e
  end.
Proof.
  unfold handle_events.
  induction events as [|ev events IH]; intros s Hinv; [done|].
  cbn [handle_events_of].
  pose proof (handle_event_ok i s ev Hinv) as H.
  destruct (handle_event _ i s ev) as [[s'|s']|e]; cbn; [by apply IH|done|done].
Qed.

Lemma reachable_invariant s : reachable s -> invariant s.
Proof.
  induction 1 as [|i events s s' _ IH E]; [apply init_invariant|].
  pose proof (handle_events_ok i events s IH) as H. by rewrite E in H.
Qed.

End Events.

(* ===================================================================== *)
(** * The layout of the controls *)
(* ===================================================================== *)

Section Controls.

Lemma rects_apart_spec r1 r2 p :
  rects_apart r1 r2 = true ->
  collidepoint r1 p = true -> collidepoint r2 p = true -> False.
Proof.
  destruct p as [px py]. unfold rects_apart, collidepoint.
  rewrite !orb_true_iff, !andb_true_iff, !Z.leb_le, !Z.ltb_lt. lia.
Qed.

Lemma pairwise_apart_spec {A} (active : A -> bool) (rect : A -> Rect) l :
  pairwise_apart active rect l = true ->
  forall j k a b p,
    l !! j = Some a -> l !! k = Some b ->
    active a = true -> collidepoint (rect a) p = true ->
    active b = true -> collidepoint (rect b) p = true ->
    j = k.
Proof.
  unfold pairwise_apart. intros H j k a b p Hj Hk Ha Hpa Hb Hpb.
  rewrite forallb_forall in H.
  specialize (H (j, a)). rewrite forallb_forall in H.
  assert ((j, a) ∈ imap pair l) as Hja by by apply (elem_of_lookup_imap_2 pair).
  assert ((k, b) ∈ imap pair l) as Hkb by by apply (elem_of_lookup_imap_2 pair).
  apply list_elem_of_In in Hja, Hkb.
  specialize (H Hja (k, b) Hkb). cbn in H. rewrite Ha, Hb in H. cbn in H.
  apply orb_true_iff in H as [H|H].
  - apply orb_true_iff in H as [H|H]; [by apply Nat.eqb_eq in H|done].
  - exfalso. by eapply rects_apart_spec.
Qed.

Lemma buttons_apart :
  forallb (fun m => pairwise_apart (button_active m) b_rect create_buttons)
    all_modes = true.
Proof. vm_compute. reflexivity. Qed.

Lemma sliders_apart :
  forallb (fun m =>
             pairwise_apart
               (fun sl => String.eqb (s_category sl) (mode_category m))
               s_rect create_sliders) all_modes = true.
Proof. vm_compute. reflexivity. Qed.

Lemma buttons_clear_of_sliders :
  forallb (fun b => forallb (fun sl => rects_apart (b_rect b) (s_rect sl))
                      create_sliders) create_buttons = true.
Proof. vm_compute. reflexivity. Qed.

Lemma in_all_modes m : In m all_modes.
Proof. destruct m; cbn; tauto. Qed.

Lemma find_indexed_unique {A} (f : A -> bool) l k x :
  l !! k = Some x -> f x = true ->
  (forall j y, l !! j = Some y -> f y = true -> j = k) ->
  find_indexed f l 0 = Some (k, x).
Proof.
  intros Hk Hf Huniq.
  destruct (find_indexed_existsb f l 0) as [[j y] E].
  { apply existsb_exists. exists x. split; [|done].
    apply list_elem_of_In. by eapply list_elem_of_lookup_2. }
  rewrite E. apply find_indexed_Some in E as (n & -> & Hn & Hy & _).
  cbn [Nat.add]. assert (n = k) as -> by by eapply Huniq.
  rewrite Hk in Hn. by injection Hn as <-.
Qed.

Lemma button_not_slider m pos b sl :
  b ∈ create_buttons -> sl ∈ create_sliders ->
  button_hit m pos b = true -> slider_hit m pos sl = false.
Proof.
  intros Hb Hsl Hhit. pose proof buttons_clear_of_sliders as H.
  rewrite forallb_forall in H. apply list_elem_of_In in Hb, Hsl.
  specialize (H b Hb). rewrite forallb_forall in H. specialize (H sl Hsl).
  unfold button_hit in Hhit. apply andb_true_iff in Hhit as [_ Hhit].
  unfold slider_hit. destruct (collidepoint (s_rect sl) pos) eqn:E.
  - exfalso. by eapply rects_apart_spec.
  - by rewrite andb_false_r.
Qed.

(** The button under the pointer is the first hit of the scan. *)
Lemma button_scan m pos k b :
  create_buttons !! k = Some b -> button_hit m pos b = true ->
  find_indexed (button_hit m pos) create_buttons 0 = Some (k, b).
Proof.
  intros Hk Hhit. apply find_indexed_unique; [done|done|].
  intros j y Hj Hy. pose proof buttons_apart as H.
  rewrite forallb_forall in H. specialize (H m (in_all_modes m)).
  unfold button_hit in *.
  apply andb_true_iff in Hhit as [? ?]. apply andb_true_iff in Hy as [? ?].
  by eapply (pairwise_apart_spec _ _ _ H j k y b pos).
Qed.

Lemma slider_scan m pos k sl :
  create_sliders !! k = Some sl -> slider_hit m pos sl = true ->
  find_indexed (slider_hit m pos) create_sliders 0 = Some (k, sl) /\
  find_indexed (button_hit m pos) create_buttons 0 = None.
Proof.
  intros Hk Hhit. split.
  - apply find_indexed_unique; [done|done|].
    intros j y Hj Hy. pose proof sliders_apart as H.
    rewrite forallb_forall in H. specialize (H m (in_all_modes m)).
    unfold slider_hit in *.
    apply andb_true_iff in Hhit as [? ?]. apply andb_true_iff in Hy as [? ?].
    by eapply (pairwise_apart_spec _ _ _ H j k y sl pos).
  - destruct (find_indexed (button_hit m pos) create_buttons 0)
      as [[j b]|] eqn:E; [|done].
    apply find_indexed_Some in E as (n & _ & Hn & Hb & _).
    assert (slider_hit m pos sl = false) as C.
    { eapply button_not_slider; [by eapply list_elem_of_lookup_2| |done].
      by eapply list_elem_of_lookup_2. }
    congruence.
Qed.

End Controls.

(** X1.  A press on an active button runs the action of that button and of
    no other control: the active buttons of a mode do not overlap each
    other or any slider, so the first hit of the scan is the only one.
    The button is then recorded in [selected_button] and [handle_events]
    returns. *)
Theorem press_runs_the_button_under_the_pointer (attrs : list string)
    (i : Input) (s : State) (k : nat) (b : Button) :
  create_buttons !! k = Some b ->
  button_hit (mode s) (mouse_pos i) b = true ->
  (forall j b', create_buttons !! j = Some b' ->
                button_hit (mode s) (mouse_pos i) b' = true -> j = k) /\
  (forall sl, sl ∈ create_sliders ->
              slider_hit (mode s) (mouse_pos i) sl = false) /\
  handle_event attrs i s MOUSEBUTTONDOWN
  = (s' ← run_action (b_action b) s; Ok (Return (with_selected_button k s'))).
Proof.
  intros Hk Hhit. pose proof (button_scan _ _ _ _ Hk Hhit) as E.
  split; [|split].
  - intros j b' Hj Hb'. pose proof (button_scan _ _ _ _ Hj Hb') as E'.
    rewrite E in E'. by injection E' as ->.
  - intros sl Hsl. eapply button_not_slider; [|done|done].
    by eapply list_elem_of_lookup_2.
  - cbn [handle_event]. by rewrite E.
Qed.

Lemma press_runs_the_button_under_the_pointer_witness :
  handle_event PhysicsSandbox_attributes
    (mkInput (100, 470)%Z (true, false, false) (fun _ => (0, 0)%Z))
    (set_mode THERMAL init) MOUSEBUTTONDOWN
  = Ok (Return (with_selected_button 20
                  (add_heat_source (set_mode THERMAL init)))).
Proof.
  destruct (press_runs_the_button_under_the_pointer PhysicsSandbox_attributes
              (mkInput (100, 470)%Z (true, false, false) (fun _ => (0, 0)%Z))
              (set_mode THERMAL init) 20
              (mkButton (mkRect 20 450 150 40) "Add Heat Source"
                 do_add_heat_source (Some "thermal")) eq_refl eq_refl)
    as (_ & _ & E).
  exact E.
Defined.

(** X2.  A press on a slider of the current mode moves that slider and
    nothing else: no button is under the pointer, the slider is the only
    one hit, and [handle_events] returns after the setter has run. *)
Theorem press_moves_the_slider_under_the_pointer (attrs : list string)
    (i : Input) (s : State) (k : nat) (sl : Slider) :
  create_sliders !! k = Some sl ->
  slider_hit (mode s) (mouse_pos i) sl = true ->
  (forall b, b ∈ create_buttons ->
             button_hit (mode s) (mouse_pos i) b = false) /\
  handle_event attrs i s MOUSEBUTTONDOWN
  = Ok (Return
          (run_setter (s_action sl) (slider_value sl (fst (mouse_pos i)))
             (mkState (mode s) (selected_material s) (mech s) (elec s)
                (fluid s) (thermal s)
                (<[k := slider_value sl (fst (mouse_pos i))]> (slider_values s))
                (selected_button s)))).
Proof.
  intros Hk Hhit. destruct (slider_scan _ _ _ _ Hk Hhit) as [Es Eb]. split.
  - intros b Hb. destruct (button_hit _ _ b) eqn:E; [|done].
    assert (slider_hit (mode s) (mouse_pos i) sl = false) as C.
    { eapply button_not_slider; [done| |done]. by eapply list_elem_of_lookup_2. }
    congruence.
  - cbn [handle_event]. rewrite Eb, Es.
    destruct (move_slider_value k sl (mouse_pos i) s Hk) as [E _].
    by rewrite E.
Qed.

Lemma press_moves_the_slider_under_the_pointer_witness :
  handle_event PhysicsSandbox_attributes
    (mkInput (265, 30)%Z (true, false, false) (fun _ => (0, 0)%Z))
    init MOUSEBUTTONDOWN
  = Ok (Return
          (run_setter to_gravity
             (slider_value (mkSlider (mkRect 190 20 150 20) "Gravity" 0 2000
                              to_gravity "mechanics") 265)
             (mkState (mode init) (selected_material init) (mech init)
                (elec init) (fluid init) (thermal init)
                (<[0%nat := slider_value
                              (mkSlider (mkRect 190 20 150 20) "Gravity" 0 2000
                                 to_gravity "mechanics") 265]>
                   (slider_values init))
                (selected_button init)))).
Proof.
  destruct (press_moves_the_slider_under_the_pointer PhysicsSandbox_attributes
              (mkInput (265, 30)%Z (true, false, false) (fun _ => (0, 0)%Z))
              init 0
              (mkSlider (mkRect 190 20 150 20) "Gravity" 0 2000 to_gravity
                 "mechanics") eq_refl eq_refl) as (_ & E).
  exact E.
Defined.

(* ===================================================================== *)
(** * Results on the reachable states *)
(* ===================================================================== *)

(** X3.  From a reachable state, [handle_events] can fail in two ways
    only: [SystemExit] (a QUIT event or the Escape key) and the
    [AttributeError] on [point_in_shape].  In particular no material
    lookup raises [KeyError], no slider divides by zero and
    [force_start_pos] is never read before it is set. *)
Theorem handle_events_fails_two_ways (s : State) (i : Input)
    (events : list Event) (e : PyError) :
  reachable s ->
  handle_events i events s = Raise e ->
  e = SystemExit \/ e = AttributeError "point_in_shape".
Proof.
  intros Hs E. pose proof (handle_events_ok i events s (reachable_invariant s Hs)) as H.
  rewrite E in H. exact H.
Qed.

Lemma handle_events_fails_two_ways_witness :
  reachable init /\
  handle_events (mkInput (0, 0)%Z (false, false, false) (fun _ => (0, 0)%Z))
    [KEYDOWN K_4; QUIT] init = Raise SystemExit /\
  (SystemExit = SystemExit \/ SystemExit = AttributeError "point_in_shape").
Proof.
  split; [apply reach_init|]. split; [reflexivity|].
  exact (handle_events_fails_two_ways init
           (mkInput (0, 0)%Z (false, false, false) (fun _ => (0, 0)%Z))
           [KEYDOWN K_4; QUIT] SystemExit reach_init eq_refl).
Defined.

(** X4.  In a reachable state no object is selected, and every body is
    where it was created, at rest: the only code that selects an object
    fails before it can, so the drag of [handle_mechanics_motion] never
    moves anything. *)
Theorem no_object_is_ever_selected (s : State) :
  reachable s ->
  selected_object (mech s) = None /\
  Forall at_rest (body_store (mech s)) /\
  forall i s', handle_mechanics_motion (mouse_pos i) (left_pressed i) s = Ok s' ->
               body_store (mech s') = body_store (mech s).
Proof.
  intros Hs. pose proof (reachable_invariant s Hs) as Hinv.
  pose proof Hinv as (_ & _ & Hm & _).
  destruct Hm as (Hsel & _ & _ & _ & _ & _ & _ & Hrest).
  split; [done|]. split; [done|].
  intros i s' E. destruct (motion_ok i s Hinv) as (s1 & E1 & _ & _ & Hstore).
  rewrite E in E1. by injection E1 as ->.
Qed.

(** The state after a press on "Add Circle" in a fresh sandbox. *)
Lemma circle_added_reachable : reachable (with_selected_button 8 one_circle).
Proof.
  apply (reach_events
           (mkInput (100, 470)%Z (true, false, false) (fun _ => (0, 0)%Z))
           [MOUSEBUTTONDOWN] init); [apply reach_init|].
  vm_compute. reflexivity.
Qed.

Lemma no_object_is_ever_selected_witness :
  reachable (with_selected_button 8 one_circle) /\
  selected_object (mech (with_selected_button 8 one_circle)) = None.
Proof.
  split; [exact circle_added_reachable|].
  exact (proj1 (no_object_is_ever_selected _ circle_added_reachable)).
Defined.

(** X5.  In a reachable state every tracked object is in the space: its
    body and its shape were added to the current space and exist in the
    store, and no two tracked objects share a body or a shape. *)
Theorem tracked_objects_are_in_the_space (s : State) :
  reachable s ->
  let m := mech s in
  Forall (fun obj =>
            obj_body obj ∈ bodies (space m) /\
            obj_shape obj ∈ shapes (space m) /\
            is_Some (body_store m !! obj_body obj) /\
            is_Some (shape_store m !! obj_shape obj)) (objects m) /\
  NoDup (map obj_body (objects m)) /\
  NoDup (map obj_shape (objects m)).
Proof.
  intros Hs. pose proof (reachable_invariant s Hs) as (_ & _ & Hm & _).
  destruct Hm as (_ & _ & Hobj & Hb & Hsh & Hnb & Hns & _).
  cbn. split; [|done].
  rewrite Forall_forall in Hobj. rewrite Forall_forall in Hb.
  rewrite Forall_forall in Hsh. apply Forall_forall.
  intros obj Hin. destruct (Hobj obj Hin) as [H1 H2].
  repeat split; try done; apply lookup_lt_is_Some; auto.
Qed.

Lemma tracked_objects_are_in_the_space_witness :
  reachable (with_selected_button 8 one_circle) /\
  NoDup (map obj_body (objects (mech (with_selected_button 8 one_circle)))).
Proof.
  split; [exact circle_added_reachable|].
  exact (proj1 (proj2 (tracked_objects_are_in_the_space _
                         circle_added_reachable))).
Defined.

(** X6.  Nothing the event handler can do computes a result of the
    simulation: in every reachable state the temperature grid is the
    uniform grid at 20, the circuit is marked unsolved with no voltage
    and no current recorded, there is no wire, every particle is at rest
    at 20 degrees, and every heat entity has the position, size and power
    it was created with. *)
Theorem simulation_results_never_change (s : State) :
  reachable s ->
  temperature_map (thermal s) = room_temperature_grid /\
  circuit_solved (elec s) = false /\
  voltages (elec s) = ∅ /\ currents (elec s) = ∅ /\ wires (elec s) = [] /\
  Forall (fun p => p_velocity p = (0, 0) /\ p_temperature p = 20)
    (particles (fluid s)) /\
  Forall as_placed (heat_sources (thermal s)).
Proof.
  intros Hs.
  pose proof (reachable_invariant s Hs) as (_ & _ & _ & He & Hf & Ht).
  destruct He as (_ & _ & _ & Hw & Hcs & Hv & Hi).
  destruct Hf as [_ Hp]. destruct Ht as [Hgrid Hh].
  repeat split; try assumption.
  eapply Forall_impl; [exact Hp|]. by intros p (_ & _ & ? & ?).
Qed.

Lemma simulation_results_never_change_witness :
  reachable (with_selected_button 8 one_circle) /\
  temperature_map (thermal (with_selected_button 8 one_circle))
  = room_temperature_grid.
Proof.
  split; [exact circle_added_reachable|].
  exact (proj1 (simulation_results_never_change _ circle_added_reachable)).
Defined.

(** X7.  In a reachable state the selected material is a key of
    [MATERIALS], the selected fluid is "Water" or "Oil", every particle
    has a colour and a density, and every stored slider value lies in the
    range of its slider. *)
Theorem selections_stay_valid (s : State) :
  reachable s ->
  is_Some (MATERIALS !! selected_material s) /\
  selected_fluid (fluid s) ∈ ["Water"; "Oil"] /\
  Forall (fun p => is_Some (p_color p) /\ is_Some (p_density p))
    (particles (fluid s)) /\
  sliders_in_range (slider_values s).
Proof.
  intros Hs.
  pose proof (reachable_invariant s Hs) as (Hmat & Hsl & _ & _ & Hf & _).
  destruct Hf as [Hsel Hp]. repeat split; try assumption.
  eapply Forall_impl; [exact Hp|]. by intros p (? & ? & _).
Qed.

Lemma selections_stay_valid_witness :
  reachable (with_selected_button 8 one_circle) /\
  is_Some (MATERIALS !! selected_material (with_selected_button 8 one_circle)).
Proof.
  split; [exact circle_added_reachable|].
  exact (proj1 (selections_stay_valid _ circle_added_reachable)).
Defined.

(* ===================================================================== *)
(** * Results on the sliders and on the event loop *)
(* ===================================================================== *)

Section SliderFacts.

Lemma clamp_cases lo hi v :
  lo <= hi ->
  (lo <= v <= hi -> py_max lo (py_min hi v) == v) /\
  (v <= lo -> py_max lo (py_min hi v) == lo) /\
  (hi <= v -> py_max lo (py_min hi v) == hi).
Proof.
  intros H. unfold py_max, py_min.
  destruct (lt_b_spec v hi);
    match goal with |- context [lt_b lo ?a] => destruct (lt_b_spec lo a) end;
    repeat split; intros; lra.
Qed.

Lemma sliders_wide :
  Forall (fun sl => (0 < rw (s_rect sl))%Z) create_sliders.
Proof. repeat constructor. Qed.

Lemma ratio_bounds (a b : Z) :
  (0 < b)%Z ->
  ((0 <= a)%Z -> 0 <= inject_Z a / inject_Z b) /\
  ((a <= 0)%Z -> inject_Z a / inject_Z b <= 0) /\
  ((a <= b)%Z -> inject_Z a / inject_Z b <= 1) /\
  ((b <= a)%Z -> 1 <= inject_Z a / inject_Z b).
Proof.
  intros Hb.
  assert (0 < inject_Z b) as Hb' by (unfold Qlt; cbn; lia).
  repeat split; intros H.
  - apply Qle_shift_div_l; [done|]. rewrite Qmult_0_l.
    unfold Qle; cbn; lia.
  - apply Qle_shift_div_r; [done|]. rewrite Qmult_0_l.
    unfold Qle; cbn; lia.
  - apply Qle_shift_div_r; [done|]. rewrite Qmult_1_l.
    unfold Qle; cbn; lia.
  - apply Qle_shift_div_l; [done|]. rewrite Qmult_1_l.
    unfold Qle; cbn; lia.
Qed.

End SliderFacts.

(** X8.  The value a slider of the table takes for a pointer abscissa [px]
    is linear in [px] across the slider and clamped outside it: it always
    lies between [min_value] and [max_value], it is
    [min + (px - x) / width * (max - min)] while the pointer is over the
    slider, [min_value] to its left and [max_value] to its right; and
    [move_slider] never raises. *)
Theorem slider_value_linear_and_clamped (k : nat) (sl : Slider) (pos : Pixel)
    (s : State) :
  create_sliders !! k = Some sl ->
  let x := rx (s_rect sl) in
  let w := rw (s_rect sl) in
  let v := slider_value sl (fst pos) in
  (exists s', move_slider k sl pos s = Ok s' /\
              slider_values s' = <[k := v]> (slider_values s)) /\
  min_value sl <= v <= max_value sl /\
  ((x <= fst pos <= x + w)%Z ->
   v == min_value sl
        + inject_Z (fst pos - x) / inject_Z w * (max_value sl - min_value sl)) /\
  ((fst pos <= x)%Z -> v == min_value sl) /\
  ((x + w <= fst pos)%Z -> v == max_value sl).
Proof.
  intros Hk x w v.
  destruct (move_slider_value k sl pos s Hk) as [E Hrange].
  pose proof sliders_ordered as Hord. rewrite Forall_forall in Hord.
  destruct (Hord sl) as [Hle _]; [by eapply list_elem_of_lookup_2|].
  pose proof sliders_wide as Hwide. rewrite Forall_forall in Hwide.
  assert (0 < w)%Z as Hw by (apply Hwide; by eapply list_elem_of_lookup_2).
  destruct (ratio_bounds (fst pos - x) w Hw) as (R1 & R2 & R3 & R4).
  split.
  { eexists. split; [exact E|]. by destruct (s_action sl). }
  split; [exact Hrange|].
  subst v. unfold slider_value. fold x w.
  set (r := inject_Z (fst pos - x) / inject_Z w) in *.
  destruct (clamp_cases (min_value sl) (max_value sl)
              (min_value sl + r * (max_value sl - min_value sl)) Hle)
    as (C1 & C2 & C3).
  repeat split.
  - intros [H1 H2]. apply C1.
    specialize (R1 ltac:(lia)). specialize (R3 ltac:(lia)). nra.
  - intros H. apply C2. specialize (R2 ltac:(lia)). nra.
  - intros H. apply C3. specialize (R4 ltac:(lia)). nra.
Qed.

Lemma slider_value_linear_and_clamped_witness :
  slider_value (mkSlider (mkRect 190 20 150 20) "Temperature" (-20) 500
                  to_temperature "thermal") 265
  == -20 + inject_Z (265 - 190) / inject_Z 150 * (500 - -20).
Proof.
  destruct (slider_value_linear_and_clamped 6
              (mkSlider (mkRect 190 20 150 20) "Temperature" (-20) 500
                 to_temperature "thermal") (265, 30)%Z init eq_refl)
    as (_ & _ & H & _).
  apply H. cbn. lia.
Defined.

(** X9.  A press that lands on an active button or slider ends the call of
    [handle_events]: the events queued behind it in the same batch are
    never looked at, a QUIT among them included. *)
Theorem press_on_control_drops_later_events (i : Input) (s : State)
    (later : list Event) :
  hits_ui_control s (mouse_pos i) = true ->
  handle_events i (MOUSEBUTTONDOWN :: later) s
  = handle_events i [MOUSEBUTTONDOWN] s.
Proof.
  intros H. unfold hits_ui_control in H. unfold handle_events.
  cbn [handle_events_of handle_event].
  destruct (find_indexed (button_hit _ _) _ _) as [[k b]|] eqn:Eb.
  - destruct (run_action (b_action b) s); reflexivity.
  - destruct (find_indexed (slider_hit _ _) _ _) as [[k sl]|] eqn:Es.
    + destruct (move_slider k sl (mouse_pos i) s); reflexivity.
    + exfalso. apply orb_true_iff in H as [H|H].
      * destruct (find_indexed_existsb _ _ 0 H) as [? E]. congruence.
      * destruct (find_indexed_existsb _ _ 0 H) as [? E]. congruence.
Qed.

Lemma press_on_control_drops_later_events_witness :
  handle_events (mkInput (100, 470)%Z (true, false, false) (fun _ => (0, 0)%Z))
    [MOUSEBUTTONDOWN; QUIT] init
  = handle_events (mkInput (100, 470)%Z (true, false, false) (fun _ => (0, 0)%Z))
      [MOUSEBUTTONDOWN] init.
Proof.
  apply (press_on_control_drops_later_events
           (mkInput (100, 470)%Z (true, false, false) (fun _ => (0, 0)%Z))
           init [QUIT]).
  vm_compute. reflexivity.
Defined.

(** X10.  A fluid click with the left button held appends exactly five
    particles of the selected fluid, each within 10 pixels of the pointer
    on both axes when the random draws are within [-10, 10], and touches
    nothing else; with the button not held the click does nothing. *)
Theorem fluid_click_emits_five (p : Pixel) (rand : nat -> Z * Z) (s : State) :
  (forall k, (-10 <= fst (rand k) <= 10 /\ -10 <= snd (rand k) <= 10)%Z) ->
  handle_fluid_click p false rand s = s /\
  exists new,
    handle_fluid_click p true rand s
    = with_fluid (mkFluid (particles (fluid s) ++ new) (obstacles (fluid s))
                    (selected_fluid (fluid s))) s /\
    length new = 5%nat /\
    Forall (fun q =>
              p_material q = selected_fluid (fluid s) /\
              (Z.abs (fst (p_position q) - fst p) <= 10)%Z /\
              (Z.abs (snd (p_position q) - snd p) <= 10)%Z) new.
Proof.
  intros Hrand. split; [reflexivity|].
  eexists. split; [reflexivity|]. split; [by rewrite length_map|].
  apply Forall_fmap, Forall_forall. intros k _. cbn.
  specialize (Hrand k). destruct (rand k) as [ox oy]. cbn in *.
  split; [by unfold Particle_init; repeat destruct (String.eqb _ _)|].
  assert (p_position (Particle_init (fst p + ox, snd p + oy)%Z
                        (selected_fluid (fluid s)))
          = (fst p + ox, snd p + oy)%Z) as ->
    by (unfold Particle_init; repeat destruct (String.eqb _ _); reflexivity).
  cbn. lia.
Qed.

Lemma fluid_click_emits_five_witness :
  exists new,
    handle_fluid_click (500, 300)%Z true (fun _ => (3, -4)%Z) init
    = with_fluid (mkFluid (particles (fluid init) ++ new)
                    (obstacles (fluid init)) (selected_fluid (fluid init)))
        init /\
    length new = 5%nat.
Proof.
  destruct (fluid_click_emits_five (500, 300)%Z (fun _ => (3, -4)%Z) init)
    as (_ & new & E & L & _).
  - intros k. cbn. lia.
  - exists new. split; [exact E|exact L].
Defined.

(* ===================================================================== *)
(** * Results on the setters of the mechanics and electricity modes *)
(* ===================================================================== *)

Section SetterFacts.

Lemma shape_set_friction_idem v sh :
  shape_set_friction v (shape_set_friction v sh) = shape_set_friction v sh.
Proof. reflexivity. Qed.

(** The update [set_value_of] applies to a component. *)
Lemma set_value_of_store t v s :
  component_store (elec (set_value_of t v s))
  = foldl (fun store c =>
             alter (fun comp => if decide (c_type comp = t)
                                then component_set_value v comp else comp)
               (id c) store)
      (component_store (elec s)) (components (elec s)).
Proof. reflexivity. Qed.

Lemma set_value_of_lookup t v s i :
  component_store (elec (set_value_of t v s)) !! i
  = (if bool_decide (i ∈ components (elec s))
     then (fun comp => if decide (c_type comp = t)
                       then component_set_value v comp else comp)
     else id) <$> component_store (elec s) !! i.
Proof.
  rewrite set_value_of_store, foldl_alter_lookup.
  - by rewrite map_id.
  - intros comp. by repeat case_decide.
Qed.

Lemma set_value_of_frame t v s :
  set_value_of t v s = with_elec (elec (set_value_of t v s)) s /\
  components (elec (set_value_of t v s)) = components (elec s) /\
  wires (elec (set_value_of t v s)) = wires (elec s) /\
  selected_component (elec (set_value_of t v s)) = selected_component (elec s) /\
  dragging_component (elec (set_value_of t v s)) = dragging_component (elec s) /\
  circuit_solved (elec (set_value_of t v s)) = circuit_solved (elec s) /\
  voltages (elec (set_value_of t v s)) = voltages (elec s) /\
  currents (elec (set_value_of t v s)) = currents (elec s).
Proof. by repeat split. Qed.

End SetterFacts.

(** X11.  [set_friction] gives the new friction to the shape of every
    tracked object and to no other shape: a wall, or a shape left behind
    by an earlier reset, keeps its friction.  Geometry, elasticity and
    every other attribute of the sandbox are unchanged. *)
Theorem set_friction_reaches_tracked_shapes (v : Q) (s : State) :
  let s' := set_friction v s in
  (forall i,
     shape_store (mech s') !! i
     = (if bool_decide (i ∈ map obj_shape (objects (mech s)))
        then shape_set_friction v else id) <$> shape_store (mech s) !! i) /\
  s' = with_mech (with_shape_store (shape_store (mech s')) (mech s)) s.
Proof.
  cbn. split; [|reflexivity]. intros i.
  apply (foldl_alter_lookup (shape_set_friction v) obj_shape
           (shape_set_friction_idem v)).
Qed.

(** X12.  The Voltage slider sets the value of every battery among the
    components and the Resistance slider that of every resistor; neither
    touches a component of another type (a bulb keeps its 50 ohms), and
    the two setters commute. *)
Theorem voltage_and_resistance_setters (v r : Q) (s : State) :
  (forall i,
     component_store (elec (set_voltage v s)) !! i
     = (if bool_decide (i ∈ components (elec s))
        then (fun c => if decide (c_type c = BATTERY)
                       then component_set_value v c else c)
        else id) <$> component_store (elec s) !! i) /\
  (forall i,
     component_store (elec (set_resistance r s)) !! i
     = (if bool_decide (i ∈ components (elec s))
        then (fun c => if decide (c_type c = RESISTOR)
                       then component_set_value r c else c)
        else id) <$> component_store (elec s) !! i) /\
  set_voltage v (set_resistance r s) = set_resistance r (set_voltage v s).
Proof.
  split; [intros i; apply set_value_of_lookup|].
  split; [intros i; apply set_value_of_lookup|].
  unfold set_voltage, set_resistance.
  assert (component_store (elec (set_value_of BATTERY v (set_value_of RESISTOR r s)))
          = component_store (elec (set_value_of RESISTOR r (set_value_of BATTERY v s))))
    as Hstore.
  { apply list_eq. intros i. rewrite !set_value_of_lookup.
    change (components (elec (set_value_of RESISTOR r s)))
      with (components (elec s)).
    change (components (elec (set_value_of BATTERY v s)))
      with (components (elec s)).
    destruct (component_store (elec s) !! i) as [c|]; [|done]. cbn.
    case_bool_decide; [|done]. cbn. f_equal.
    destruct c as [[] ? ? ? ? ? ? ?]; reflexivity. }
  destruct (set_value_of_frame BATTERY v (set_value_of RESISTOR r s)) as (E1 & _).
  destruct (set_value_of_frame RESISTOR r (set_value_of BATTERY v s)) as (E2 & _).
  rewrite E1, E2.
  destruct s as [md mat m e f t sv sb]. unfold with_elec. cbn.
  f_equal. cbn in Hstore. unfold set_value_of in *. cbn in *. by rewrite Hstore.
Qed.

(* ===================================================================== *)
(** * Results on the electricity pointer handlers *)
(* ===================================================================== *)

Section ClickFacts.

(** An in-place update that preserves an observation [obs] of the cells
    preserves it at every address, valid or not. *)
Lemma alter_preserves `{Inhabited A} {B} (obs : A -> B) (f : A -> A) i j
    (l : list A) :
  (forall a, obs (f a) = obs a) ->
  obs (alter f i l !!! j) = obs (l !!! j).
Proof.
  intros Hobs. rewrite !list_lookup_total_alt.
  destruct (decide (i = j)) as [->|Hne].
  - rewrite list_lookup_alter_eq. destruct (l !! j); cbn; [apply Hobs|done].
  - by rewrite list_lookup_alter_ne.
Qed.

Lemma component_toggle_twice c : component_toggle (component_toggle c) = c.
Proof. destruct c as [? ? ? ? ? ? [] ?]; reflexivity. Qed.

Lemma find_ext {A} (f g : A -> bool) l :
  (forall x, f x = g x) -> List.find f l = List.find g l.
Proof.
  intros H. induction l as [|x l IH]; [done|]. cbn. rewrite H, IH. done.
Qed.

End ClickFacts.

(** X13.  Two clicks at the same place leave every component as it was: the
    same component is found both times (a click moves nothing), a switch
    is toggled and toggled back, and a component of another type is not
    changed at all. *)
Theorem double_click_restores_components (p : Pixel) (s : State) :
  component_store (elec (handle_electricity_click p (handle_electricity_click p s)))
  = component_store (elec s) /\
  components (elec (handle_electricity_click p (handle_electricity_click p s)))
  = components (elec s).
Proof.
  unfold handle_electricity_click at 2 4.
  destruct (List.find _ (components (elec s))) as [c|] eqn:E.
  2:{ unfold handle_electricity_click. by rewrite E. }
  set (store := component_store (elec s)) in *.
  set (store1 := if decide (c_type (store !!! c) = SWITCH)
                 then alter component_toggle c store else store).
  assert (forall c', component_rect (store1 !!! c') = component_rect (store !!! c'))
    as Hrect.
  { intros c'. unfold store1. case_decide; [|done].
    by apply (alter_preserves component_rect). }
  assert (c_type (store1 !!! c) = c_type (store !!! c)) as Htype.
  { unfold store1. case_decide; [|done].
    by apply (alter_preserves c_type). }
  unfold handle_electricity_click. cbn.
  rewrite (find_ext _ (fun c => collidepoint (component_rect (store !!! c)) p))
    by (intros c'; by rewrite Hrect).
  fold store. rewrite E. cbn. split; [|done].
  rewrite Htype. unfold store1. case_decide; [|done].
  rewrite list_alter_alter_eq. apply list_alter_id.
  intros x. apply component_toggle_twice.
Qed.

(** X14.  Dragging: a press on a component followed by a pointer motion to
    [q] puts that component at [q] and moves no other; a motion while
    nothing is being dragged changes nothing. *)
Theorem drag_moves_the_pressed_component (p q : Pixel) (s : State) (c : nat) :
  List.find (fun c => collidepoint
                        (component_rect (component_store (elec s) !!! c)) p)
    (components (elec s)) = Some c ->
  (c < length (component_store (elec s)))%nat ->
  let s1 := handle_electricity_click p s in
  let s2 := handle_electricity_motion q s1 in
  selected_component (elec s1) = Some c /\
  dragging_component (elec s1) = true /\
  c_position (component_store (elec s2) !!! c) = q /\
  (forall c', c' <> c ->
              component_store (elec s2) !! c' = component_store (elec s1) !! c') /\
  (forall s0, dragging_component (elec s0) = false ->
              handle_electricity_motion q s0 = s0).
Proof.
  intros E Hlt. cbn.
  unfold handle_electricity_click. rewrite E.
  unfold handle_electricity_motion. cbn.
  split; [done|]. split; [done|]. split; [|split].
  - rewrite list_lookup_total_alter_eq; [done|].
    case_decide; [by rewrite length_alter|done].
  - intros c' Hne. by rewrite list_lookup_alter_ne.
  - intros s0 H0. by rewrite H0.
Qed.

Lemma drag_moves_the_pressed_component_witness :
  let s := add_component SWITCH init in
  c_position
    (component_store
       (elec (handle_electricity_motion (300, 200)%Z
                (handle_electricity_click (510, 355)%Z s))) !!! 0%nat)
  = (300, 200)%Z.
Proof.
  intros s.
  destruct (drag_moves_the_pressed_component (510, 355)%Z (300, 200)%Z s 0)
    as (_ & _ & H & _).
  - reflexivity.
  - cbn. lia.
  - exact H.
Defined.

(* ===================================================================== *)
(** * Results on the thermal setters and clicks *)
(* ===================================================================== *)

Section ThermalCompose.

Lemma with_heat_sources_twice l l' s :
  with_heat_sources l (with_heat_sources l' s) = with_heat_sources l s.
Proof. reflexivity. Qed.

Lemma heat_click_then_set v p h :
  entity_set_temperature v (heat_click p h) = entity_set_temperature v h.
Proof.
  destruct h; cbn; [destruct (sqrt_lt _ _)|destruct (collidepoint _ _)]; done.
Qed.

Lemma covers_after_click p q h : covers (heat_click q h) p <-> covers h p.
Proof.
  destruct h; cbn; [destruct (sqrt_lt _ _)|destruct (collidepoint _ _)]; done.
Qed.

Lemma iter_clicks_sources n p s :
  heat_sources (thermal (Nat.iter n (handle_thermal_click p) s))
  = map (Nat.iter n (heat_click p)) (heat_sources (thermal s)).
Proof.
  induction n as [|n IH].
  - cbn. by rewrite map_id.
  - rewrite Nat.iter_succ. unfold handle_thermal_click at 1.
    cbn [thermal heat_sources with_heat_sources with_thermal].
    rewrite IH, map_map. apply map_ext. intros h.
    by rewrite Nat.iter_succ.
Qed.

Lemma iter_heat_click n p h :
  same_but_temperature h (Nat.iter n (heat_click p) h) /\
  (covers h p ->
   entity_temperature (Nat.iter n (heat_click p) h)
   == entity_temperature h + 10 * inject_Z (Z.of_nat n)) /\
  (~ covers h p -> Nat.iter n (heat_click p) h = h).
Proof.
  induction n as [|n (IH1 & IH2 & IH3)].
  - cbn. split; [by destruct h|]. split; [intros _; ring|done].
  - rewrite Nat.iter_succ.
    destruct (heat_click_spec p (Nat.iter n (heat_click p) h)) as [Hc Hn].
    assert (covers (Nat.iter n (heat_click p) h) p <-> covers h p) as Hiff.
    { clear. induction n as [|n IH]; [done|]. rewrite Nat.iter_succ.
      by rewrite covers_after_click. }
    split; [|split].
    + destruct (Nat.iter n (heat_click p) h) as [? ? ? ?|? ? ? ?] eqn:E,
        h as [? ? ? ?|? ? ? ?]; cbn in IH1 |- *; try done.
      * destruct (sqrt_lt _ _); exact IH1.
      * destruct (collidepoint _ _); exact IH1.
    + intros C. destruct (Hc (proj2 Hiff C)) as [-> _].
      rewrite (IH2 C). rewrite Nat2Z.inj_succ, <- Z.add_1_r, inject_Z_plus. ring.
    + intros C. rewrite (IH3 C). destruct (heat_click_spec p h) as [_ H].
      by apply H.
Qed.

End ThermalCompose.

(** X15.  The thermal setters and the click compose as follows: a later
    [set_temperature] wins over an earlier one and over any click;
    [set_conductivity] commutes with [set_temperature] and with a
    click. *)
Theorem thermal_updates_compose (v w k : Q) (p : Pixel) (s : State) :
  set_temperature v (set_temperature w s) = set_temperature v s /\
  set_temperature v (handle_thermal_click p s) = set_temperature v s /\
  set_temperature v (set_conductivity k s)
  = set_conductivity k (set_temperature v s) /\
  handle_thermal_click p (set_conductivity k s)
  = set_conductivity k (handle_thermal_click p s).
Proof.
  assert (forall (f g : HeatEntity -> HeatEntity) l s0,
            (forall h, f h = g h) ->
            with_heat_sources (map f l) s0 = with_heat_sources (map g l) s0)
    as Hext.
  { intros f g l s0 H. f_equal. by apply map_ext. }
  unfold set_temperature, set_conductivity, handle_thermal_click.
  repeat split; rewrite with_heat_sources_twice;
    cbn [thermal heat_sources with_heat_sources with_thermal];
    rewrite map_map.
  - apply Hext. by intros [].
  - apply Hext. intros h. apply heat_click_then_set.
  - rewrite with_heat_sources_twice.
    cbn [thermal heat_sources with_heat_sources with_thermal].
    rewrite map_map. apply Hext. by intros [].
  - rewrite with_heat_sources_twice.
    cbn [thermal heat_sources with_heat_sources with_thermal].
    rewrite map_map. apply Hext. intros h.
    destruct h; cbn; [destruct (sqrt_lt _ _)|destruct (collidepoint _ _)]; done.
Qed.

(** X16.  Clicks accumulate without bound: after [n] clicks at [p] every
    entity whose footprint contains [p] is [10 * n] degrees warmer, every
    other entity is unchanged, and no entity has changed in anything but
    its temperature.  No ceiling is applied, so the 500 of the
    Temperature slider can be exceeded. *)
Theorem repeated_clicks_accumulate (n : nat) (p : Pixel) (s : State) :
  Forall2 (fun h h' =>
             same_but_temperature h h' /\
             (covers h p ->
              entity_temperature h'
              == entity_temperature h + 10 * inject_Z (Z.of_nat n)) /\
             (~ covers h p -> h' = h))
    (heat_sources (thermal s))
    (heat_sources (thermal (Nat.iter n (handle_thermal_click p) s))).
Proof.
  rewrite iter_clicks_sources.
  apply Forall2_fmap_r, Forall_Forall2_diag, Forall_forall.
  intros h _. apply iter_heat_click.
Qed.

(* ===================================================================== *)
(** * Further results on [point_in_polygon] and [point_in_shape] *)
(* ===================================================================== *)

(** X17.  The answer of [point_in_polygon] does not depend on the vertex
    at which the list starts: every edge is evaluated in the same way,
    in another order.  It does depend on the direction in which the
    vertices are listed: [xinters] is rounded differently when an edge
    is walked from its other end. *)
Theorem point_in_polygon_ignores_start_not_direction
    (pt : Numeric.point) (l1 l2 : list Numeric.point) (b : bool) :
  (Numeric.point_in_polygon pt (l1 ++ l2) = Ok b <->
   Numeric.point_in_polygon pt (l2 ++ l1) = Ok b) /\
  (exists q vertices,
     Numeric.point_in_polygon q vertices = Ok true /\
     Numeric.point_in_polygon q (reverse vertices) = Ok false).
Proof.
  split.
  - assert (forall k1 k2 : list Numeric.point,
              Numeric.point_in_polygon pt (k1 ++ k2) = Ok b ->
              Numeric.point_in_polygon pt (k2 ++ k1) = Ok b) as H.
    { intros k1 k2 (bs & M & ->)%point_in_polygon_returns_with.
      destruct (number_edges_shift k1 k2) as (es1 & es2 & E1 & E2).
      pose proof (crossing_count_shift pt es1 es2 (parity bs)) as S.
      rewrite <- E1, M, <- E2 in S. specialize (S eq_refl).
      pose proof (point_in_polygon_spec pt (k2 ++ k1)) as R.
      destruct (mapM (EvenOdd.crosses pt) (EvenOdd.edges (k2 ++ k1)));
        cbn [mbind result_bind bind] in S; congruence. }
    split; apply H.
  - exists (PyNumber.decimal 1 10, PyNumber.PyInt 1),
           [(PyNumber.PyInt 0, PyNumber.PyInt 0);
            (PyNumber.PyInt 1, PyNumber.PyInt 10);
            (PyNumber.PyInt 0, PyNumber.PyInt 10)].
    split; vm_compute; reflexivity.
Qed.

Section BoxShape.

Import Geometry.

(** On an axis-parallel rectangle, listed as [Poly.create_box] lists it,
    only the two vertical sides can be counted, and the count is odd
    exactly on the half-open rectangle. *)
Lemma point_in_polygon_rectangle (x0 x1 y0 y1 x y : Q) :
  x0 < x1 -> y0 < y1 ->
  point_in_polygon (x, y) [(x1, y0); (x1, y1); (x0, y1); (x0, y0)]
  = Ok (lt_b x0 x && le_b x x1 && lt_b y0 y && le_b y y1).
Proof.
  intros Hx Hy. rewrite point_in_polygon_parity. f_equal.
  change (edges [(x1, y0); (x1, y1); (x0, y1); (x0, y0)])
    with [((x1, y0), (x1, y1)); ((x1, y1), (x0, y1));
          ((x0, y1), (x0, y0)); ((x0, y0), (x1, y0))].
  cbn [map parity].
  rewrite (flips_level_edge (x, y) x1 y1 x0 y1) by reflexivity.
  rewrite (flips_level_edge (x, y) x0 y0 x1 y0) by reflexivity.
  unfold flips, py_min, py_max.
  set (xr := (y - y0) * (x1 - x1) / (y1 - y0) + x1).
  set (xl := (y - y1) * (x0 - x0) / (y0 - y1) + x0).
  assert (xr == x1) as Er by (unfold xr; field; lra).
  assert (xl == x0) as El by (unfold xl; field; lra).
  clearbody xr xl. crush lra.
Qed.

Lemma half_extent (w : Q) : 0 < w -> - (w / 2) < w / 2.
Proof.
  intros H. assert (0 < w / 2) by (apply Qlt_shift_div_l; lra). lra.
Qed.

End BoxShape.

(** X18.  For a box shape, [point_in_shape] tests the point against the
    vertices that [get_vertices] returns, which are relative to the
    centre of the box: when [point_in_polygon] can be looked up on [self],
    the answer is the half-open test [-w/2 < x <= w/2], [-h/2 < y <= h/2]
    on the coordinates of the point itself, wherever the body is; when it
    cannot, the call raises [AttributeError]. *)
Theorem box_hit_test_ignores_body_position (attrs : list string)
    (p : Point) (body : Body) (shape : Shape) (w h : Q) :
  0 < w -> 0 < h ->
  geometry shape = Poly (box_vertices (w, h)) ->
  Geometry.point_in_shape attrs p body shape
  = if bool_decide ("point_in_polygon" ∈ attrs)
    then Ok (lt_b (- (w / 2)) (fst p) && le_b (fst p) (w / 2)
             && lt_b (- (h / 2)) (snd p) && le_b (snd p) (h / 2))
    else Raise (AttributeError "point_in_polygon").
Proof.
  intros Hw Hh Hg. unfold Geometry.point_in_shape, self_getattr. rewrite Hg.
  destruct (bool_decide ("point_in_polygon" ∈ attrs)); [|reflexivity].
  cbn [mbind result_bind bind box_vertices fst snd]. destruct p as [x y].
  apply point_in_polygon_rectangle; by apply half_extent.
Qed.

(** At the centre of a box of the size that [add_box] creates, placed
    where [add_box] places it, the test answers [False]. *)
Lemma box_hit_test_ignores_body_position_witness :
  Geometry.point_in_shape intended_attributes (500, 233)
    (mkBody DYNAMIC 1 1 (500, 233) (0, 0))
    (mkShape (Some 0%nat) (Poly (box_vertices (40, 40))) 0 0 None None)
  = Ok false.
Proof.
  rewrite (box_hit_test_ignores_body_position intended_attributes (500, 233)
             _ _ 40 40); [reflexivity|reflexivity|reflexivity|reflexivity].
Defined.
